(** * RGBASM object-file emission (src/asm/output.c)

    A shallow embedding of the object writer of RGBASM: the provenance
    (file stack node) registry, the symbol ID allocator, the RPN expression
    rewriter, patch and assertion construction and the serializers, with the
    properties of the emitted data proved over the embedding.

    C objects that are reached through pointers and mutated in place (file
    stack nodes, symbols, sections) live in stores indexed by address; the
    module's globals are the fields of [State].  Unsigned 32-bit quantities
    are integers with the wrap-around written out ([u32]); the value
    [(uint32_t)-1] that the code uses for "no ID" is [NO_ID]. *)

From Stdlib Require Import ZArith Lia List Bool.
From stdpp Require Import base option list gmap.

Local Open Scope Z_scope.

(** ** Machine integers *)

Definition u8 (z : Z) : Z := z mod 256.
Definition u32 (z : Z) : Z := z mod 4294967296.

(** [(uint32_t)-1] *)
Definition NO_ID : Z := 4294967295.

Abbreviation addr := positive (only parsing).

(** ** Outcomes of a call

    [fatalerror] terminates the process; undefined behaviour (a null or
    dangling pointer dereference, a read or write outside a buffer) and a
    failed [assert] are kept apart from it. *)

Inductive fatal :=
  | TooManyNodes
  | TooManySymbols
  | UnknownSection
  | NoMemoryForPatch
  | NoMemoryForRPN
  | FstackInternalError
  | CannotOpenFile.

Inductive failure :=
  | Fatal (f : fatal)
  | Undefined
  | AssertFailed
  | OutOfFuel.

Inductive result (A : Type) :=
  | Ok (a : A)
  | Err (e : failure).
Arguments Ok {A} a.
Arguments Err {A} e.

#[global] Instance result_ret : MRet result := fun A a => Ok a.
#[global] Instance result_bind : MBind result := fun A B f m =>
  match m with
  | Ok a => f a
  | Err e => Err e
  end.

(** Dereference of a pointer into a store. *)
Definition load {A : Type} (h : gmap positive A) (p : addr) : result A :=
  match h !! p with
  | Some x => Ok x
  | None => Err Undefined
  end.

(** ** File stack nodes (asm/fstack.h)

    [struct FileStackNode] with the trailing members of its two extensions,
    [FileStackNamedNode] (name) and [FileStackReptNode] (reptDepth, iters). *)

Inductive NodePayload :=
  | NamedNode (name : list Z)
  | ReptNode (reptDepth : Z) (iters : list Z).

Record FileStackNode := mkNode {
  node_parent : option addr;
  node_lineNo : Z;
  node_next : option addr;
  node_ID : Z;
  node_type : Z;
  node_payload : NodePayload
}.

Definition set_node_ID (n : FileStackNode) (id : Z) : FileStackNode :=
  mkNode (node_parent n) (node_lineNo n) (node_next n) id (node_type n)
         (node_payload n).

Definition set_node_next (n : FileStackNode) (nx : option addr)
  : FileStackNode :=
  mkNode (node_parent n) (node_lineNo n) nx (node_ID n) (node_type n)
         (node_payload n).

(** The registry: the store of nodes and the global [fileStackNodes], head
    of the list threaded through [next]. *)
Record Registry := mkRegistry {
  nodes : gmap positive FileStackNode;
  fileStackNodes : option addr
}.

Definition getNbFileStackNodes (r : Registry) : result Z :=
  match fileStackNodes r with
  | Some h => n ← load (nodes r) h; Ok (u32 (node_ID n + 1))
  | None => Ok 0
  end.

(** The [while] loop of [out_RegisterNode].  Every iteration gives an ID to
    a node that had none, so the number of nodes bounds the iterations. *)
Fixpoint out_RegisterNode_loop (fuel : nat) (r : Registry) (node : addr)
  : result Registry :=
  match fuel with
  | O => Err OutOfFuel
  | S fuel' =>
    n ← load (nodes r) node;
    if node_ID n =? NO_ID then
      id ← getNbFileStackNodes r;
      if id =? NO_ID then Err (Fatal TooManyNodes)
      else
        let n' := set_node_next (set_node_ID n id) (fileStackNodes r) in
        let r' := mkRegistry (<[node := n']> (nodes r)) (Some node) in
        match node_parent n with
        | Some p => out_RegisterNode_loop fuel' r' p
        | None => Ok r'
        end
    else Ok r
  end.

Definition out_RegisterNode (r : Registry) (node : addr) : result Registry :=
  out_RegisterNode_loop (S (size (nodes r))) r node.

(** The number of nodes without an ID. *)
Definition unregistered (h : gmap positive FileStackNode) : nat :=
  size (filter (λ kv, node_ID kv.2 = NO_ID) h).

(** Traversal of the flat list from [p], as the loops over
    [node = node->next] do. *)
Fixpoint flat_list_from (fuel : nat) (h : gmap positive FileStackNode)
  (p : option addr) : result (list addr) :=
  match p with
  | None => Ok []
  | Some a =>
    match fuel with
    | O => Err OutOfFuel
    | S fuel' =>
      n ← load h a;
      l ← flat_list_from fuel' h (node_next n);
      Ok (a :: l)
    end
  end.

Definition flat_list (r : Registry) : result (list addr) :=
  flat_list_from (size (nodes r)) (nodes r) (fileStackNodes r).

Definition ID_of (r : Registry) (a : addr) : Z :=
  match nodes r !! a with
  | Some n => node_ID n
  | None => NO_ID
  end.

(** *** What the walk of [out_RegisterNode] does, in the words of its contract

    [unregistered_path] is the upward path the walk covers: the node, its
    parent, and so on, up to the first node that has an ID or the root.
    [register_all] gives each node of a path the next ID and prepends it. *)

Fixpoint unregistered_path_from (fuel : nat)
  (h : gmap positive FileStackNode) (a : addr) : result (list addr) :=
  match fuel with
  | O => Err OutOfFuel
  | S fuel' =>
    n ← load h a;
    if node_ID n =? NO_ID then
      match node_parent n with
      | Some p => l ← unregistered_path_from fuel' h p; Ok (a :: l)
      | None => Ok [a]
      end
    else Ok []
  end.

Definition unregistered_path (r : Registry) (a : addr) : result (list addr) :=
  unregistered_path_from (S (size (nodes r))) (nodes r) a.

Definition register_one (r : Registry) (a : addr) : result Registry :=
  n ← load (nodes r) a;
  id ← getNbFileStackNodes r;
  if id =? NO_ID then Err (Fatal TooManyNodes)
  else Ok (mkRegistry
             (<[a := set_node_next (set_node_ID n id) (fileStackNodes r)]>
                (nodes r))
             (Some a)).

Fixpoint register_all (r : Registry) (path : list addr) : result Registry :=
  match path with
  | [] => Ok r
  | a :: rest => r' ← register_one r a; register_all r' rest
  end.

(** *** States of the registry

    Nodes are created by the front end without an ID; the only code that
    writes [ID], [next] or [fileStackNodes] is [out_RegisterNode]. *)

Inductive reachable : Registry → Prop :=
  | reach_init r :
      fileStackNodes r = None →
      map_Forall (λ _ n, node_ID n = NO_ID) (nodes r) →
      reachable r
  | reach_new r a n :
      reachable r →
      nodes r !! a = None →
      node_ID n = NO_ID →
      reachable (mkRegistry (<[a := n]> (nodes r)) (fileStackNodes r))
  | reach_register r a r' :
      reachable r →
      out_RegisterNode r a = Ok r' →
      reachable r'.

(** [countdown n] is [n-1; ...; 1; 0]. *)
Fixpoint countdown (n : nat) : list Z :=
  match n with
  | O => []
  | S k => Z.of_nat k :: countdown k
  end.

(** The flat list starting at [p] is [l], and its IDs count down to 0. *)
Fixpoint chain_ok (h : gmap positive FileStackNode) (p : option addr)
  (l : list addr) : Prop :=
  match l with
  | [] => p = None
  | a :: l' =>
    p = Some a ∧
    ∃ n, h !! a = Some n ∧ node_ID n = Z.of_nat (length l') ∧
         chain_ok h (node_next n) l'
  end.

Record registry_inv (r : Registry) (l : list addr) : Prop := {
  inv_chain : chain_ok (nodes r) (fileStackNodes r) l;
  inv_complete : ∀ a n, nodes r !! a = Some n → node_ID n ≠ NO_ID → a ∈ l;
  inv_bound : Z.of_nat (length l) ≤ NO_ID
}.

(** ** Constants and collaborators that other files define

    [linkdefs.h] and [asm/fstack.h] give the numeric values of the RPN
    opcodes, of the node, symbol and section kinds and the object-file
    header; the values are parameters of the development. *)

Class Linkdefs := {
  RPN_CONST : Z;
  RPN_SYM : Z;
  RPN_BANK_SYM : Z;
  RPN_BANK_SECT : Z;
  NODE_REPT : Z;
  SECTION_UNION : Z;
  SECTION_FRAGMENT : Z;
  SYMTYPE_LOCAL : Z;
  SYMTYPE_IMPORT : Z;
  SYMTYPE_EXPORT : Z;
  sect_HasData : Z → bool;
  (** [RGBDS_OBJECT_VERSION_STRING] printed with
      [RGBDS_OBJECT_VERSION_NUMBER] *)
  RGBDS_OBJECT_VERSION : list Z;
  RGBDS_OBJECT_REV : Z
}.

(** The labels of the [switch] of [writerpn] are one-byte values, and
    different from one another (C accepts no duplicate [case]). *)
Definition rpn_opcodes_ok `{Linkdefs} : Prop :=
  Forall (λ op, 0 ≤ op < 256)
         [RPN_CONST; RPN_SYM; RPN_BANK_SYM; RPN_BANK_SECT] ∧
  NoDup [RPN_CONST; RPN_SYM; RPN_BANK_SYM; RPN_BANK_SECT].

(** What the front end answers at the time of a call: the current file
    stack node and line ([fstk_GetFileStack], [lexer_GetLineNo]), the
    section and offset of PC ([sect_GetSymbolSection],
    [sect_GetSymbolOffset]) and the symbol table queries of [asm/symbol.h].
    [sym_ForEach] is the sequence of symbols on which the function of that
    name calls its callback. *)
Record FrontEnd := mkFrontEnd {
  fstk_GetFileStack : addr;
  lexer_GetLineNo : Z;
  sect_GetSymbolSection : option addr;
  sect_GetSymbolOffset : Z;
  sym_FindSymbol : list Z → option addr;
  sym_IsConstant : addr → bool;
  sym_GetConstantValue : list Z → Z;
  sym_IsPC : addr → bool;
  sym_IsDefined : addr → bool;
  sym_GetSection : addr → option addr;
  sym_ForEach : list addr
}.

(** ** Symbols, patches, assertions, sections, expressions *)

(** The members of [struct Symbol] that this file reads or writes.  The
    list of object symbols, threaded in C through [next] and extended at
    [objectSymbolsTail], is the sequence [objectSymbols] of [State]. *)
Record Symbol := mkSymbol {
  sym_name : list Z;
  sym_isExported : bool;
  sym_src : addr;
  sym_fileLine : Z;
  sym_value : Z;
  sym_ID : Z
}.

Definition set_sym_ID (s : Symbol) (id : Z) : Symbol :=
  mkSymbol (sym_name s) (sym_isExported s) (sym_src s) (sym_fileLine s)
           (sym_value s) id.

(** Modelled from the spec: [asm/symbol.h] is not part of the sources;
    [sym_IsExported] reads the export flag of the symbol. *)
Definition sym_IsExported (s : Symbol) : bool := sym_isExported s.

(** [struct Patch]; [next] is the position in the list that owns it. *)
Record Patch := mkPatch {
  patch_src : addr;
  patch_lineNo : Z;
  patch_nOffset : Z;
  patch_pcSection : option addr;
  patch_pcOffset : Z;
  patch_type : Z;
  patch_nRPNSize : Z;
  patch_pRPN : list Z
}.

(** [struct Assertion]; its member [section] is neither written nor read
    by this file. *)
Record Assertion := mkAssertion {
  assert_patch : Patch;
  assert_message : list Z
}.

(** [struct Section] *)
Record Sect := mkSect {
  sect_name : list Z;
  sect_type : Z;
  sect_modifier : Z;
  sect_size : Z;
  sect_org : Z;
  sect_bank : Z;
  sect_align : Z;
  sect_alignOfs : Z;
  sect_data : list Z;
  sect_patches : list Patch
}.

Definition set_sect_patches (s : Sect) (ps : list Patch) : Sect :=
  mkSect (sect_name s) (sect_type s) (sect_modifier s) (sect_size s)
         (sect_org s) (sect_bank s) (sect_align s) (sect_alignOfs s)
         (sect_data s) ps.

(** The members of [struct Expression] that [allocpatch] reads. *)
Record Expression := mkExpression {
  isKnown : bool;
  nVal : Z;
  tRPN : list Z;
  nRPNLength : Z;
  nRPNPatchSize : Z
}.

(** ** The globals of the module

    [mallocs] are the outcomes of the coming calls of [malloc] and
    [strdup] ([true]: memory is returned); past its end they succeed. *)
Record State := mkState {
  registry : Registry;
  symbols : gmap positive Symbol;
  objectSymbols : list addr;
  nbSymbols : Z;
  sections : gmap positive Sect;
  pSectionList : list addr;
  pCurrentSection : option addr;
  assertions : list Assertion;
  mallocs : list bool
}.

Definition set_registry (st : State) (r : Registry) : State :=
  mkState r (symbols st) (objectSymbols st) (nbSymbols st) (sections st)
          (pSectionList st) (pCurrentSection st) (assertions st) (mallocs st).

Definition set_symbols (st : State) (h : gmap positive Symbol) : State :=
  mkState (registry st) h (objectSymbols st) (nbSymbols st) (sections st)
          (pSectionList st) (pCurrentSection st) (assertions st) (mallocs st).

Definition set_objectSymbols (st : State) (l : list addr) : State :=
  mkState (registry st) (symbols st) l (nbSymbols st) (sections st)
          (pSectionList st) (pCurrentSection st) (assertions st) (mallocs st).

Definition set_nbSymbols (st : State) (n : Z) : State :=
  mkState (registry st) (symbols st) (objectSymbols st) n (sections st)
          (pSectionList st) (pCurrentSection st) (assertions st) (mallocs st).

Definition set_sections (st : State) (h : gmap positive Sect) : State :=
  mkState (registry st) (symbols st) (objectSymbols st) (nbSymbols st) h
          (pSectionList st) (pCurrentSection st) (assertions st) (mallocs st).

Definition set_assertions (st : State) (l : list Assertion) : State :=
  mkState (registry st) (symbols st) (objectSymbols st) (nbSymbols st)
          (sections st) (pSectionList st) (pCurrentSection st) l (mallocs st).

Definition set_mallocs (st : State) (l : list bool) : State :=
  mkState (registry st) (symbols st) (objectSymbols st) (nbSymbols st)
          (sections st) (pSectionList st) (pCurrentSection st)
          (assertions st) l.

(** [malloc] and [strdup]: whether memory was returned. *)
Definition malloc (st : State) : bool * State :=
  match mallocs st with
  | [] => (true, st)
  | ok :: rest => (ok, set_mallocs st rest)
  end.

(** ** Counting *)

Definition countsections (st : State) : Z :=
  u32 (Z.of_nat (length (pSectionList st))).

Definition countpatches (sect : Sect) : Z :=
  u32 (Z.of_nat (length (sect_patches sect))).

Definition countasserts (st : State) : Z :=
  u32 (Z.of_nat (length (assertions st))).

(** ** Writing to the file: the bytes a call appends *)

Definition fputc (c : Z) : list Z := [u8 c].

Definition fputlong (i : Z) : list Z :=
  let i := u32 i in
  fputc i ++ fputc (Z.shiftr i 8) ++ fputc (Z.shiftr i 16)
        ++ fputc (Z.shiftr i 24).

Fixpoint fputstring (s : list Z) : list Z :=
  match s with
  | [] => fputc 0
  | c :: s' => if u8 c =? 0 then fputc 0 else fputc c ++ fputstring s'
  end.

(** [fwrite(buf, 1, size, f)] *)
Definition fwrite (buf : list Z) (size : Z) : result (list Z) :=
  if Z.of_nat (length buf) <? size then Err Undefined
  else Ok (u8 <$> take (Z.to_nat size) buf).

(** ** Section IDs *)

Fixpoint getsectid_from (sec : list addr) (sect : addr) (ID : Z) : result Z :=
  match sec with
  | [] => Err (Fatal UnknownSection)
  | s :: rest =>
    if Pos.eqb s sect then Ok ID else getsectid_from rest sect (u32 (ID + 1))
  end.

Definition getsectid (st : State) (sect : addr) : result Z :=
  getsectid_from (pSectionList st) sect 0.

Definition getSectIDIfAny (st : State) (sect : option addr) : result Z :=
  match sect with
  | Some s => getsectid st s
  | None => Ok NO_ID
  end.

(** ** Serializers *)

Definition writepatch (st : State) (patch : Patch) : result (list Z) :=
  src ← load (nodes (registry st)) (patch_src patch);
  if node_ID src =? NO_ID then Err AssertFailed
  else
    pcSectID ← getSectIDIfAny st (patch_pcSection patch);
    rpn ← fwrite (patch_pRPN patch) (patch_nRPNSize patch);
    Ok (fputlong (node_ID src) ++ fputlong (patch_lineNo patch)
        ++ fputlong (patch_nOffset patch) ++ fputlong pcSectID
        ++ fputlong (patch_pcOffset patch) ++ fputc (patch_type patch)
        ++ fputlong (patch_nRPNSize patch) ++ rpn).

Fixpoint writepatches (st : State) (patches : list Patch) : result (list Z) :=
  match patches with
  | [] => Ok []
  | patch :: rest =>
    b ← writepatch st patch;
    bs ← writepatches st rest;
    Ok (b ++ bs)
  end.

Definition writesection `{Linkdefs} (st : State) (sect : Sect)
  : result (list Z) :=
  let isUnion := if sect_modifier sect =? SECTION_UNION then 1 else 0 in
  let isFragment := if sect_modifier sect =? SECTION_FRAGMENT then 1 else 0 in
  let head :=
    fputstring (sect_name sect) ++ fputlong (sect_size sect)
    ++ fputc (Z.lor (Z.lor (sect_type sect) (Z.shiftl isUnion 7))
                    (Z.shiftl isFragment 6))
    ++ fputlong (sect_org sect) ++ fputlong (sect_bank sect)
    ++ fputc (sect_align sect) ++ fputlong (sect_alignOfs sect) in
  if sect_HasData (sect_type sect) then
    data ← fwrite (sect_data sect) (sect_size sect);
    patches ← writepatches st (sect_patches sect);
    Ok (head ++ data ++ fputlong (countpatches sect) ++ patches)
  else Ok head.

Definition writesymbol `{Linkdefs} (fe : FrontEnd) (st : State) (sym : addr)
  : result (list Z) :=
  s ← load (symbols st) sym;
  if negb (sym_IsDefined fe sym) then
    Ok (fputstring (sym_name s) ++ fputc SYMTYPE_IMPORT)
  else
    src ← load (nodes (registry st)) (sym_src s);
    if node_ID src =? NO_ID then Err AssertFailed
    else
      sectID ← getSectIDIfAny st (sym_GetSection fe sym);
      Ok (fputstring (sym_name s)
          ++ fputc (if sym_isExported s then SYMTYPE_EXPORT
                    else SYMTYPE_LOCAL)
          ++ fputlong (node_ID src) ++ fputlong (sym_fileLine s)
          ++ fputlong sectID ++ fputlong (sym_value s)).

(** The loop [for (uint32_t i = reptDepth; i--; ) fputlong(iters[i])]. *)
Fixpoint write_iters (i : nat) (iters : list Z) : result (list Z) :=
  match i with
  | O => Ok []
  | S i' =>
    match iters !! i' with
    | Some x => rest ← write_iters i' iters; Ok (fputlong x ++ rest)
    | None => Err Undefined
    end
  end.

Definition writeFileStackNode `{Linkdefs}
  (h : gmap positive FileStackNode) (node : FileStackNode)
  : result (list Z) :=
  parentID ← match node_parent node with
             | Some p => pn ← load h p; Ok (node_ID pn)
             | None => Ok NO_ID
             end;
  let head := fputlong parentID ++ fputlong (node_lineNo node)
              ++ fputc (node_type node) in
  if negb (node_type node =? NODE_REPT) then
    match node_payload node with
    | NamedNode name => Ok (head ++ fputstring name)
    | ReptNode _ _ => Err Undefined
    end
  else
    match node_payload node with
    | ReptNode reptDepth iters =>
      its ← write_iters (Z.to_nat (u32 reptDepth)) iters;
      Ok (head ++ fputlong reptDepth ++ its)
    | NamedNode _ => Err Undefined
    end.

Definition writeassert (st : State) (assert : Assertion) : result (list Z) :=
  p ← writepatch st (assert_patch assert);
  Ok (p ++ fputstring (assert_message assert)).

(** ** The symbol ID allocator *)

Definition registerSymbol (st : State) (sym : addr) : result State :=
  s ← load (symbols st) sym;
  let st := set_objectSymbols st (objectSymbols st ++ [sym]) in
  r ← out_RegisterNode (registry st) (sym_src s);
  let st := set_registry st r in
  if nbSymbols st =? NO_ID then Err (Fatal TooManySymbols)
  else
    Ok (set_nbSymbols
          (set_symbols st (<[sym := set_sym_ID s (nbSymbols st)]> (symbols st)))
          (u32 (nbSymbols st + 1))).

Definition getSymbolID (fe : FrontEnd) (st : State) (sym : addr)
  : result (Z * State) :=
  s ← load (symbols st) sym;
  st ← (if (sym_ID s =? NO_ID) && negb (sym_IsPC fe sym)
        then registerSymbol st sym else Ok st);
  s ← load (symbols st) sym;
  Ok (sym_ID s, st).

(** ** The expression rewriter *)

(** [rpn[offset++]] *)
Definition popbyte (rpn : list Z) (offset : nat) : result (Z * nat) :=
  match rpn !! offset with
  | Some b => Ok (u8 b, S offset)
  | None => Err Undefined
  end.

(** The macro [writebyte]: the bytes written so far are [rpnexpr], and the
    counter that [rpnptr] points to is their number. *)
Definition writebyte (rpnexpr : list Z) (byte : Z) : list Z :=
  rpnexpr ++ [u8 byte].

(** [for (unsigned int i = -1; (tzSym[++i] = popbyte()); )]: the name read,
    without its terminator; [room] is what is left of [tzSym]. *)
Fixpoint read_tzSym (room : nat) (rpn : list Z) (offset : nat)
  : result (list Z * nat) :=
  match room with
  | O => Err Undefined
  | S room' =>
    '(b, offset) ← popbyte rpn offset;
    if b =? 0 then Ok ([], offset)
    else '(s, offset) ← read_tzSym room' rpn offset; Ok (b :: s, offset)
  end.

(** [do { b = popbyte(); writebyte(b); } while (b != 0)], by recursion on
    the bytes from [offset] on. *)
Fixpoint copy_string (rest : list Z) (offset : nat) (rpnexpr : list Z)
  : result (nat * list Z) :=
  match rest with
  | [] => Err Undefined
  | b :: rest' =>
    let rpnexpr := writebyte rpnexpr (u8 b) in
    if u8 b =? 0 then Ok (S offset, rpnexpr)
    else copy_string rest' (S offset) rpnexpr
  end.

Definition tzSym_size : nat := 512.

(** One iteration of the [for] loop of [writerpn]: the [switch]. *)
Definition writerpn_body `{Linkdefs} (fe : FrontEnd) (st : State)
  (rpnexpr : list Z) (rpn : list Z) (offset : nat)
  : result (nat * list Z * State) :=
  '(rpndata, offset) ← popbyte rpn offset;
  if rpndata =? RPN_CONST then
    let rpnexpr := writebyte rpnexpr RPN_CONST in
    '(b, offset) ← popbyte rpn offset;
    let rpnexpr := writebyte rpnexpr b in
    '(b, offset) ← popbyte rpn offset;
    let rpnexpr := writebyte rpnexpr b in
    '(b, offset) ← popbyte rpn offset;
    let rpnexpr := writebyte rpnexpr b in
    '(b, offset) ← popbyte rpn offset;
    let rpnexpr := writebyte rpnexpr b in
    Ok (offset, rpnexpr, st)
  else if rpndata =? RPN_SYM then
    '(tzSym, offset) ← read_tzSym tzSym_size rpn offset;
    match sym_FindSymbol fe tzSym with
    | None => Err Undefined
    | Some sym =>
      '(rpnexpr, value, st) ←
        (if sym_IsConstant fe sym then
           Ok (writebyte rpnexpr RPN_CONST,
               u32 (sym_GetConstantValue fe tzSym), st)
         else
           let rpnexpr := writebyte rpnexpr RPN_SYM in
           '(value, st) ← getSymbolID fe st sym;
           Ok (rpnexpr, value, st));
      let rpnexpr := writebyte rpnexpr (Z.land value 255) in
      let rpnexpr := writebyte rpnexpr (Z.shiftr value 8) in
      let rpnexpr := writebyte rpnexpr (Z.shiftr value 16) in
      let rpnexpr := writebyte rpnexpr (Z.shiftr value 24) in
      Ok (offset, rpnexpr, st)
    end
  else if rpndata =? RPN_BANK_SYM then
    '(tzSym, offset) ← read_tzSym tzSym_size rpn offset;
    match sym_FindSymbol fe tzSym with
    | None => Err Undefined
    | Some sym =>
      '(value, st) ← getSymbolID fe st sym;
      let rpnexpr := writebyte rpnexpr RPN_BANK_SYM in
      let rpnexpr := writebyte rpnexpr (Z.land value 255) in
      let rpnexpr := writebyte rpnexpr (Z.shiftr value 8) in
      let rpnexpr := writebyte rpnexpr (Z.shiftr value 16) in
      let rpnexpr := writebyte rpnexpr (Z.shiftr value 24) in
      Ok (offset, rpnexpr, st)
    end
  else if rpndata =? RPN_BANK_SECT then
    let rpnexpr := writebyte rpnexpr RPN_BANK_SECT in
    '(offset, rpnexpr) ← copy_string (drop offset rpn) offset rpnexpr;
    Ok (offset, rpnexpr, st)
  else
    Ok (offset, writebyte rpnexpr rpndata, st).

(** The loop [for (size_t offset = 0; offset < rpnlen; )]; every iteration
    reads at least one byte. *)
Fixpoint writerpn_loop `{Linkdefs} (fuel : nat) (fe : FrontEnd) (st : State)
  (rpnexpr : list Z) (rpn : list Z) (rpnlen : Z) (offset : nat)
  : result (list Z * State) :=
  if Z.of_nat offset <? rpnlen then
    match fuel with
    | O => Err OutOfFuel
    | S fuel' =>
      '(offset, rpnexpr, st) ← writerpn_body fe st rpnexpr rpn offset;
      writerpn_loop fuel' fe st rpnexpr rpn rpnlen offset
    end
  else Ok (rpnexpr, st).

Definition writerpn `{Linkdefs} (fe : FrontEnd) (st : State)
  (rpnexpr : list Z) (rpn : list Z) (rpnlen : Z) : result (list Z * State) :=
  writerpn_loop (Z.to_nat rpnlen) fe st rpnexpr rpn rpnlen 0.

(** ** Patches and assertions *)

Definition allocpatch `{Linkdefs} (fe : FrontEnd) (st : State) (type : Z)
  (expr : Expression) (ofs : Z) : result (Patch * State) :=
  let '(patch_ok, st) := malloc st in
  let rpnSize := if isKnown expr then 5 else u32 (nRPNPatchSize expr) in
  let node := fstk_GetFileStack fe in
  if negb patch_ok then Err (Fatal NoMemoryForPatch)
  else
    let '(pRPN_ok, st) := malloc st in
    if negb pRPN_ok then Err (Fatal NoMemoryForRPN)
    else
      r ← out_RegisterNode (registry st) node;
      let st := set_registry st r in
      '(pRPN, st) ←
        (if isKnown expr then
           Ok ([u8 RPN_CONST;
                u8 (Z.land (u32 (nVal expr)) 255);
                u8 (Z.shiftr (u32 (nVal expr)) 8);
                u8 (Z.shiftr (u32 (nVal expr)) 16);
                u8 (Z.shiftr (u32 (nVal expr)) 24)], st)
         else writerpn fe st [] (tRPN expr) (u32 (nRPNLength expr)));
      let nRPNSize := if isKnown expr then rpnSize
                      else u32 (Z.of_nat (length pRPN)) in
      if rpnSize <? Z.of_nat (length pRPN) then Err Undefined
      else if negb (nRPNSize =? rpnSize) then Err AssertFailed
      else
        Ok (mkPatch node (u32 (lexer_GetLineNo fe)) (u32 ofs)
                    (sect_GetSymbolSection fe)
                    (u32 (sect_GetSymbolOffset fe)) (u8 type) nRPNSize pRPN,
            st).

Definition out_CreatePatch `{Linkdefs} (fe : FrontEnd) (st : State)
  (type : Z) (expr : Expression) (ofs : Z) : result State :=
  '(patch, st) ← allocpatch fe st type expr ofs;
  match pCurrentSection st with
  | None => Err Undefined
  | Some cur =>
    sect ← load (sections st) cur;
    Ok (set_sections st
          (<[cur := set_sect_patches sect (patch :: sect_patches sect)]>
             (sections st)))
  end.

Definition out_CreateAssert `{Linkdefs} (fe : FrontEnd) (st : State)
  (type : Z) (expr : Expression) (message : list Z) (ofs : Z)
  : result (bool * State) :=
  let '(assertion_ok, st) := malloc st in
  if negb assertion_ok then Ok (false, st)
  else
    '(patch, st) ← allocpatch fe st type expr ofs;
    let '(message_ok, st) := malloc st in
    if negb message_ok then Ok (false, st)
    else
      Ok (true,
          set_assertions st (mkAssertion patch message :: assertions st)).

(** ** Writing the object file *)

Definition registerExportedSymbol (st : State) (symbol : addr)
  : result State :=
  s ← load (symbols st) symbol;
  if sym_IsExported s && (sym_ID s =? NO_ID) then registerSymbol st symbol
  else Ok st.

(** [sym_ForEach(registerExportedSymbol, NULL)] *)
Fixpoint registerExportedSymbols (st : State) (syms : list addr)
  : result State :=
  match syms with
  | [] => Ok st
  | symbol :: rest =>
    st ← registerExportedSymbol st symbol;
    registerExportedSymbols st rest
  end.

(** The loop of [out_WriteObject] over the flat list of nodes. *)
Fixpoint writeFileStackNodes `{Linkdefs} (fuel : nat)
  (h : gmap positive FileStackNode) (node : option addr) : result (list Z) :=
  match node with
  | None => Ok []
  | Some a =>
    match fuel with
    | O => Err OutOfFuel
    | S fuel' =>
      n ← load h a;
      b ← writeFileStackNode h n;
      _ ← match node_next n with
          | Some nx =>
            nn ← load h nx;
            if negb (node_ID nn =? u32 (node_ID n - 1))
            then Err (Fatal FstackInternalError)
            else Ok ()
          | None => Ok ()
          end;
      bs ← writeFileStackNodes fuel' h (node_next n);
      Ok (b ++ bs)
    end
  end.

Definition writeFileStackNodeList `{Linkdefs} (r : Registry)
  : result (list Z) :=
  writeFileStackNodes (size (nodes r)) (nodes r) (fileStackNodes r).

Fixpoint writesymbols `{Linkdefs} (fe : FrontEnd) (st : State)
  (syms : list addr) : result (list Z) :=
  match syms with
  | [] => Ok []
  | sym :: rest =>
    b ← writesymbol fe st sym;
    bs ← writesymbols fe st rest;
    Ok (b ++ bs)
  end.

Fixpoint writesections `{Linkdefs} (st : State) (sects : list addr)
  : result (list Z) :=
  match sects with
  | [] => Ok []
  | a :: rest =>
    sect ← load (sections st) a;
    b ← writesection st sect;
    bs ← writesections st rest;
    Ok (b ++ bs)
  end.

Fixpoint writeasserts (st : State) (asserts : list Assertion)
  : result (list Z) :=
  match asserts with
  | [] => Ok []
  | a :: rest =>
    b ← writeassert st a;
    bs ← writeasserts st rest;
    Ok (b ++ bs)
  end.

(** [out_WriteObject]: the bytes of the object file and the state after the
    sweep over the exported symbols; [opened] tells whether the file could
    be opened. *)
Definition out_WriteObject `{Linkdefs} (fe : FrontEnd) (opened : bool)
  (st : State) : result (list Z * State) :=
  if negb opened then Err (Fatal CannotOpenFile)
  else
    st ← registerExportedSymbols st (sym_ForEach fe);
    nbNodes ← getNbFileStackNodes (registry st);
    nodes_bytes ← writeFileStackNodeList (registry st);
    symbols_bytes ← writesymbols fe st (objectSymbols st);
    sections_bytes ← writesections st (pSectionList st);
    asserts_bytes ← writeasserts st (assertions st);
    Ok (RGBDS_OBJECT_VERSION ++ fputlong RGBDS_OBJECT_REV
        ++ fputlong (nbSymbols st) ++ fputlong (countsections st)
        ++ fputlong nbNodes ++ nodes_bytes ++ symbols_bytes
        ++ sections_bytes ++ fputlong (countasserts st) ++ asserts_bytes,
        st).

(** ** Notions used in the statements *)

(** "Iters are stored by decreasing depth" ([writeFileStackNode]): the
    counter at index [i] of [iters] is the one of nesting level
    [reptDepth - i]; index 0 holds the innermost (deepest) level
    [reptDepth], index [reptDepth - 1] the outermost (shallowest) level 1. *)
Definition iter_level (reptDepth i : nat) : nat := reptDepth - i.

(** The counters of a REPT node in storage order, each with its level. *)
Definition stored_iters (reptDepth : nat) (iters : list Z) : list (nat * Z) :=
  imap (λ i x, (iter_level reptDepth i, x)) (take reptDepth iters).

(** Two neighbours of the flat list [l] whose IDs are not one apart: the
    second is not the first minus one (in 32-bit arithmetic, as the test of
    [out_WriteObject] computes it). *)
Definition not_contiguous (h : gmap positive FileStackNode)
  (l : list addr) : Prop :=
  ∃ (i : nat) a b na nb,
    l !! i = Some a ∧ l !! S i = Some b ∧
    h !! a = Some na ∧ h !! b = Some nb ∧
    node_ID nb ≠ u32 (node_ID na - 1).

(** Every node of [l] can be written: its parent, if any, is in the store
    and its payload is the one of its kind, with [reptDepth] counters. *)
Definition writable `{Linkdefs} (h : gmap positive FileStackNode)
  (l : list addr) : Prop :=
  Forall (λ a, ∃ n b, h !! a = Some n ∧ writeFileStackNode h n = Ok b) l.

(** The four bytes of a 32-bit value, least significant first, and the
    value that four such bytes stand for. *)
Definition le32 (v : Z) : list Z :=
  [v mod 256; (v / 256) mod 256; (v / 65536) mod 256; (v / 16777216) mod 256].

Definition le32_value (bs : list Z) : Z :=
  match bs with
  | [b0; b1; b2; b3] => b0 + 256 * b1 + 65536 * b2 + 16777216 * b3
  | _ => 0
  end.

(** A symbol name as it is embedded in an expression: non-zero bytes, and
    few enough to fit [tzSym] with the terminator. *)
Definition is_name (name : list Z) : Prop :=
  Forall (λ b, 0 < b < 256) name ∧ (length name < tzSym_size)%nat.

(** *** References by ID in an expression

    [rpn_instr] reads the instruction at [offset] of an expression that has
    not been rewritten yet: it gives the offset of the next instruction and,
    when rewriting turns the instruction into a reference by ID (a
    push-named-symbol of a symbol that is not a known constant, or a
    push-named-symbol's-bank), the symbol referred to, with the answer of
    [sym_IsPC] for it. *)
Definition rpn_instr `{Linkdefs} (fe : FrontEnd) (rpn : list Z)
  (offset : nat) : result (nat * option (addr * bool)) :=
  '(rpndata, offset) ← popbyte rpn offset;
  if rpndata =? RPN_CONST then
    '(_, offset) ← popbyte rpn offset;
    '(_, offset) ← popbyte rpn offset;
    '(_, offset) ← popbyte rpn offset;
    '(_, offset) ← popbyte rpn offset;
    Ok (offset, None)
  else if rpndata =? RPN_SYM then
    '(tzSym, offset) ← read_tzSym tzSym_size rpn offset;
    match sym_FindSymbol fe tzSym with
    | None => Err Undefined
    | Some sym =>
      Ok (offset, if sym_IsConstant fe sym then None
                  else Some (sym, sym_IsPC fe sym))
    end
  else if rpndata =? RPN_BANK_SYM then
    '(tzSym, offset) ← read_tzSym tzSym_size rpn offset;
    match sym_FindSymbol fe tzSym with
    | None => Err Undefined
    | Some sym => Ok (offset, Some (sym, sym_IsPC fe sym))
    end
  else if rpndata =? RPN_BANK_SECT then
    '(offset, _) ← copy_string (drop offset rpn) offset [];
    Ok (offset, None)
  else Ok (offset, None).

Fixpoint rpn_ID_refs_from `{Linkdefs} (fuel : nat) (fe : FrontEnd)
  (rpn : list Z) (rpnlen : Z) (offset : nat) : list (addr * bool) :=
  if Z.of_nat offset <? rpnlen then
    match fuel with
    | O => []
    | S fuel' =>
      match rpn_instr fe rpn offset with
      | Ok (offset, ref) =>
        option_list ref ++ rpn_ID_refs_from fuel' fe rpn rpnlen offset
      | Err _ => []
      end
    end
  else [].

(** The symbols that the patch built from [expr] refers to by ID. *)
Definition expression_refs `{Linkdefs} (fe : FrontEnd) (expr : Expression)
  : list (addr * bool) :=
  if isKnown expr then []
  else rpn_ID_refs_from (Z.to_nat (u32 (nRPNLength expr))) fe (tRPN expr)
                        (u32 (nRPNLength expr)) 0.

(** *** Runs of the module

    What the front end does between two calls: it may create symbols (and
    nodes, sections, ...) and change what it owns, but the IDs of the
    symbols, [objectSymbols] and [nbSymbols] are written by this file
    only, and a new symbol has no ID. *)
Record front_end_step (st st' : State) : Prop := {
  fe_objectSymbols : objectSymbols st' = objectSymbols st;
  fe_nbSymbols : nbSymbols st' = nbSymbols st;
  fe_kept : ∀ a s, symbols st !! a = Some s →
                   ∃ s', symbols st' !! a = Some s' ∧ sym_ID s' = sym_ID s;
  fe_new : ∀ a s', symbols st' !! a = Some s' → symbols st !! a = None →
                   sym_ID s' = NO_ID
}.

(** A step of a run, with the references by ID of the patch it builds:
    [out_CreatePatch], [out_CreateAssert] (which builds no patch when the
    assertion itself cannot be allocated), or the front end. *)
Inductive output_step `{Linkdefs}
  : State → list (addr * bool) → State → Prop :=
  | step_front_end st st' :
      front_end_step st st' → output_step st [] st'
  | step_patch fe st type expr ofs st' :
      out_CreatePatch fe st type expr ofs = Ok st' →
      output_step st (expression_refs fe expr) st'
  | step_assert fe st type expr message ofs ok st' :
      (malloc st).1 = true →
      out_CreateAssert fe st type expr message ofs = Ok (ok, st') →
      output_step st (expression_refs fe expr) st'
  | step_assert_no_memory fe st type expr message ofs ok st' :
      (malloc st).1 = false →
      out_CreateAssert fe st type expr message ofs = Ok (ok, st') →
      output_step st [] st'.

Inductive output_steps `{Linkdefs}
  : State → list (addr * bool) → State → Prop :=
  | steps_done st : output_steps st [] st
  | steps_next st1 refs1 st2 refs2 st3 :
      output_step st1 refs1 st2 → output_steps st2 refs2 st3 →
      output_steps st1 (refs1 ++ refs2) st3.

(** At the start no symbol has an ID and no symbol is registered. *)
Definition no_symbol_registered (st : State) : Prop :=
  objectSymbols st = [] ∧ map_Forall (λ _ s, sym_ID s = NO_ID) (symbols st).

(** The invariant of the allocator along a run whose references by ID so
    far are [refs]. *)
Record tracked (st : State) (refs : list (addr * bool)) : Prop := {
  tracked_NoDup : NoDup (objectSymbols st);
  tracked_ID : ∀ a s, symbols st !! a = Some s →
                      (sym_ID s ≠ NO_ID ↔ a ∈ objectSymbols st);
  tracked_dom : ∀ a, a ∈ objectSymbols st → is_Some (symbols st !! a);
  tracked_refs : ∀ a, a ∈ objectSymbols st ↔ (a, false) ∈ refs
}.

(** *** Sequences of patches

    A call of [out_CreatePatch] and what identifies the patch it builds. *)
Record PatchCall := mkPatchCall {
  call_fe : FrontEnd;
  call_type : Z;
  call_expr : Expression;
  call_ofs : Z
}.

Fixpoint out_CreatePatches `{Linkdefs} (st : State) (calls : list PatchCall)
  : result State :=
  match calls with
  | [] => Ok st
  | c :: rest =>
    st ← out_CreatePatch (call_fe c) st (call_type c) (call_expr c)
                         (call_ofs c);
    out_CreatePatches st rest
  end.

Definition built_by (c : PatchCall) (patch : Patch) : Prop :=
  patch_src patch = fstk_GetFileStack (call_fe c) ∧
  patch_lineNo patch = u32 (lexer_GetLineNo (call_fe c)) ∧
  patch_nOffset patch = u32 (call_ofs c) ∧
  patch_type patch = u8 (call_type c).

(** The part of the state that the registrations made while a patch is
    built leave alone. *)
Definition same_sections (st st' : State) : Prop :=
  sections st' = sections st ∧ pSectionList st' = pSectionList st ∧
  pCurrentSection st' = pCurrentSection st ∧ assertions st' = assertions st.

(** *** A small provenance tree

    A source file (1), a macro called from it (2) and a REPT block inside
    the macro (3), none of them registered. *)

Definition example_rept_node : FileStackNode :=
  mkNode (Some 2%positive) 7 None NO_ID 0 (ReptNode 2 [5; 1]).

Definition example_nodes : gmap positive FileStackNode :=
  <[3%positive := example_rept_node]>
  (<[2%positive := mkNode (Some 1%positive) 12 None NO_ID 2
                     (NamedNode [109; 97; 99])]>
  (<[1%positive := mkNode None 0 None NO_ID 1
                     (NamedNode [97; 46; 97; 115; 109])]> ∅)).

Definition example_registry : Registry := mkRegistry example_nodes None.

(** A flat list whose IDs are 5 and 3. *)
Definition broken_registry : Registry :=
  mkRegistry
    (<[2%positive := mkNode None 1 (Some 1%positive) 5 1 (NamedNode [98])]>
    (<[1%positive := mkNode None 1 None 3 1 (NamedNode [97])]> ∅))
    (Some 2%positive).

Definition registry_after (r : Registry) (regs : list addr) : Registry :=
  fold_left (λ r a, match out_RegisterNode r a with
                    | Ok r' => r'
                    | Err _ => r
                    end) regs r.

(** *** Values for the constants

    One-byte opcodes and small enumerations, to run the definitions on. *)

Definition example_linkdefs : Linkdefs := {|
  RPN_CONST := 128;
  RPN_SYM := 129;
  RPN_BANK_SYM := 80;
  RPN_BANK_SECT := 81;
  NODE_REPT := 0;
  SECTION_UNION := 1;
  SECTION_FRAGMENT := 2;
  SYMTYPE_LOCAL := 0;
  SYMTYPE_IMPORT := 1;
  SYMTYPE_EXPORT := 2;
  sect_HasData := λ t, (t =? 2) || (t =? 3);
  RGBDS_OBJECT_VERSION := [82; 71; 66; 57];
  RGBDS_OBJECT_REV := 6
|}.

(** *** A small module

    One ROM section (1) under the provenance tree above, and four symbols:
    the PC symbol [@] (1), a label [Lab] of a floating section (2), a
    constant [K] = 42 (3) and an exported label [Exp] that no expression
    mentions (4). *)

Definition example_symbols : gmap positive Symbol :=
  <[4%positive := mkSymbol [69; 120; 112] true 1%positive 9 16 NO_ID]>
  (<[3%positive := mkSymbol [75] false 1%positive 2 42 NO_ID]>
  (<[2%positive := mkSymbol [76; 97; 98] false 2%positive 3 8 NO_ID]>
  (<[1%positive := mkSymbol [64] false 1%positive 0 0 NO_ID]> ∅))).

Definition example_frontend : FrontEnd := {|
  fstk_GetFileStack := 3%positive;
  lexer_GetLineNo := 10;
  sect_GetSymbolSection := Some 1%positive;
  sect_GetSymbolOffset := 4;
  sym_FindSymbol := λ name,
    if decide (name = [64]) then Some 1%positive
    else if decide (name = [76; 97; 98]) then Some 2%positive
    else if decide (name = [75]) then Some 3%positive
    else if decide (name = [69; 120; 112]) then Some 4%positive
    else None;
  sym_IsConstant := λ a, Pos.eqb a 3;
  sym_GetConstantValue := λ name, if decide (name = [75]) then 42 else 0;
  sym_IsPC := λ a, Pos.eqb a 1;
  sym_IsDefined := λ _, true;
  sym_GetSection := λ a, if Pos.eqb a 3 then None else Some 1%positive;
  sym_ForEach := [1%positive; 2%positive; 3%positive; 4%positive]
|}.

Definition example_sections : gmap positive Sect :=
  <[1%positive := mkSect [99; 111; 100; 101] 3 0 4 NO_ID NO_ID 0 0
                         [0; 0; 0; 0] []]> ∅.

Definition example_state : State :=
  mkState example_registry example_symbols [] 0 example_sections
          [1%positive] (Some 1%positive) [] [].

(** The constant 42; [Lab]; [@]; the bank of [K]. *)
Definition known_42 : Expression := mkExpression true 42 [] 0 0.
Definition expr_Lab : Expression :=
  mkExpression false 0 [129; 76; 97; 98; 0] 5 5.
Definition expr_PC : Expression := mkExpression false 0 [129; 64; 0] 3 5.

Definition call_Lab : PatchCall := mkPatchCall example_frontend 1 expr_Lab 0.
Definition call_PC : PatchCall := mkPatchCall example_frontend 1 expr_PC 2.

Definition state_after `{Linkdefs} (st : State) (calls : list PatchCall)
  : State :=
  match out_CreatePatches st calls with
  | Ok st' => st'
  | Err _ => st
  end.

Definition after_sweep `{Linkdefs} (fe : FrontEnd) (st : State) : State :=
  match registerExportedSymbols st (sym_ForEach fe) with
  | Ok st' => st'
  | Err _ => st
  end.

(** ** Further notions *)

(** *** Bytes and strings

    The bytes that [fputc] writes, and the characters of a C string: the
    bytes other than the terminator. *)
Definition byte_list (bs : list Z) : Prop := Forall (λ b, 0 ≤ b < 256) bs.

Definition chars (s : list Z) : Prop := Forall (λ b, 0 < b < 256) s.

(** *** Nodes *)

(** Every parent pointer of the store points into the store. *)
Definition parents_closed (h : gmap positive FileStackNode) : Prop :=
  ∀ a n p, h !! a = Some n → node_parent n = Some p → is_Some (h !! p).

(** The node at [a] has an ID. *)
Definition registered (r : Registry) (a : addr) : Prop :=
  ∃ n, nodes r !! a = Some n ∧ node_ID n ≠ NO_ID.

(** What the front end wrote into a node: everything but [ID] and
    [next]. *)
Definition same_node (n n' : FileStackNode) : Prop :=
  node_parent n' = node_parent n ∧ node_lineNo n' = node_lineNo n ∧
  node_type n' = node_type n ∧ node_payload n' = node_payload n.

(** Registered nodes are kept as they are. *)
Definition nodes_kept (r r' : Registry) : Prop :=
  ∀ b nb, nodes r !! b = Some nb → node_ID nb ≠ NO_ID →
          nodes r' !! b = Some nb.

(** The payload of a node is the one of its kind, and a REPT node has the
    counters that its depth announces. *)
Definition payload_ok `{Linkdefs} (n : FileStackNode) : Prop :=
  match node_payload n with
  | NamedNode _ => node_type n ≠ NODE_REPT
  | ReptNode reptDepth iters =>
    node_type n = NODE_REPT ∧
    0 ≤ reptDepth ≤ Z.of_nat (length iters) ∧ reptDepth < 4294967296
  end.

(** *** Expressions as sequences of instructions

    The instructions that the [switch] of [writerpn] tells apart, with the
    bytes of each in an expression that has not been rewritten, and what
    the case of the [switch] writes for it. *)
Inductive Instr :=
  | IConst (b0 b1 b2 b3 : Z)
  | ISym (name : list Z)
  | IBankSym (name : list Z)
  | IBankSect (name : list Z)
  | IOther (op : Z).

Definition encode `{Linkdefs} (i : Instr) : list Z :=
  match i with
  | IConst b0 b1 b2 b3 => [RPN_CONST; b0; b1; b2; b3]
  | ISym name => RPN_SYM :: name ++ [0]
  | IBankSym name => RPN_BANK_SYM :: name ++ [0]
  | IBankSect name => RPN_BANK_SECT :: name ++ [0]
  | IOther op => [op]
  end.

Definition instr_ok `{Linkdefs} (i : Instr) : Prop :=
  match i with
  | IConst b0 b1 b2 b3 => byte_list [b0; b1; b2; b3]
  | ISym name | IBankSym name => is_name name
  | IBankSect name => chars name
  | IOther op =>
    0 ≤ op < 256 ∧
    op ≠ RPN_CONST ∧ op ≠ RPN_SYM ∧ op ≠ RPN_BANK_SYM ∧ op ≠ RPN_BANK_SECT
  end.

Definition names_symbol (i : Instr) : bool :=
  match i with
  | ISym _ | IBankSym _ => true
  | _ => false
  end.

(** The number of calls of [writebyte] in each case. *)
Definition rewritten_size (i : Instr) : nat :=
  match i with
  | IConst _ _ _ _ | ISym _ | IBankSym _ => 5
  | IBankSect name => length name + 2
  | IOther _ => 1
  end.

Definition rewrite_instr `{Linkdefs} (fe : FrontEnd) (st : State) (i : Instr)
  : result (list Z * State) :=
  match i with
  | IConst b0 b1 b2 b3 => Ok ([RPN_CONST; b0; b1; b2; b3], st)
  | ISym name =>
    match sym_FindSymbol fe name with
    | None => Err Undefined
    | Some sym =>
      if sym_IsConstant fe sym then
        Ok (RPN_CONST :: le32 (u32 (sym_GetConstantValue fe name)), st)
      else
        '(id, st) ← getSymbolID fe st sym; Ok (RPN_SYM :: le32 id, st)
    end
  | IBankSym name =>
    match sym_FindSymbol fe name with
    | None => Err Undefined
    | Some sym =>
      '(id, st) ← getSymbolID fe st sym; Ok (RPN_BANK_SYM :: le32 id, st)
    end
  | IBankSect name => Ok (RPN_BANK_SECT :: name ++ [0], st)
  | IOther op => Ok ([op], st)
  end.

Fixpoint rewrite_instrs `{Linkdefs} (fe : FrontEnd) (st : State)
  (instrs : list Instr) : result (list Z * State) :=
  match instrs with
  | [] => Ok ([], st)
  | i :: rest =>
    '(b, st) ← rewrite_instr fe st i;
    '(bs, st) ← rewrite_instrs fe st rest;
    Ok (b ++ bs, st)
  end.

(** *** Symbol IDs *)

(** The IDs of the object symbols are their positions in the list, whose
    length is [nbSymbols]. *)
Record numbered (st : State) : Prop := {
  numbered_count : nbSymbols st = Z.of_nat (length (objectSymbols st));
  numbered_bound : nbSymbols st ≤ NO_ID;
  numbered_ID : ∀ (i : nat) a, objectSymbols st !! i = Some a →
                  ∃ s, symbols st !! a = Some s ∧ sym_ID s = Z.of_nat i
}.

(** A symbol that has an ID in [st] has the same one in [st']. *)
Definition IDs_kept (st st' : State) : Prop :=
  ∀ a s, symbols st !! a = Some s → sym_ID s ≠ NO_ID →
         ∃ s', symbols st' !! a = Some s' ∧ sym_ID s' = sym_ID s.

(** *** The records of the object file *)

(** The nodes that the records of the object file name are registered: the
    source of every patch of a section or of an assertion, and of every
    object symbol. *)
Record sources_registered (st : State) : Prop := {
  src_patches : ∀ a sect patch,
    sections st !! a = Some sect → patch ∈ sect_patches sect →
    registered (registry st) (patch_src patch);
  src_asserts : ∀ assert,
    assert ∈ assertions st →
    registered (registry st) (patch_src (assert_patch assert));
  src_symbols : ∀ a s,
    a ∈ objectSymbols st → symbols st !! a = Some s →
    registered (registry st) (sym_src s)
}.

(** The ways in which the writers of the records fail once the sources of
    the records are registered: a section that is not in the list of
    sections, or a pointer or a size that is not valid. *)
Definition write_failure (e : failure) : Prop :=
  e = Fatal UnknownSection ∨ e = Undefined.

(** The byte of a section record that holds the type and the modifier:
    [type | isUnion << 7 | isFragment << 6]. *)
Definition section_type_byte `{Linkdefs} (sect : Sect) : Z :=
  let isUnion := if sect_modifier sect =? SECTION_UNION then 1 else 0 in
  let isFragment := if sect_modifier sect =? SECTION_FRAGMENT then 1 else 0 in
  u8 (Z.lor (Z.lor (sect_type sect) (Z.shiftl isUnion 7))
            (Z.shiftl isFragment 6)).



(** *** A patch in a section that is not listed *)

(** A patch built while PC is in a section (2) that the list of sections
    does not hold. *)
Definition frontend_elsewhere : FrontEnd :=
  mkFrontEnd 3%positive 10 (Some 2%positive) 4
             (sym_FindSymbol example_frontend)
             (sym_IsConstant example_frontend)
             (sym_GetConstantValue example_frontend)
             (sym_IsPC example_frontend) (sym_IsDefined example_frontend)
             (sym_GetSection example_frontend)
             (sym_ForEach example_frontend).

Definition call_elsewhere : PatchCall :=
  mkPatchCall frontend_elsewhere 0 known_42 0.
(* ================================================================== *)
(** * Properties *)

(** ** Generic facts *)

Lemma bind_Ok {A B : Type} (m : result A) (f : A → result B) (b : B) :
  (m ≫= f) = Ok b → ∃ a, m = Ok a ∧ f a = Ok b.
Proof. destruct m as [a|e]; [eauto | discriminate]. Qed.

Lemma bind_Ok_l {A B : Type} (a : A) (f : A → result B) : (Ok a ≫= f) = f a.
Proof. reflexivity. Qed.

Lemma bind_Err_l {A B : Type} (e : failure) (f : A → result B) :
  (Err e ≫= f) = Err e.
Proof. reflexivity. Qed.

Ltac step_bind := rewrite bind_Ok_l; cbv beta iota zeta.
Ltac step_bind_in H := rewrite bind_Ok_l in H; cbv beta iota zeta in H.

(** Case analysis on the first call of a sequence that succeeds. *)
Ltac bind_inv H :=
  match type of H with
  | (?m ≫= _) = Ok _ =>
    let e := fresh "e" in
    destruct m as [?|e] eqn:?;
    [step_bind_in H | rewrite bind_Err_l in H; discriminate H]
  end.

Lemma load_Ok {A : Type} (h : gmap positive A) (p : addr) (x : A) :
  load h p = Ok x ↔ h !! p = Some x.
Proof.
  unfold load. destruct (h !! p); split; intros H; congruence.
Qed.

Lemma countdown_length n : length (countdown n) = n.
Proof. induction n; simpl; congruence. Qed.

Lemma countdown_lookup n (i : nat) :
  (i < n)%nat → countdown n !! i = Some (Z.of_nat (n - 1 - i)).
Proof.
  revert i. induction n as [|n IH]; intros i Hi; [lia|].
  destruct i as [|i]; simpl.
  - f_equal. f_equal. lia.
  - rewrite IH by lia. f_equal. f_equal. lia.
Qed.

(** ** The provenance registry *)

Section registry.
Implicit Types (h : gmap positive FileStackNode) (r : Registry).
Implicit Types (l : list positive) (p : option positive).

Lemma chain_ok_lookup h p l a :
  chain_ok h p l → a ∈ l →
  ∃ n, h !! a = Some n ∧ 0 ≤ node_ID n < Z.of_nat (length l).
Proof.
  revert p. induction l as [|b l IH]; intros p Hc Ha.
  - by apply elem_of_nil in Ha.
  - destruct Hc as (-> & n & Hn & Hid & Hc).
    apply elem_of_cons in Ha as [->|Ha].
    + exists n. simpl. split; [done | lia].
    + destruct (IH _ Hc Ha) as (m & Hm & Hr).
      exists m. simpl. split; [done | lia].
Qed.

Lemma chain_ok_NoDup h p l : chain_ok h p l → NoDup l.
Proof.
  revert p. induction l as [|b l IH]; intros p Hc; [constructor|].
  destruct Hc as (-> & n & Hn & Hid & Hc).
  constructor; [|by eapply IH].
  intros Hb. destruct (chain_ok_lookup _ _ _ _ Hc Hb) as (m & Hm & Hr).
  rewrite Hn in Hm. injection Hm as <-. lia.
Qed.

Lemma chain_ok_insert h p l a n :
  chain_ok h p l → a ∉ l → chain_ok (<[a := n]> h) p l.
Proof.
  revert p. induction l as [|b l IH]; intros p Hc Ha; [done|].
  destruct Hc as (-> & m & Hm & Hid & Hc).
  apply not_elem_of_cons in Ha as [Hab Ha].
  split; [done|]. exists m. rewrite lookup_insert_ne by done. auto.
Qed.

Lemma chain_ok_IDs r l :
  chain_ok (nodes r) (fileStackNodes r) l →
  ID_of r <$> l = countdown (length l).
Proof.
  generalize (fileStackNodes r) as p.
  induction l as [|b l IH]; intros p Hc; [done|].
  destruct Hc as (-> & m & Hm & Hid & Hc). simpl.
  f_equal; [|by eapply IH]. unfold ID_of. by rewrite Hm.
Qed.

Lemma chain_ok_length h p l : chain_ok h p l → (length l ≤ size h)%nat.
Proof.
  intros Hc.
  assert (Hsub : l ⊆+ (map_to_list h).*1).
  { apply NoDup_submseteq; [by eapply chain_ok_NoDup|].
    intros a Ha. destruct (chain_ok_lookup _ _ _ _ Hc Ha) as (n & Hn & _).
    apply list_elem_of_fmap. exists (a, n). split; [done|].
    by apply elem_of_map_to_list. }
  apply submseteq_length in Hsub.
  by rewrite length_fmap, length_map_to_list in Hsub.
Qed.

Lemma chain_ok_flat_list_from h p l (fuel : nat) :
  chain_ok h p l → (length l ≤ fuel)%nat → flat_list_from fuel h p = Ok l.
Proof.
  revert p fuel. induction l as [|b l IH]; intros p fuel Hc Hf.
  - simpl in Hc. subst p. by destruct fuel.
  - destruct Hc as (-> & m & Hm & Hid & Hc). simpl in Hf.
    destruct fuel as [|fuel]; [lia|]. simpl.
    apply load_Ok in Hm. rewrite Hm. simpl.
    rewrite (IH _ fuel Hc) by lia. done.
Qed.

Lemma registry_inv_count r l :
  registry_inv r l → getNbFileStackNodes r = Ok (Z.of_nat (length l)).
Proof.
  intros [Hc _ Hb]. unfold getNbFileStackNodes.
  destruct l as [|b l]; simpl in Hc.
  - by rewrite Hc.
  - destruct Hc as (-> & m & Hm & Hid & Hc).
    apply load_Ok in Hm. rewrite Hm. simpl. f_equal.
    rewrite Hid. unfold u32. simpl length in Hb. unfold NO_ID in Hb.
    rewrite Z.mod_small by lia. lia.
Qed.

Lemma registry_inv_unregistered r l a n :
  registry_inv r l → nodes r !! a = Some n → node_ID n = NO_ID → a ∉ l.
Proof.
  intros [Hc _ Hb] Hn Hid Ha.
  destruct (chain_ok_lookup _ _ _ _ Hc Ha) as (m & Hm & Hr).
  rewrite Hn in Hm. injection Hm as <-. lia.
Qed.

(** One assignment of the walk keeps the invariant, for the list with
    the node in front. *)
Lemma register_one_inv r l a n r' :
  registry_inv r l → nodes r !! a = Some n → node_ID n = NO_ID →
  register_one r a = Ok r' → registry_inv r' (a :: l).
Proof.
  intros Hinv Ha Hid Hreg.
  unfold register_one in Hreg. apply load_Ok in Ha as Hl.
  rewrite Hl in Hreg. simpl in Hreg.
  rewrite (registry_inv_count _ _ Hinv) in Hreg. simpl in Hreg.
  destruct (Z.eqb_spec (Z.of_nat (length l)) NO_ID) as [|Hne];
    [discriminate|].
  injection Hreg as <-.
  pose proof (registry_inv_unregistered _ _ _ _ Hinv Ha Hid) as Hnotin.
  destruct Hinv as [Hc Hcomp Hb]. constructor; simpl.
  - split; [done|]. eexists. rewrite lookup_insert_eq. split; [done|].
    split; [done|]. simpl. by apply chain_ok_insert.
  - intros b m Hm Hmid. destruct (decide (a = b)) as [->|Hab].
    + apply elem_of_cons. by left.
    + rewrite lookup_insert_ne in Hm by done.
      apply elem_of_cons. right. eauto.
  - unfold NO_ID in *. lia.
Qed.

Lemma out_RegisterNode_loop_inv (fuel : nat) r l a r' :
  registry_inv r l → out_RegisterNode_loop fuel r a = Ok r' →
  ∃ l', registry_inv r' (l' ++ l).
Proof.
  revert r l a. induction fuel as [|fuel IH]; intros r l a Hinv Hrun;
    [discriminate|].
  simpl in Hrun. apply bind_Ok in Hrun as (n & Hl & Hrun).
  apply load_Ok in Hl as Hn.
  destruct (Z.eqb_spec (node_ID n) NO_ID) as [Hid|Hid].
  - apply bind_Ok in Hrun as (id & Hcount & Hrun).
    destruct (Z.eqb_spec id NO_ID) as [|Hne]; [discriminate|].
    assert (Hone : registry_inv
              (mkRegistry
                 (<[a := set_node_next (set_node_ID n id)
                                       (fileStackNodes r)]> (nodes r))
                 (Some a)) (a :: l)).
    { apply (register_one_inv r l a n); [done..|].
      unfold register_one. rewrite Hl. simpl. rewrite Hcount. simpl.
      by destruct (Z.eqb_spec id NO_ID). }
    destruct (node_parent n) as [q|].
    + destruct (IH _ _ _ Hone Hrun) as (l' & Hl').
      exists (l' ++ [a]). by rewrite <- app_assoc.
    + injection Hrun as <-. by exists [a].
  - injection Hrun as <-. by exists [].
Qed.

Lemma reachable_inv r : reachable r → ∃ l, registry_inv r l.
Proof.
  induction 1 as [r Hhead Hall | r a n _ [l IH] Hfresh Hid
                 | r a r' _ [l IH] Hreg].
  - exists []. constructor; simpl; [done | | unfold NO_ID; lia].
    intros a n Hn Hid. by specialize (Hall a n Hn).
  - exists l. destruct IH as [Hc Hcomp Hb]. constructor; simpl; [| |done].
    + apply chain_ok_insert; [done|]. intros Ha.
      destruct (chain_ok_lookup _ _ _ _ Hc Ha) as (m & Hm & _). congruence.
    + intros b m Hm Hmid. destruct (decide (a = b)) as [->|Hab].
      * rewrite lookup_insert_eq in Hm. congruence.
      * rewrite lookup_insert_ne in Hm by done. eauto.
  - destruct (out_RegisterNode_loop_inv _ _ _ _ _ IH Hreg) as (l' & Hl').
    eauto.
Qed.

Lemma registry_inv_ID_at r l (i : nat) a :
  registry_inv r l → l !! i = Some a →
  ID_of r a = Z.of_nat (length l - 1 - i).
Proof.
  intros [Hc _ _] Hi. apply chain_ok_IDs in Hc.
  assert (Hlt : (i < length l)%nat) by (by eapply lookup_lt_Some).
  pose proof (countdown_lookup (length l) i Hlt) as Hcd.
  rewrite <- Hc, list_lookup_fmap, Hi in Hcd. simpl in Hcd. congruence.
Qed.

(** Nodes that have an ID are left as they are by the walk. *)
Lemma out_RegisterNode_loop_frame (fuel : nat) r a r' b nb :
  out_RegisterNode_loop fuel r a = Ok r' →
  nodes r !! b = Some nb → node_ID nb ≠ NO_ID →
  nodes r' !! b = Some nb.
Proof.
  revert r a. induction fuel as [|fuel IH]; intros r a Hrun Hb Hid;
    [discriminate|].
  simpl in Hrun. apply bind_Ok in Hrun as (n & Hl & Hrun).
  apply load_Ok in Hl.
  destruct (Z.eqb_spec (node_ID n) NO_ID) as [Hn|Hn].
  - apply bind_Ok in Hrun as (id & Hcount & Hrun).
    destruct (Z.eqb_spec id NO_ID) as [|Hne]; [discriminate|].
    assert (Hab : a ≠ b) by (intros ->; congruence).
    destruct (node_parent n) as [q|].
    + eapply IH; [exact Hrun| |done]. simpl.
      by rewrite lookup_insert_ne.
    + injection Hrun as <-. simpl. by rewrite lookup_insert_ne.
  - by injection Hrun as <-.
Qed.

Lemma out_RegisterNode_loop_registered (fuel : nat) r a r' :
  out_RegisterNode_loop fuel r a = Ok r' →
  ∃ n', nodes r' !! a = Some n' ∧ node_ID n' ≠ NO_ID.
Proof.
  destruct fuel as [|fuel]; intros Hrun; [discriminate|].
  simpl in Hrun. apply bind_Ok in Hrun as (n & Hl & Hrun).
  apply load_Ok in Hl.
  destruct (Z.eqb_spec (node_ID n) NO_ID) as [Hn|Hn].
  - apply bind_Ok in Hrun as (id & Hcount & Hrun).
    destruct (Z.eqb_spec id NO_ID) as [|Hne]; [discriminate|].
    set (n' := set_node_next (set_node_ID n id) (fileStackNodes r)) in *.
    exists n'. split; [|done].
    destruct (node_parent n) as [q|].
    + eapply out_RegisterNode_loop_frame; [exact Hrun| |done].
      simpl. by rewrite lookup_insert_eq.
    + injection Hrun as <-. simpl. by rewrite lookup_insert_eq.
  - injection Hrun as <-. eauto.
Qed.

Lemma unregistered_path_from_insert (fuel : nat) h a n n' q path :
  unregistered_path_from fuel h q = Ok path → a ∉ path →
  h !! a = Some n → node_ID n = NO_ID →
  unregistered_path_from fuel (<[a := n']> h) q = Ok path.
Proof.
  intros Hpath Hnotin Ha Hid. revert q path Hpath Hnotin.
  induction fuel as [|fuel IH]; intros q path Hpath Hnotin; [done|].
  simpl in *. apply bind_Ok in Hpath as (m & Hl & Hpath).
  apply load_Ok in Hl.
  destruct (decide (a = q)) as [->|Haq].
  - rewrite Ha in Hl. injection Hl as <-.
    rewrite Hid in Hpath. simpl in Hpath.
    destruct (node_parent n) as [q'|].
    + apply bind_Ok in Hpath as (l' & _ & Hpath). injection Hpath as <-.
      exfalso. apply Hnotin. by left.
    + injection Hpath as <-. exfalso. apply Hnotin. by left.
  - unfold load at 1. rewrite lookup_insert_ne by done. rewrite Hl. simpl.
    destruct (node_ID m =? NO_ID); [|done].
    destruct (node_parent m) as [q'|]; [|done].
    apply bind_Ok in Hpath as (l' & Hrec & Hpath). injection Hpath as <-.
    apply not_elem_of_cons in Hnotin as [_ Hnotin].
    by rewrite (IH _ _ Hrec Hnotin).
Qed.

Lemma out_RegisterNode_loop_path (fuel : nat) r a path :
  unregistered_path_from fuel (nodes r) a = Ok path → NoDup path →
  out_RegisterNode_loop fuel r a = register_all r path.
Proof.
  revert r a path. induction fuel as [|fuel IH]; intros r a path Hpath Hnd;
    [done|].
  simpl in *. apply bind_Ok in Hpath as (n & Hl & Hpath).
  rewrite Hl. simpl. apply load_Ok in Hl as Hn.
  destruct (Z.eqb_spec (node_ID n) NO_ID) as [Hid|Hid].
  - assert (Hhd : ∃ rest, path = a :: rest ∧
              match node_parent n with
              | Some q => unregistered_path_from fuel (nodes r) q = Ok rest
              | None => rest = []
              end).
    { destruct (node_parent n) as [q|].
      - apply bind_Ok in Hpath as (l' & Hrec & Hpath).
        injection Hpath as <-. eauto.
      - injection Hpath as <-. eauto. }
    destruct Hhd as (rest & -> & Hrest). apply NoDup_cons in Hnd as [Ha Hnd].
    simpl. unfold register_one. rewrite Hl. simpl.
    destruct (getNbFileStackNodes r) as [id|e]; simpl; [|done].
    destruct (id =? NO_ID); [done|].
    destruct (node_parent n) as [q|].
    + apply IH; [|done]. simpl.
      by eapply unregistered_path_from_insert.
    + by subst rest.
  - by injection Hpath as <-.
Qed.
End registry.

(** C2. After any sequence of registrations (and creations of new,
    unregistered nodes in between) the traversal of the flat list from its
    head terminates with a duplicate-free list [l] whose IDs are
    [count-1, ..., 1, 0] in that order, each one less than the one before;
    the assigned IDs are exactly the integers of [[0, count)], each held by
    one node, and the nodes that hold one are those of the list; and
    [getNbFileStackNodes] returns [count], the head's ID plus one, or 0 for
    the empty list. *)
Theorem registry_contiguity (r : Registry) :
  reachable r →
  ∃ l : list positive,
    flat_list r = Ok l ∧ NoDup l ∧
    ID_of r <$> l = countdown (length l) ∧
    (∀ (i : nat) a b, l !! i = Some a → l !! S i = Some b →
                      ID_of r b = ID_of r a - 1) ∧
    (∀ a n, nodes r !! a = Some n → node_ID n ≠ NO_ID ↔ a ∈ l) ∧
    (∀ id, (∃ a n, nodes r !! a = Some n ∧ node_ID n = id ∧ id ≠ NO_ID)
           ↔ 0 ≤ id < Z.of_nat (length l)) ∧
    (∀ a b na nb, nodes r !! a = Some na → nodes r !! b = Some nb →
                  node_ID na ≠ NO_ID → node_ID na = node_ID nb → a = b) ∧
    getNbFileStackNodes r = Ok (Z.of_nat (length l)) ∧
    getNbFileStackNodes r = Ok (match fileStackNodes r with
                                | Some hd => ID_of r hd + 1
                                | None => 0
                                end).
Proof.
  intros Hreach. destruct (reachable_inv r Hreach) as [l Hinv].
  pose proof Hinv as [Hc Hcomp Hb].
  assert (Hmem : ∀ a n, nodes r !! a = Some n → node_ID n ≠ NO_ID ↔ a ∈ l).
  { intros a n Hn. split; [by eauto|]. intros Ha.
    destruct (chain_ok_lookup _ _ _ _ Hc Ha) as (m & Hm & Hr).
    rewrite Hn in Hm. injection Hm as <-. unfold NO_ID in *. lia. }
  assert (Hpos : ∀ a n, nodes r !! a = Some n → node_ID n ≠ NO_ID →
                        ∃ i : nat, l !! i = Some a ∧
                                   node_ID n = Z.of_nat (length l - 1 - i)).
  { intros a n Hn Hid. apply (Hmem a n Hn) in Hid.
    apply list_elem_of_lookup in Hid as [i Hi]. exists i. split; [done|].
    rewrite <- (registry_inv_ID_at r l i a Hinv Hi).
    unfold ID_of. by rewrite Hn. }
  exists l. split_and!.
  - apply chain_ok_flat_list_from; [done|]. by eapply chain_ok_length.
  - by eapply chain_ok_NoDup.
  - by apply chain_ok_IDs.
  - intros i a b Ha Hb'.
    rewrite (registry_inv_ID_at r l i a Hinv Ha).
    rewrite (registry_inv_ID_at r l (S i) b Hinv Hb').
    apply lookup_lt_Some in Hb'. lia.
  - done.
  - intros id. split.
    + intros (a & n & Hn & <- & Hid). apply (Hmem a n Hn) in Hid.
      destruct (chain_ok_lookup _ _ _ _ Hc Hid) as (m & Hm & Hr).
      rewrite Hn in Hm. by injection Hm as <-.
    + intros Hid.
      destruct (lookup_lt_is_Some_2 l (length l - 1 - Z.to_nat id))
        as [a Ha]; [lia|].
      pose proof (registry_inv_ID_at r l _ a Hinv Ha) as Hida.
      apply list_elem_of_lookup_2 in Ha.
      destruct (chain_ok_lookup _ _ _ _ Hc Ha) as (m & Hm & Hr).
      exists a, m. unfold ID_of in Hida. rewrite Hm in Hida.
      split; [done|]. unfold NO_ID in *. lia.
  - intros a b na nb Hna Hnb Hid Heq.
    destruct (Hpos a na Hna Hid) as (i & Hi & Hia).
    destruct (Hpos b nb Hnb) as (j & Hj & Hjb); [congruence|].
    apply lookup_lt_Some in Hi as Hil. apply lookup_lt_Some in Hj as Hjl.
    assert (i = j) by lia. subst j. congruence.
  - by apply registry_inv_count.
  - rewrite (registry_inv_count r l Hinv). f_equal.
    destruct l as [|a l']; simpl in Hc.
    + by rewrite Hc.
    + destruct Hc as (-> & m & Hm & Hid & _). unfold ID_of. rewrite Hm.
      simpl length. lia.
Qed.

Lemma example_registry_reachable :
  reachable (registry_after example_registry [2%positive; 3%positive]).
Proof.
  apply (reach_register (registry_after example_registry [2%positive])
           3%positive); [|by vm_compute].
  apply (reach_register example_registry 2%positive); [|by vm_compute].
  apply reach_init; [done|].
  apply (bool_decide_unpack _). by vm_compute.
Qed.

Lemma registry_contiguity_witness :
  ∃ l : list positive,
    flat_list (registry_after example_registry [2%positive; 3%positive])
      = Ok l ∧
    ID_of (registry_after example_registry [2%positive; 3%positive]) <$> l
      = [2; 1; 0].
Proof.
  destruct (registry_contiguity _ example_registry_reachable)
    as (l & Hl & _ & Hids & _).
  exists l. split; [done|]. rewrite Hids.
  vm_compute in Hl. injection Hl as <-. reflexivity.
Defined.

(** The nodes of the path of a walk are in the store and have no ID. *)
Lemma unregistered_path_from_elems (fuel : nat)
    (h : gmap positive FileStackNode) (a : positive) (path : list positive) :
  unregistered_path_from fuel h a = Ok path →
  Forall (λ b, ∃ n, h !! b = Some n ∧ node_ID n = NO_ID) path.
Proof.
  revert a path. induction fuel as [|fuel IH]; intros a path Hpath; [done|].
  simpl in Hpath. apply bind_Ok in Hpath as (n & Hl & Hpath).
  apply load_Ok in Hl.
  destruct (Z.eqb_spec (node_ID n) NO_ID) as [Hid|Hid];
    [|injection Hpath as <-; constructor].
  destruct (node_parent n) as [q|].
  - apply bind_Ok in Hpath as (l' & Hrec & Hpath). injection Hpath as <-.
    constructor; [by eauto|by eapply IH].
  - injection Hpath as <-. constructor; [by eauto|constructor].
Qed.

(** Registering the nodes of a path one after the other: each gets the
    number of nodes registered before it and goes in front of the list. *)
Lemma register_all_path (r : Registry) (l path : list positive) :
  registry_inv r l → NoDup path →
  Forall (λ b, ∃ n, nodes r !! b = Some n ∧ node_ID n = NO_ID) path →
  Z.of_nat (length l + length path) ≤ NO_ID →
  ∃ r', register_all r path = Ok r' ∧ registry_inv r' (reverse path ++ l).
Proof.
  revert r l. induction path as [|b path IH]; intros r l Hinv Hnd Hall Hlen.
  - exists r. by split.
  - apply NoDup_cons in Hnd as [Hb Hnd].
    apply Forall_cons in Hall as [(n & Hn & Hid) Hall]. simpl in Hlen.
    set (n' := set_node_next (set_node_ID n (Z.of_nat (length l)))
                             (fileStackNodes r)).
    set (r1 := mkRegistry (<[b := n']> (nodes r)) (Some b)).
    assert (Hone : register_one r b = Ok r1).
    { unfold register_one. apply load_Ok in Hn as Hl. rewrite Hl.
      cbn. rewrite (registry_inv_count r l Hinv). cbn.
      destruct (Z.eqb_spec (Z.of_nat (length l)) NO_ID) as [|_]; [lia|done]. }
    pose proof (register_one_inv r l b n r1 Hinv Hn Hid Hone) as Hinv1.
    destruct (IH r1 (b :: l) Hinv1 Hnd) as (r' & Hrun & Hinv').
    + apply Forall_forall. intros c Hc.
      destruct (proj1 (Forall_forall _ _) Hall c Hc) as (m & Hm & Hmid).
      exists m. split; [|done]. simpl.
      rewrite lookup_insert_ne; [done|]. by intros ->.
    + simpl length. lia.
    + exists r'. split.
      * cbn [register_all]. rewrite Hone. exact Hrun.
      * by rewrite reverse_cons, <- app_assoc.
Qed.

(** C3. Registration is idempotent: on a node that has an ID the registry is
    returned as it is, and a second registration of a node changes nothing.
    On a node without an ID whose parent has one, the node alone is changed:
    it gets the next ID, which is the number of nodes registered so far (the
    ID of the head plus one, or 0 for the empty list), and becomes the head
    of the flat list.  In general (parent links without a cycle) the walk
    registers, in order, the node and its ancestors up to the first one
    that has an ID or the root: the IDs in use before are those below the
    count, the nodes of the path get the count, the count plus one, and so
    on, each goes in front of the flat list, and the nodes registered before
    keep their IDs. *)
Theorem out_RegisterNode_walk (r : Registry) (a : positive) :
  (∀ n, nodes r !! a = Some n → node_ID n ≠ NO_ID →
        out_RegisterNode r a = Ok r) ∧
  (∀ r', out_RegisterNode r a = Ok r' → out_RegisterNode r' a = Ok r') ∧
  (∀ n p np id,
     nodes r !! a = Some n → node_ID n = NO_ID →
     node_parent n = Some p → nodes r !! p = Some np → node_ID np ≠ NO_ID →
     getNbFileStackNodes r = Ok id → id ≠ NO_ID →
     out_RegisterNode r a =
       Ok (mkRegistry
             (<[a := set_node_next (set_node_ID n id) (fileStackNodes r)]>
                (nodes r))
             (Some a))) ∧
  (∀ path, unregistered_path r a = Ok path → NoDup path →
           out_RegisterNode r a = register_all r path) ∧
  (∀ id, getNbFileStackNodes r = Ok id →
         id = match fileStackNodes r with
              | Some hd => u32 (ID_of r hd + 1)
              | None => 0
              end) ∧
  (reachable r →
   ∀ l : list positive, flat_list r = Ok l →
     getNbFileStackNodes r = Ok (Z.of_nat (length l)) ∧
     (∀ b n, nodes r !! b = Some n → node_ID n ≠ NO_ID →
             0 ≤ node_ID n < Z.of_nat (length l)) ∧
     (∀ n p np,
        nodes r !! a = Some n → node_ID n = NO_ID →
        node_parent n = Some p → nodes r !! p = Some np →
        node_ID np ≠ NO_ID → Z.of_nat (length l) < NO_ID →
        out_RegisterNode r a =
          Ok (mkRegistry
                (<[a := set_node_next (set_node_ID n (Z.of_nat (length l)))
                                      (fileStackNodes r)]> (nodes r))
                (Some a))) ∧
     (∀ path, unregistered_path r a = Ok path → NoDup path →
        Z.of_nat (length l + length path) ≤ NO_ID →
        ∃ r', out_RegisterNode r a = Ok r' ∧
              flat_list r' = Ok (reverse path ++ l) ∧
              getNbFileStackNodes r'
                = Ok (Z.of_nat (length l + length path)) ∧
              (∀ (i : nat) b, path !! i = Some b →
                 ID_of r b = NO_ID ∧ ID_of r' b = Z.of_nat (length l + i)) ∧
              (∀ b, b ∈ l → ID_of r' b = ID_of r b))).
Proof.
  assert (Hidem : ∀ r n, nodes r !! a = Some n → node_ID n ≠ NO_ID →
                         out_RegisterNode r a = Ok r).
  { intros r0 n Hn Hid. unfold out_RegisterNode. simpl.
    apply load_Ok in Hn. rewrite Hn. simpl.
    by destruct (Z.eqb_spec (node_ID n) NO_ID). }
  assert (Hone : ∀ n p np id,
     nodes r !! a = Some n → node_ID n = NO_ID →
     node_parent n = Some p → nodes r !! p = Some np → node_ID np ≠ NO_ID →
     getNbFileStackNodes r = Ok id → id ≠ NO_ID →
     out_RegisterNode r a =
       Ok (mkRegistry
             (<[a := set_node_next (set_node_ID n id) (fileStackNodes r)]>
                (nodes r))
             (Some a))).
  { intros n p np id Hn Hid Hp Hnp Hpid Hcount Hne.
    unfold out_RegisterNode. simpl.
    apply load_Ok in Hn as Hl. rewrite Hl. simpl.
    rewrite Hid. simpl. rewrite Hcount. simpl.
    destruct (Z.eqb_spec id NO_ID) as [|_]; [done|]. rewrite Hp.
    assert (Hsz : ∃ k, size (nodes r) = S k).
    { destruct (size (nodes r)) eqn:Hsize; [|eauto].
      apply map_size_empty_inv in Hsize. rewrite Hsize in Hn.
      by rewrite lookup_empty in Hn. }
    destruct Hsz as [k ->]. simpl.
    assert (Hap : a ≠ p) by (intros ->; congruence).
    unfold load. rewrite lookup_insert_ne by done. rewrite Hnp. simpl.
    by destruct (Z.eqb_spec (node_ID np) NO_ID). }
  split_and!.
  - apply Hidem.
  - intros r' Hrun.
    destruct (out_RegisterNode_loop_registered _ _ _ _ Hrun) as (n' & Hn' & Hid).
    by eapply Hidem.
  - exact Hone.
  - intros path Hpath Hnd. by apply out_RegisterNode_loop_path.
  - intros id Hcount. unfold getNbFileStackNodes in Hcount.
    destruct (fileStackNodes r) as [hd|]; [|by injection Hcount as <-].
    apply bind_Ok in Hcount as (nh & Hl & Hcount). apply load_Ok in Hl.
    injection Hcount as <-. unfold ID_of. by rewrite Hl.
  - intros Hreach l Hflat.
    destruct (reachable_inv r Hreach) as [l0 Hinv].
    pose proof Hinv as [Hc Hcomp Hb].
    assert (l = l0) as ->.
    { unfold flat_list in Hflat.
      rewrite (chain_ok_flat_list_from _ _ l0) in Hflat;
        [congruence|done|by eapply chain_ok_length]. }
    pose proof (registry_inv_count r l0 Hinv) as Hcount.
    split_and!.
    + done.
    + intros b n Hn Hid. apply (Hcomp b n Hn) in Hid.
      destruct (chain_ok_lookup _ _ _ _ Hc Hid) as (m & Hm & Hr).
      rewrite Hn in Hm. by injection Hm as <-.
    + intros n p np Hn Hid Hp Hnp Hpid Hlt.
      apply (Hone n p np); [done..|lia].
    + intros path Hpath Hnd Hlen.
      pose proof (unregistered_path_from_elems _ _ _ _ Hpath) as Hall.
      destruct (register_all_path r l0 path Hinv Hnd Hall Hlen)
        as (r' & Hrun & Hinv').
      pose proof Hinv' as [Hc' Hcomp' Hb'].
      exists r'. split_and!.
      * unfold out_RegisterNode.
        by rewrite (out_RegisterNode_loop_path _ _ _ path Hpath Hnd).
      * apply chain_ok_flat_list_from; [done|]. by eapply chain_ok_length.
      * rewrite (registry_inv_count r' _ Hinv'). f_equal.
        rewrite length_app, length_reverse. lia.
      * intros i b Hi. split.
        -- destruct (proj1 (Forall_forall _ _) Hall b) as (n & Hn & Hid);
             [by eapply list_elem_of_lookup_2|].
           unfold ID_of. by rewrite Hn.
        -- apply lookup_lt_Some in Hi as Hlt.
           rewrite (registry_inv_ID_at r' _ (length path - S i) b Hinv').
           ++ rewrite length_app, length_reverse. lia.
           ++ apply lookup_app_l_Some. rewrite reverse_lookup by lia.
              replace (length path - S (length path - S i))%nat with i by lia.
              done.
      * intros b Hbl.
        destruct (chain_ok_lookup _ _ _ _ Hc Hbl) as (nb & Hnb & Hr).
        assert (Hid : node_ID nb ≠ NO_ID) by (unfold NO_ID in *; lia).
        assert (Hkeep : nodes r' !! b = Some nb).
        { apply (out_RegisterNode_loop_frame (S (size (nodes r))) r a r');
            [|done|done].
          by rewrite (out_RegisterNode_loop_path _ _ _ path Hpath Hnd). }
        unfold ID_of. by rewrite Hkeep, Hnb.
Qed.

Lemma out_RegisterNode_walk_witness :
  out_RegisterNode (registry_after example_registry [2%positive]) 2%positive
    = Ok (registry_after example_registry [2%positive]) ∧
  out_RegisterNode (registry_after example_registry [2%positive]) 3%positive
    = Ok (registry_after example_registry [2%positive; 3%positive]) ∧
  out_RegisterNode (registry_after example_registry [2%positive]) 3%positive
    = Ok (mkRegistry
            (<[3%positive := set_node_next (set_node_ID example_rept_node 2)
                                           (Some 1%positive)]>
               (nodes (registry_after example_registry [2%positive])))
            (Some 3%positive)) ∧
  out_RegisterNode example_registry 3%positive
    = register_all example_registry [3%positive; 2%positive; 1%positive] ∧
  ∃ r', out_RegisterNode example_registry 3%positive = Ok r' ∧
        flat_list r' = Ok [1%positive; 2%positive; 3%positive] ∧
        ID_of r' <$> [3%positive; 2%positive; 1%positive] = [0; 1; 2].
Proof.
  assert (Hreach : reachable example_registry).
  { apply reach_init; [done|]. apply (bool_decide_unpack _). by vm_compute. }
  assert (Hreach2 : reachable (registry_after example_registry [2%positive])).
  { apply (reach_register example_registry 2%positive); [done|].
    by vm_compute. }
  split_and!.
  - eapply (proj1 (out_RegisterNode_walk _ 2%positive));
      [by vm_compute | by vm_compute].
  - etrans.
    + eapply (proj1 (proj2 (proj2 (out_RegisterNode_walk _ 3%positive))));
        by vm_compute.
    + by vm_compute.
  - destruct (out_RegisterNode_walk
                (registry_after example_registry [2%positive]) 3%positive)
      as (_ & _ & _ & _ & _ & Hwalk).
    destruct (Hwalk Hreach2 [1%positive; 2%positive])
      as (_ & _ & Hone & _); [by vm_compute|].
    apply (Hone example_rept_node 2%positive
             (mkNode (Some 1%positive) 12 None 0 2 (NamedNode [109; 97; 99])));
      try by vm_compute.
  - apply (proj1 (proj2 (proj2 (proj2 (out_RegisterNode_walk _ 3%positive))))).
    + by vm_compute.
    + apply (bool_decide_unpack _). by vm_compute.
  - destruct (out_RegisterNode_walk example_registry 3%positive)
      as (_ & _ & _ & _ & _ & Hwalk).
    destruct (Hwalk Hreach [] eq_refl) as (_ & _ & _ & Hpath).
    destruct (Hpath [3%positive; 2%positive; 1%positive])
      as (r' & Hrun & Hflat & _ & Hids & _).
    + by vm_compute.
    + apply (bool_decide_unpack _). by vm_compute.
    + by vm_compute.
    + exists r'. split_and!; [done|done|]. cbn [fmap list_fmap].
      destruct (Hids 0%nat 3%positive eq_refl) as [_ ->].
      destruct (Hids 1%nat 2%positive eq_refl) as [_ ->].
      destruct (Hids 2%nat 1%positive eq_refl) as [_ ->].
      reflexivity.
Defined.

(** ** Byte encoders *)

Arguments u8 : simpl never.
Arguments u32 : simpl never.
Arguments fputc : simpl never.
Arguments fputlong : simpl never.
Arguments fputstring : simpl never.

Lemma fputlong_length i : length (fputlong i) = 4%nat.
Proof. reflexivity. Qed.

Lemma concat_fputlong_length (l : list Z) :
  length (concat (fputlong <$> l)) = (4 * length l)%nat.
Proof.
  induction l as [|x l IH]; [done|].
  rewrite fmap_cons. cbn [concat]. rewrite length_app, IH, fputlong_length.
  simpl. lia.
Qed.

Lemma write_iters_reverse (i : nat) (iters : list Z) :
  (i ≤ length iters)%nat →
  write_iters i iters = Ok (concat (fputlong <$> reverse (take i iters))).
Proof.
  induction i as [|i IH]; intros Hi; [done|].
  destruct (lookup_lt_is_Some_2 iters i) as [x Hx]; [lia|].
  cbn [write_iters]. rewrite Hx, IH by lia. simpl.
  by rewrite (take_S_r _ _ _ Hx), reverse_snoc.
Qed.

Lemma stored_iters_snd (d : nat) (iters : list Z) :
  (stored_iters d iters).*2 = take d iters.
Proof.
  unfold stored_iters. generalize (take d iters) as l.
  generalize (iter_level d) as f. intros f l. revert f.
  induction l as [|x l IH]; intros f; [done|].
  rewrite imap_cons. simpl. f_equal.
  apply (IH (f ∘ S)).
Qed.

Lemma stored_iters_fst (d : nat) (iters : list Z) :
  (d ≤ length iters)%nat →
  reverse (stored_iters d iters).*1 = seq 1 d.
Proof.
  intros Hd. unfold stored_iters.
  assert (Hlen : length (take d iters) = d) by (by apply length_take_le).
  revert Hlen. generalize (take d iters) as l. intros l Hlen.
  apply list_eq. intros i.
  destruct (decide (i < d)%nat) as [Hi|Hi].
  - rewrite reverse_lookup by (by rewrite length_fmap, length_imap, Hlen).
    rewrite length_fmap, length_imap, Hlen.
    rewrite list_lookup_fmap, list_lookup_imap.
    destruct (lookup_lt_is_Some_2 l (d - S i)) as [x Hx]; [lia|].
    rewrite Hx, lookup_seq_lt by done. simpl. unfold iter_level.
    f_equal. lia.
  - rewrite lookup_seq_ge by lia. apply lookup_ge_None_2.
    rewrite length_reverse, length_fmap, length_imap. lia.
Qed.

(** ** Provenance records *)

Section node_records.
Context {ld : Linkdefs}.
Implicit Types (h : gmap positive FileStackNode).

(** C9 (amended). The record of a REPEAT node is the parent's ID (all
    ones without a parent), the line number, the kind tag, the nesting
    depth and then exactly [reptDepth] counters of four bytes in the
    reverse of their storage order.  The counters are stored by
    decreasing depth, so they are written from the shallowest level (1)
    to the deepest ([reptDepth]). *)
Theorem writeFileStackNode_rept h (node : FileStackNode)
    (reptDepth : Z) (iters : list Z) :
  node_type node = NODE_REPT →
  node_payload node = ReptNode reptDepth iters →
  0 ≤ reptDepth ≤ Z.of_nat (length iters) →
  reptDepth < 4294967296 →
  (∀ p, node_parent node = Some p → is_Some (h !! p)) →
  let parentID := match node_parent node with
                  | Some p => match h !! p with
                              | Some pn => node_ID pn
                              | None => NO_ID
                              end
                  | None => NO_ID
                  end in
  let written := reverse (stored_iters (Z.to_nat reptDepth) iters) in
  writeFileStackNode h node =
    Ok (fputlong parentID ++ fputlong (node_lineNo node)
        ++ fputc (node_type node) ++ fputlong reptDepth
        ++ concat (fputlong <$> written.*2)) ∧
  written.*2 = reverse (take (Z.to_nat reptDepth) iters) ∧
  written.*1 = seq 1 (Z.to_nat reptDepth) ∧
  length (concat (fputlong <$> written.*2)) = (4 * Z.to_nat reptDepth)%nat.
Proof.
  intros Hty Hpay Hrange Hu32 Hparent parentID written.
  assert (Hsnd : written.*2 = reverse (take (Z.to_nat reptDepth) iters)).
  { unfold written. by rewrite fmap_reverse, stored_iters_snd. }
  split_and!.
  - unfold writeFileStackNode.
    assert (Hp : match node_parent node with
                 | Some p => pn ← load h p; Ok (node_ID pn)
                 | None => Ok NO_ID
                 end = Ok parentID).
    { unfold parentID. destruct (node_parent node) as [p|]; [|done].
      destruct (Hparent p eq_refl) as [pn Hpn].
      apply load_Ok in Hpn as Hl. by rewrite Hl, Hpn. }
    rewrite Hp. simpl. rewrite Hty, Z.eqb_refl, Hpay. simpl.
    replace (Z.to_nat (u32 reptDepth)) with (Z.to_nat reptDepth)
      by (unfold u32; rewrite Z.mod_small; lia).
    rewrite write_iters_reverse by lia. simpl.
    rewrite Hsnd. by rewrite <- ?app_assoc.
  - done.
  - unfold written. rewrite fmap_reverse. apply stored_iters_fst. lia.
  - rewrite concat_fputlong_length, Hsnd, length_reverse.
    rewrite length_take_le by lia. done.
Qed.

Lemma write_iters_error (k : nat) (iters : list Z) e :
  write_iters k iters = Err e → e = Undefined.
Proof.
  induction k as [|k IH]; simpl; [done|].
  destruct (iters !! k); [|congruence].
  destruct (write_iters k iters); simpl; [done|]. intros [= <-]. eauto.
Qed.

Lemma writeFileStackNode_error h (node : FileStackNode) e :
  writeFileStackNode h node = Err e → e = Undefined.
Proof.
  unfold writeFileStackNode. intros Hw.
  destruct (match node_parent node with
            | Some p => pn ← load h p; Ok (node_ID pn)
            | None => Ok NO_ID
            end) as [pid|e'] eqn:Hp; simpl in Hw.
  - destruct (node_type node =? NODE_REPT), (node_payload node) as [|d it];
      simpl in Hw; try congruence.
    destruct (write_iters (Z.to_nat (u32 d)) it) eqn:Hwi; simpl in Hw;
      [done|].
    injection Hw as <-. by eapply write_iters_error.
  - injection Hw as <-. destruct (node_parent node) as [p|]; [|done].
    unfold load in Hp. by destruct (h !! p); simpl in Hp; [|congruence].
Qed.

Lemma flat_list_from_Some (fuel : nat) h a (l : list positive) :
  flat_list_from fuel h (Some a) = Ok l →
  ∃ fuel' n l', fuel = S fuel' ∧ h !! a = Some n ∧
                flat_list_from fuel' h (node_next n) = Ok l' ∧ l = a :: l'.
Proof.
  destruct fuel as [|fuel]; [done|]. simpl. intros Hf.
  apply bind_Ok in Hf as (n & Hn & Hf). apply load_Ok in Hn.
  apply bind_Ok in Hf as (l' & Hl' & Hf). injection Hf as <-.
  by exists fuel, n, l'.
Qed.

Lemma flat_list_from_None (fuel : nat) h (l : list positive) :
  flat_list_from fuel h None = Ok l → l = [].
Proof. destruct fuel; simpl; congruence. Qed.

Lemma not_contiguous_cons h a b (l : list positive) na nb :
  h !! a = Some na → h !! b = Some nb →
  node_ID nb = u32 (node_ID na - 1) →
  not_contiguous h (a :: b :: l) ↔ not_contiguous h (b :: l).
Proof.
  intros Ha Hb Hid. split.
  - intros (i & x & y & nx & ny & Hx & Hy & Hnx & Hny & Hne).
    destruct i as [|i]; simpl in Hx, Hy.
    + injection Hx as <-. injection Hy as <-. congruence.
    + by exists i, x, y, nx, ny.
  - intros (i & x & y & nx & ny & Hx & Hy & Hnx & Hny & Hne).
    by exists (S i), x, y, nx, ny.
Qed.

Lemma writeFileStackNodes_S (fuel : nat) h (a : positive) :
  writeFileStackNodes (S fuel) h (Some a) =
    (n ← load h a;
     b ← writeFileStackNode h n;
     _ ← match node_next n with
         | Some nx =>
           nn ← load h nx;
           if negb (node_ID nn =? u32 (node_ID n - 1))
           then Err (Fatal FstackInternalError)
           else Ok ()
         | None => Ok ()
         end;
     bs ← writeFileStackNodes fuel h (node_next n);
     Ok (b ++ bs)).
Proof. reflexivity. Qed.

Lemma writeFileStackNodes_check (fuel : nat) h p (l : list positive) :
  flat_list_from fuel h p = Ok l → writable h l →
  (not_contiguous h l ↔
   writeFileStackNodes fuel h p = Err (Fatal FstackInternalError)) ∧
  (¬ not_contiguous h l → ∃ bs, writeFileStackNodes fuel h p = Ok bs).
Proof.
  assert (Hnil : ∀ a : positive, ¬ not_contiguous h [a]).
  { intros a (i & x & y & nx & ny & Hx & Hy & _).
    destruct i; simpl in Hy; [done|]. by destruct i. }
  assert (Hnil' : ¬ not_contiguous h []).
  { intros (i & x & y & nx & ny & Hx & _). by destruct i. }
  revert p l. induction fuel as [|fuel IH]; intros p l Hflat Hwr.
  - destruct p as [a|]; [done|]. injection Hflat as <-. simpl.
    split; [split; [done|done]|]. intros _. by exists [].
  - destruct p as [a|].
    2:{ injection Hflat as <-. simpl.
        split; [split; [done|done]|]. intros _. by exists []. }
    apply flat_list_from_Some in Hflat
      as (fuel' & n & l' & [= <-] & Hn & Hflat & ->).
    apply Forall_cons in Hwr as [(n' & b & Hn' & Hb) Hwr].
    rewrite Hn in Hn'. injection Hn' as <-.
    rewrite writeFileStackNodes_S. apply load_Ok in Hn as Hl.
    rewrite Hl, bind_Ok_l, Hb, bind_Ok_l.
    destruct (IH _ _ Hflat Hwr) as [IHbad IHgood].
    destruct (node_next n) as [nx|] eqn:Hnext.
    + pose proof Hflat as Hflat'.
      apply flat_list_from_Some in Hflat'
        as (fuel'' & nn & l'' & -> & Hnn & _ & ->).
      apply load_Ok in Hnn as Hlnn. rewrite Hlnn, bind_Ok_l.
      destruct (Z.eqb_spec (node_ID nn) (u32 (node_ID n - 1))) as [Heq|Hne];
        cbn [negb].
      * pose proof (not_contiguous_cons h a nx l'' n nn Hn Hnn Heq) as Hiff.
        rewrite bind_Ok_l. split; [split|].
        -- intros Hbad. apply Hiff, IHbad in Hbad. by rewrite Hbad.
        -- intros Hfatal. apply Hiff, IHbad.
           destruct (writeFileStackNodes (S fuel'') h (Some nx)); [done|].
           simpl in Hfatal. congruence.
        -- intros Hgood. destruct IHgood as [bs Hbs]; [by rewrite <- Hiff|].
           rewrite Hbs, bind_Ok_l. eauto.
      * assert (Hbad : not_contiguous h (a :: nx :: l''))
          by (by exists 0%nat, a, nx, n, nn).
        split; [done|]. intros Hgood. by destruct Hgood.
    + apply flat_list_from_None in Hflat as ->. rewrite bind_Ok_l.
      assert (Hrec : writeFileStackNodes fuel h None = Ok [])
        by (by destruct fuel).
      rewrite Hrec, bind_Ok_l.
      split; [split; [intros Hbad; by apply Hnil in Hbad|done]|]. eauto.
Qed.
Lemma writeFileStackNodes_chain_ok (fuel : nat) h p (l : list positive) e :
  chain_ok h p l → (length l ≤ fuel)%nat → Z.of_nat (length l) ≤ NO_ID →
  writeFileStackNodes fuel h p = Err e → e = Undefined.
Proof.
  revert p fuel. induction l as [|a l IH]; intros p fuel Hc Hf Hb Hw.
  - simpl in Hc. subst p. by destruct fuel.
  - destruct Hc as (-> & n & Hn & Hid & Hc). simpl in Hf, Hb.
    destruct fuel as [|fuel]; [lia|]. rewrite writeFileStackNodes_S in Hw.
    apply load_Ok in Hn as Hl. rewrite Hl, bind_Ok_l in Hw.
    destruct (writeFileStackNode h n) as [b|e'] eqn:Hb'.
    2:{ injection Hw as <-. by eapply writeFileStackNode_error. }
    rewrite bind_Ok_l in Hw.
    assert (Hcheck : match node_next n with
              | Some nx =>
                  nn ← load h nx;
                  if negb (node_ID nn =? u32 (node_ID n - 1))
                  then Err (Fatal FstackInternalError) else Ok ()
              | None => Ok ()
              end = Ok ()).
    { destruct l as [|a' l']; simpl in Hc; [by rewrite Hc|].
      destruct Hc as (-> & nn & Hnn & Hidn & _).
      apply load_Ok in Hnn. rewrite Hnn, bind_Ok_l.
      rewrite Hid, Hidn. cbn [length] in *. unfold u32, NO_ID in *.
      rewrite Z.mod_small by lia.
      replace (Z.of_nat (S (length l')) - 1) with (Z.of_nat (length l'))
        by lia.
      by rewrite Z.eqb_refl. }
    rewrite Hcheck, bind_Ok_l in Hw.
    destruct (writeFileStackNodes fuel h (node_next n)) as [bs|e'] eqn:Hrec;
      [done|].
    injection Hw as <-. eapply (IH _ fuel); [done|lia|lia|done].
Qed.

(** C7. While the provenance table is written, and every record can be
    written, the fatal internal error is raised if and only if two
    neighbours of the flat list have IDs that are not one apart (the
    second is not the first minus one), and the table is written
    otherwise.  After any sequence of registrations no fatal error is
    raised there, and the table is written when its records can be. *)
Theorem fstack_contiguity_check (r : Registry) :
  (∀ l, flat_list r = Ok l → writable (nodes r) l →
        (writeFileStackNodeList r = Err (Fatal FstackInternalError)
         ↔ not_contiguous (nodes r) l) ∧
        (¬ not_contiguous (nodes r) l →
         ∃ bs, writeFileStackNodeList r = Ok bs)) ∧
  (reachable r →
   (∀ f, writeFileStackNodeList r ≠ Err (Fatal f)) ∧
   (∀ l, flat_list r = Ok l → writable (nodes r) l →
         ¬ not_contiguous (nodes r) l ∧
         ∃ bs, writeFileStackNodeList r = Ok bs)).
Proof.
  assert (Hcheck : ∀ l, flat_list r = Ok l → writable (nodes r) l →
        (writeFileStackNodeList r = Err (Fatal FstackInternalError)
         ↔ not_contiguous (nodes r) l) ∧
        (¬ not_contiguous (nodes r) l →
         ∃ bs, writeFileStackNodeList r = Ok bs)).
  { intros l Hflat Hwr.
    destruct (writeFileStackNodes_check _ _ _ _ Hflat Hwr) as [Hbad Hgood].
    split; [by symmetry | done]. }
  split; [done|].
  intros Hreach. destruct (reachable_inv r Hreach) as [l Hinv].
  pose proof Hinv as [Hc Hcomp Hb].
  split.
  - intros f Hf.
    apply (writeFileStackNodes_chain_ok _ _ _ l) in Hf;
      [done|done| |done].
    by eapply chain_ok_length.
  - intros l' Hflat Hwr.
    assert (l' = l) as ->.
    { unfold flat_list in Hflat.
      rewrite (chain_ok_flat_list_from _ _ l) in Hflat;
        [congruence|done|by eapply chain_ok_length]. }
    assert (Hnc : ¬ not_contiguous (nodes r) l).
    { intros (i & a & b & na & nb & Ha & Hb' & Hna & Hnb & Hne).
      pose proof (registry_inv_ID_at r l i a Hinv Ha) as Hia.
      pose proof (registry_inv_ID_at r l (S i) b Hinv Hb') as Hib.
      unfold ID_of in Hia, Hib. rewrite Hna in Hia. rewrite Hnb in Hib.
      apply lookup_lt_Some in Hb'. apply Hne. rewrite Hia, Hib.
      unfold u32, NO_ID in *. rewrite Z.mod_small by lia. lia. }
    split; [done|]. by apply (Hcheck l).
Qed.
End node_records.


Ltac solve_writable :=
  repeat (apply Forall_cons_2;
          [eexists _, _; split; [by vm_compute | by vm_compute]|]);
  apply Forall_nil_2.

Lemma writeFileStackNode_rept_witness :
  writeFileStackNode (H := example_linkdefs)
      (nodes (registry_after example_registry [3%positive]))
      example_rept_node
    = Ok ([1; 0; 0; 0] ++ [7; 0; 0; 0] ++ [0] ++ [2; 0; 0; 0]
          ++ [1; 0; 0; 0] ++ [5; 0; 0; 0]).
Proof.
  destruct (writeFileStackNode_rept (ld := example_linkdefs)
              (nodes (registry_after example_registry [3%positive]))
              example_rept_node 2 [5; 1]) as (Hw & _).
  - reflexivity.
  - reflexivity.
  - simpl. lia.
  - lia.
  - intros p [= <-]. eexists. by vm_compute.
  - rewrite Hw. by vm_compute.
Defined.

(** C9, as stated, fails on a REPT block nested in another: the counters
    5 (level 2, the inner block) and 1 (level 1, the outer block) are stored
    deepest first and written as 1, 5: shallowest first, not from the
    deepest to the shallowest. *)
Lemma writeFileStackNode_rept_not_deepest_first :
  stored_iters 2 [5; 1] = [(2%nat, 5); (1%nat, 1)] ∧
  writeFileStackNode (H := example_linkdefs)
      (nodes (registry_after example_registry [3%positive]))
      example_rept_node
    = Ok (fputlong 1 ++ fputlong 7 ++ fputc 0 ++ fputlong 2
          ++ concat (fputlong <$> [1; 5])) ∧
  writeFileStackNode (H := example_linkdefs)
      (nodes (registry_after example_registry [3%positive]))
      example_rept_node
    ≠ Ok (fputlong 1 ++ fputlong 7 ++ fputc 0 ++ fputlong 2
          ++ concat (fputlong <$> (stored_iters 2 [5; 1]).*2)).
Proof. split_and!; by vm_compute. Qed.

Lemma fstack_contiguity_check_witness :
  writeFileStackNodeList (H := example_linkdefs) broken_registry
    = Err (Fatal FstackInternalError) ∧
  ∃ bs, writeFileStackNodeList (H := example_linkdefs)
          (registry_after example_registry [2%positive; 3%positive]) = Ok bs.
Proof.
  split.
  - apply (proj1 (fstack_contiguity_check (ld := example_linkdefs)
                    broken_registry) [2%positive; 1%positive]).
    + by vm_compute.
    + solve_writable.
    + eexists 0%nat, 2%positive, 1%positive, _, _.
      split_and!; [by vm_compute..|]. by vm_compute.
  - apply (proj2 (proj2 (fstack_contiguity_check (ld := example_linkdefs) _)
                    example_registry_reachable)
             [3%positive; 1%positive; 2%positive]).
    + by vm_compute.
    + solve_writable.
Defined.

(** ** Little-endian encodings *)

Lemma le32_value_le32 v : 0 ≤ v < 4294967296 → le32_value (le32 v) = v.
Proof. intros Hv. unfold le32, le32_value. Z.div_mod_to_equations. lia. Qed.

Lemma le32_bytes v : Forall (λ b, 0 ≤ b < 256) (le32 v).
Proof. unfold le32. repeat constructor; Z.div_mod_to_equations; lia. Qed.

Lemma shiftr_8_byte v : u8 (Z.shiftr v 8) = (v / 256) mod 256.
Proof. unfold u8. by rewrite Z.shiftr_div_pow2 by lia. Qed.

Lemma shiftr_16_byte v : u8 (Z.shiftr v 16) = (v / 65536) mod 256.
Proof. unfold u8. by rewrite Z.shiftr_div_pow2 by lia. Qed.

Lemma shiftr_24_byte v : u8 (Z.shiftr v 24) = (v / 16777216) mod 256.
Proof. unfold u8. by rewrite Z.shiftr_div_pow2 by lia. Qed.

Lemma land_255_byte v : u8 (Z.land v 255) = v mod 256.
Proof.
  unfold u8. change 255 with (Z.ones 8). rewrite Z.land_ones by lia.
  change (2 ^ 8) with 256. by rewrite Z.mod_mod by lia.
Qed.

Lemma fputlong_le32 v : fputlong v = le32 (u32 v).
Proof.
  unfold fputlong, fputc, le32. simpl.
  rewrite shiftr_8_byte, shiftr_16_byte, shiftr_24_byte. done.
Qed.

Lemma writebyte_le32 (rpnexpr : list Z) v :
  writebyte
    (writebyte
       (writebyte (writebyte rpnexpr (Z.land v 255)) (Z.shiftr v 8))
       (Z.shiftr v 16))
    (Z.shiftr v 24) = rpnexpr ++ le32 v.
Proof.
  unfold writebyte, le32.
  rewrite land_255_byte, shiftr_8_byte, shiftr_16_byte, shiftr_24_byte.
  by rewrite <- !app_assoc.
Qed.

(** ** The symbol ID allocator *)

Lemma registerSymbol_Ok (st st' : State) (a : positive) :
  registerSymbol st a = Ok st' →
  ∃ s r, symbols st !! a = Some s ∧
         out_RegisterNode (registry st) (sym_src s) = Ok r ∧
         nbSymbols st ≠ NO_ID ∧
         st' = set_nbSymbols
                 (set_symbols
                    (set_registry
                       (set_objectSymbols st (objectSymbols st ++ [a])) r)
                    (<[a := set_sym_ID s (nbSymbols st)]> (symbols st)))
                 (u32 (nbSymbols st + 1)).
Proof.
  unfold registerSymbol. intros Hreg.
  apply bind_Ok in Hreg as (s & Hs & Hreg). apply load_Ok in Hs.
  apply bind_Ok in Hreg as (r & Hr & Hreg). simpl in Hr, Hreg.
  destruct (Z.eqb_spec (nbSymbols st) NO_ID) as [|Hnb]; [done|].
  injection Hreg as <-. by exists s, r.
Qed.

Lemma getSymbolID_known (fe : FrontEnd) (st : State) (a : positive) s :
  symbols st !! a = Some s → sym_ID s ≠ NO_ID →
  getSymbolID fe st a = Ok (sym_ID s, st).
Proof.
  intros Hs Hid. unfold getSymbolID. apply load_Ok in Hs. rewrite Hs. simpl.
  destruct (Z.eqb_spec (sym_ID s) NO_ID); [done|]. simpl. by rewrite Hs.
Qed.

Lemma getSymbolID_PC (fe : FrontEnd) (st : State) (a : positive) s :
  symbols st !! a = Some s → sym_IsPC fe a = true →
  getSymbolID fe st a = Ok (sym_ID s, st).
Proof.
  intros Hs Hpc. unfold getSymbolID. apply load_Ok in Hs. rewrite Hs. simpl.
  rewrite Hpc, andb_false_r. simpl. by rewrite Hs.
Qed.

Lemma getSymbolID_fresh (fe : FrontEnd) (st : State) (a : positive) s :
  symbols st !! a = Some s → sym_ID s = NO_ID → sym_IsPC fe a = false →
  getSymbolID fe st a = (st' ← registerSymbol st a; Ok (nbSymbols st, st')).
Proof.
  intros Hs Hid Hpc. unfold getSymbolID. apply load_Ok in Hs as Hl.
  rewrite Hl. simpl. rewrite Hid, Hpc. simpl.
  destruct (registerSymbol st a) as [st'|e] eqn:Hreg; [|done]. simpl.
  apply registerSymbol_Ok in Hreg as (s' & r & Hs' & _ & _ & ->).
  unfold load. simpl. by rewrite lookup_insert_eq.
Qed.

(** ** The expression rewriter *)

Section rewriter.
Context {ld : Linkdefs}.
Implicit Types (fe : FrontEnd) (st : State) (rpn name : list Z).

Lemma rpn_opcodes_bytes :
  rpn_opcodes_ok →
  u8 RPN_CONST = RPN_CONST ∧ u8 RPN_SYM = RPN_SYM ∧
  u8 RPN_BANK_SYM = RPN_BANK_SYM ∧ u8 RPN_BANK_SECT = RPN_BANK_SECT.
Proof.
  intros [Hr _]. unfold u8.
  repeat (apply Forall_cons in Hr as [? Hr]).
  by rewrite !Z.mod_small by lia.
Qed.

Lemma rpn_opcodes_distinct :
  rpn_opcodes_ok →
  RPN_SYM ≠ RPN_CONST ∧ RPN_BANK_SYM ≠ RPN_CONST ∧ RPN_BANK_SYM ≠ RPN_SYM ∧
  RPN_BANK_SECT ≠ RPN_CONST ∧ RPN_BANK_SECT ≠ RPN_SYM ∧
  RPN_BANK_SECT ≠ RPN_BANK_SYM.
Proof.
  intros [_ Hd].
  apply NoDup_cons in Hd as [H1 Hd]. apply NoDup_cons in Hd as [H2 Hd].
  apply NoDup_cons in Hd as [H3 _].
  apply not_elem_of_cons in H1 as [? H1]. apply not_elem_of_cons in H1 as [? H1].
  apply not_elem_of_cons in H1 as [? _].
  apply not_elem_of_cons in H2 as [? H2]. apply not_elem_of_cons in H2 as [? _].
  apply not_elem_of_cons in H3 as [? _].
  split_and!; congruence.
Qed.

Lemma popbyte_middle (pre : list Z) b (post : list Z) :
  popbyte (pre ++ b :: post) (length pre) = Ok (u8 b, S (length pre)).
Proof. unfold popbyte. by rewrite list_lookup_middle. Qed.

Lemma read_tzSym_name (room : nat) (pre : list Z) name (post : list Z) :
  Forall (λ b, 0 < b < 256) name → (length name < room)%nat →
  read_tzSym room (pre ++ name ++ 0 :: post) (length pre)
    = Ok (name, (length pre + length name + 1)%nat).
Proof.
  intros Hname. revert room pre.
  induction Hname as [|b name Hb _ IH]; intros room pre Hroom;
    (destruct room as [|room]; [simpl in Hroom; lia|]); simpl.
  - rewrite popbyte_middle. simpl. do 2 f_equal. lia.
  - rewrite popbyte_middle. simpl. unfold u8.
    rewrite Z.mod_small by lia.
    destruct (Z.eqb_spec b 0) as [|_]; [lia|].
    replace (pre ++ b :: name ++ 0 :: post)
      with ((pre ++ [b]) ++ name ++ 0 :: post) by (by rewrite <- app_assoc).
    replace (S (length pre)) with (length (pre ++ [b]))
      by (rewrite length_app; simpl; lia).
    rewrite IH by (simpl in Hroom; lia). simpl.
    rewrite length_app. simpl. do 2 f_equal. lia.
Qed.

(** The name that follows an opcode at the end of [pre]. *)
Lemma read_tzSym_operand (pre : list Z) op name (post : list Z) :
  is_name name →
  read_tzSym tzSym_size (pre ++ op :: name ++ 0 :: post) (S (length pre))
    = Ok (name, (length pre + length name + 2)%nat).
Proof.
  intros [Hbytes Hlen].
  replace (pre ++ op :: name ++ 0 :: post)
    with ((pre ++ [op]) ++ name ++ 0 :: post) by (by rewrite <- app_assoc).
  replace (S (length pre)) with (length (pre ++ [op]))
    by (rewrite length_app; simpl; lia).
  rewrite read_tzSym_name by done. rewrite length_app. simpl.
  do 2 f_equal. lia.
Qed.

End rewriter.

(** ** Which symbols get an ID *)

Lemma tracked_same (st st' : State) (refs : list (positive * bool)) :
  symbols st' = symbols st → objectSymbols st' = objectSymbols st →
  tracked st refs → tracked st' refs.
Proof.
  intros Hs Ho [H1 H2 H3 H4].
  constructor; rewrite ?Hs, ?Ho; done.
Qed.

Lemma malloc_same (st st' : State) (ok : bool) :
  malloc st = (ok, st') →
  symbols st' = symbols st ∧ objectSymbols st' = objectSymbols st ∧
  registry st' = registry st ∧ assertions st' = assertions st ∧
  sections st' = sections st ∧ pCurrentSection st' = pCurrentSection st.
Proof.
  unfold malloc. destruct (mallocs st); intros [= <- <-]; done.
Qed.

Lemma registerSymbol_tracked (st st' : State) (a : positive) s
    (refs : list (positive * bool)) :
  tracked st refs → symbols st !! a = Some s → sym_ID s = NO_ID →
  registerSymbol st a = Ok st' →
  tracked st' (refs ++ [(a, false)]) ∧
  objectSymbols st' = objectSymbols st ++ [a] ∧
  ∀ b, b ≠ a → symbols st' !! b = symbols st !! b.
Proof.
  intros [Hnd Hid Hdom Hrefs] Hs Hno Hreg.
  apply registerSymbol_Ok in Hreg as (s' & r & Hs' & _ & Hnb & ->).
  rewrite Hs in Hs'. injection Hs' as <-.
  assert (Ha : a ∉ objectSymbols st).
  { intros Ha. apply (Hid a s Hs) in Ha. done. }
  split_and!; [constructor|..]; simpl.
  - apply NoDup_app. split_and!; [done| |apply NoDup_singleton].
    intros b Hb ->%list_elem_of_singleton. done.
  - intros b sb Hb. rewrite elem_of_app, list_elem_of_singleton.
    destruct (decide (b = a)) as [->|Hne].
    + rewrite lookup_insert_eq in Hb. injection Hb as <-. simpl.
      split; [by right | done].
    + rewrite lookup_insert_ne in Hb by done. rewrite (Hid b sb Hb).
      split; [by left | by intros [|]].
  - intros b. rewrite elem_of_app, list_elem_of_singleton.
    intros [Hb| ->].
    + rewrite lookup_insert_ne by (by intros ->). by apply Hdom.
    + rewrite lookup_insert_eq. eauto.
  - intros b. rewrite !elem_of_app, !list_elem_of_singleton, Hrefs.
    split; intros [|Hb]; auto; [by subst; right | right; congruence].
  - done.
  - intros b Hne. by rewrite lookup_insert_ne.
Qed.

Lemma getSymbolID_Ok (fe : FrontEnd) (st st' : State) (a : positive) id :
  getSymbolID fe st a = Ok (id, st') →
  ∃ s, symbols st !! a = Some s ∧
       ((sym_ID s = NO_ID ∧ sym_IsPC fe a = false ∧
         registerSymbol st a = Ok st') ∨
        ((sym_ID s ≠ NO_ID ∨ sym_IsPC fe a = true) ∧ st' = st)).
Proof.
  unfold getSymbolID. intros Hget.
  apply bind_Ok in Hget as (s & Hs & Hget). apply load_Ok in Hs.
  exists s. split; [done|].
  apply bind_Ok in Hget as (st1 & Hst1 & Hget).
  apply bind_Ok in Hget as (s1 & Hs1 & Hget). injection Hget as <- <-.
  destruct (Z.eqb_spec (sym_ID s) NO_ID) as [Hid|Hid];
    destruct (sym_IsPC fe a) eqn:Hpc; simpl in Hst1.
  - right. injection Hst1 as <-. auto.
  - left. auto.
  - right. injection Hst1 as <-. auto.
  - right. injection Hst1 as <-. auto.
Qed.

Lemma getSymbolID_tracked (fe : FrontEnd) (st st' : State) (a : positive) id
    (refs : list (positive * bool)) :
  tracked st refs → getSymbolID fe st a = Ok (id, st') →
  tracked st' (refs ++ [(a, sym_IsPC fe a)]).
Proof.
  intros Htr Hget.
  apply getSymbolID_Ok in Hget as (s & Hs & [(Hid & Hpc & Hreg)|[Hcase ->]]).
  - rewrite Hpc. by eapply registerSymbol_tracked.
  - destruct Htr as [Hnd Hid Hdom Hrefs]. constructor; try done.
    intros b. rewrite elem_of_app, list_elem_of_singleton, Hrefs.
    split; [auto|]. intros [Hb|Hb]; [done|]. injection Hb as -> Hpc.
    destruct Hcase as [Hcase|Hcase]; [|congruence].
    apply Hrefs. by apply (Hid a s Hs).
Qed.

Section refs.
Context {ld : Linkdefs}.
Implicit Types (fe : FrontEnd) (st : State) (rpn : list Z).

Lemma copy_string_offset (rest : list Z) (o : nat) (out1 out2 : list Z)
    (o' : nat) (out' : list Z) :
  copy_string rest o out1 = Ok (o', out') →
  ∃ out'', copy_string rest o out2 = Ok (o', out'').
Proof.
  revert o out1 out2. induction rest as [|b rest IH]; intros o out1 out2 Hc;
    [done|]. simpl in *.
  destruct (u8 b =? 0); [injection Hc as <- <-; eauto|]. eauto.
Qed.

Lemma writerpn_body_instr fe st (rpnexpr : list Z) rpn (offset : nat)
    (offset' : nat) (rpnexpr' : list Z) st' :
  writerpn_body fe st rpnexpr rpn offset = Ok (offset', rpnexpr', st') →
  match rpn_instr fe rpn offset with
  | Ok (o, Some (a, pc)) =>
    o = offset' ∧ pc = sym_IsPC fe a ∧
    ∃ id, getSymbolID fe st a = Ok (id, st')
  | Ok (o, None) => o = offset' ∧ st' = st
  | Err _ => False
  end.
Proof.
  unfold writerpn_body, rpn_instr. intros Hbody.
  bind_inv Hbody. destruct a as [rpndata o1]. step_bind.
  destruct (rpndata =? RPN_CONST).
  { bind_inv Hbody. destruct a as [b1 o2]. step_bind.
    bind_inv Hbody. destruct a as [b2 o3]. step_bind.
    bind_inv Hbody. destruct a as [b3 o4]. step_bind.
    bind_inv Hbody. destruct a as [b4 o5]. step_bind.
    by injection Hbody as <- <- <-. }
  destruct (rpndata =? RPN_SYM).
  { bind_inv Hbody. destruct a as [tzSym o2]. step_bind.
    destruct (sym_FindSymbol fe tzSym) as [sym|]; [|done].
    destruct (sym_IsConstant fe sym).
    - step_bind_in Hbody. by injection Hbody as <- <- <-.
    - bind_inv Hbody. destruct a as [[out1 value] st1].
      injection Hbody as <- <- <-.
      bind_inv Heqr1. destruct a as [id st2]. injection Heqr1 as <- <- <-.
      eauto. }
  destruct (rpndata =? RPN_BANK_SYM).
  { bind_inv Hbody. destruct a as [tzSym o2]. step_bind.
    destruct (sym_FindSymbol fe tzSym) as [sym|]; [|done].
    bind_inv Hbody. destruct a as [id st2]. injection Hbody as <- <- <-.
    eauto. }
  destruct (rpndata =? RPN_BANK_SECT).
  { bind_inv Hbody. destruct a as [o2 out2]. injection Hbody as <- <- <-.
    destruct (copy_string_offset _ _ _ [] _ _ Heqr0) as [out'' Hout''].
    rewrite Hout''. by step_bind. }
  by injection Hbody as <- <- <-.
Qed.

Lemma writerpn_loop_tracked (fuel : nat) fe st (rpnexpr : list Z) rpn
    (rpnlen : Z) (offset : nat) (rpnexpr' : list Z) st'
    (refs : list (positive * bool)) :
  tracked st refs →
  writerpn_loop fuel fe st rpnexpr rpn rpnlen offset = Ok (rpnexpr', st') →
  tracked st' (refs ++ rpn_ID_refs_from fuel fe rpn rpnlen offset).
Proof.
  revert st rpnexpr offset refs.
  induction fuel as [|fuel IH]; intros st rpnexpr offset refs Htr Hloop;
    simpl in *; destruct (Z.of_nat offset <? rpnlen);
    try discriminate; try (injection Hloop as <- <-; by rewrite app_nil_r).
  bind_inv Hloop. destruct a as [[o1 out1] st1].
  apply writerpn_body_instr in Heqr.
  destruct (rpn_instr fe rpn offset) as [[o ref]|]; [|done].
  destruct ref as [[a pc]|]; simpl.
  - destruct Heqr as (-> & -> & id & Hget).
    rewrite cons_middle, app_assoc. eapply IH; [|done].
    by eapply getSymbolID_tracked.
  - destruct Heqr as [-> ->]. by eapply IH.
Qed.
End refs.

Section runs.
Context {ld : Linkdefs}.
Implicit Types (fe : FrontEnd) (st : State) (refs : list (positive * bool)).

Lemma allocpatch_Ok fe st (type : Z) (expr : Expression) (ofs : Z)
    (patch : Patch) st' :
  allocpatch fe st type expr ofs = Ok (patch, st') →
  ∃ st1 st2 r pRPN,
    malloc st = (true, st1) ∧ malloc st1 = (true, st2) ∧
    out_RegisterNode (registry st2) (fstk_GetFileStack fe) = Ok r ∧
    (if isKnown expr then
       pRPN = [u8 RPN_CONST;
               u8 (Z.land (u32 (nVal expr)) 255);
               u8 (Z.shiftr (u32 (nVal expr)) 8);
               u8 (Z.shiftr (u32 (nVal expr)) 16);
               u8 (Z.shiftr (u32 (nVal expr)) 24)] ∧
       st' = set_registry st2 r
     else writerpn fe (set_registry st2 r) [] (tRPN expr)
                   (u32 (nRPNLength expr)) = Ok (pRPN, st')) ∧
    patch_pRPN patch = pRPN ∧
    patch_nRPNSize patch = (if isKnown expr then 5
                            else u32 (nRPNPatchSize expr)) ∧
    patch_nRPNSize patch = u32 (Z.of_nat (length pRPN)) ∧
    patch_src patch = fstk_GetFileStack fe ∧
    patch_lineNo patch = u32 (lexer_GetLineNo fe) ∧
    patch_nOffset patch = u32 ofs ∧
    patch_type patch = u8 type.
Proof.
  unfold allocpatch. intros Halloc.
  destruct (malloc st) as [[] st1] eqn:Hm1; [|done]. cbn [negb] in Halloc.
  destruct (malloc st1) as [[] st2] eqn:Hm2; [|done]. cbn [negb] in Halloc.
  bind_inv Halloc. rename a into r.
  bind_inv Halloc. destruct a as [pRPN st3].
  destruct (_ <? _); [done|]. destruct (negb _) eqn:Hneg; [done|].
  injection Halloc as <- <-. apply negb_false_iff, Z.eqb_eq in Hneg.
  exists st1, st2, r, pRPN.
  cbn [patch_pRPN patch_nRPNSize patch_src patch_lineNo patch_nOffset
       patch_type].
  split_and!; try done.
  - destruct (isKnown expr); [by injection Heqr0 as <- <-|done].
  - destruct (isKnown expr); [|done]. by injection Heqr0 as <- <-.
Qed.

Lemma allocpatch_tracked fe st (type : Z) (expr : Expression) (ofs : Z)
    (patch : Patch) st' refs :
  tracked st refs → allocpatch fe st type expr ofs = Ok (patch, st') →
  tracked st' (refs ++ expression_refs fe expr).
Proof.
  intros Htr Halloc.
  apply allocpatch_Ok in Halloc
    as (st1 & st2 & r & pRPN & Hm1 & Hm2 & Hr & Hrpn & _).
  apply malloc_same in Hm1 as (Hs1 & Ho1 & _).
  apply malloc_same in Hm2 as (Hs2 & Ho2 & _).
  assert (Htr2 : tracked (set_registry st2 r) refs).
  { eapply tracked_same; [| |exact Htr]; simpl; congruence. }
  unfold expression_refs. destruct (isKnown expr).
  - destruct Hrpn as [_ ->]. by rewrite app_nil_r.
  - by eapply writerpn_loop_tracked.
Qed.

Lemma front_end_step_tracked st st' refs :
  tracked st refs → front_end_step st st' → tracked st' refs.
Proof.
  intros [Hnd Hid Hdom Hrefs] [Ho Hn Hkept Hnew].
  constructor; rewrite ?Ho; try done.
  - intros a s' Hs'. destruct (symbols st !! a) as [s|] eqn:Hs.
    + destruct (Hkept a s Hs) as (s'' & Hs'' & Heq).
      rewrite Hs' in Hs''. injection Hs'' as <-. rewrite Heq. by apply Hid.
    + rewrite (Hnew a s' Hs' Hs). split; [done|].
      intros Ha. apply Hdom in Ha as [s Hs'']. congruence.
  - intros a Ha. apply Hdom in Ha as [s Hs].
    destruct (Hkept a s Hs) as (s' & Hs' & _). eauto.
Qed.

Lemma output_step_tracked st refs1 st' refs :
  tracked st refs → output_step st refs1 st' → tracked st' (refs ++ refs1).
Proof.
  intros Htr Hstep.
  destruct Hstep as [st st' Hfe | fe st type expr ofs st' Hp
                    | fe st type expr msg ofs ok st' Hm Ha
                    | fe st type expr msg ofs ok st' Hm Ha].
  - rewrite app_nil_r. by eapply front_end_step_tracked.
  - unfold out_CreatePatch in Hp. bind_inv Hp. destruct a as [patch st1].
    destruct (pCurrentSection st1) as [cur|]; [|done].
    bind_inv Hp. injection Hp as <-.
    eapply tracked_same; [..|by eapply allocpatch_tracked]; done.
  - unfold out_CreateAssert in Ha.
    destruct (malloc st) as [ok1 st1] eqn:Hm1. simpl in Hm. subst ok1.
    cbn [negb] in Ha. bind_inv Ha. destruct a as [patch st2].
    apply malloc_same in Hm1 as (Hs1 & Ho1 & _).
    assert (Htr2 : tracked st2 (refs ++ expression_refs fe expr)).
    { eapply allocpatch_tracked; [|done]. by eapply tracked_same. }
    destruct (malloc st2) as [ok2 st3] eqn:Hm2.
    apply malloc_same in Hm2 as (Hs2 & Ho2 & _).
    destruct ok2; injection Ha as <- <-;
      (eapply tracked_same; [..|exact Htr2]; done).
  - unfold out_CreateAssert in Ha.
    destruct (malloc st) as [ok1 st1] eqn:Hm1. simpl in Hm. subst ok1.
    cbn [negb] in Ha. injection Ha as <- <-.
    apply malloc_same in Hm1 as (Hs1 & Ho1 & _).
    rewrite app_nil_r. by eapply tracked_same.
Qed.

Lemma output_steps_tracked st refs1 st' refs :
  tracked st refs → output_steps st refs1 st' → tracked st' (refs ++ refs1).
Proof.
  intros Htr Hsteps. revert refs Htr.
  induction Hsteps as [st | st1 l1 st2 l2 st3 Hstep _ IH]; intros refs Htr.
  - by rewrite app_nil_r.
  - rewrite app_assoc. apply IH. by eapply output_step_tracked.
Qed.

Lemma no_symbol_registered_tracked st :
  no_symbol_registered st → tracked st [].
Proof.
  intros [Ho Hall]. constructor; rewrite Ho.
  - constructor.
  - intros a s Hs. rewrite (Hall a s Hs). split; [done|].
    by intros ?%elem_of_nil.
  - by intros a ?%elem_of_nil.
  - intros a. split; by intros ?%elem_of_nil.
Qed.

Lemma registerExportedSymbol_Ok st (a : positive) st' :
  registerExportedSymbol st a = Ok st' →
  ∃ s, symbols st !! a = Some s ∧
       ((sym_isExported s = true ∧ sym_ID s = NO_ID ∧
         registerSymbol st a = Ok st') ∨
        ((sym_isExported s = false ∨ sym_ID s ≠ NO_ID) ∧ st' = st)).
Proof.
  unfold registerExportedSymbol, sym_IsExported. intros Hreg.
  bind_inv Hreg. rename a0 into s. apply load_Ok in Heqr.
  exists s. split; [done|].
  destruct (sym_isExported s); [|right; by injection Hreg as <-; auto].
  destruct (Z.eqb_spec (sym_ID s) NO_ID); simpl in Hreg; [by left|].
  right. injection Hreg as <-; auto.
Qed.

Lemma registerSymbol_symbols st (a : positive) st' (b : positive) s' :
  registerSymbol st a = Ok st' → symbols st' !! b = Some s' →
  ∃ s, symbols st !! b = Some s ∧ sym_isExported s' = sym_isExported s ∧
       (b ≠ a → s' = s).
Proof.
  intros Hreg Hs'.
  apply registerSymbol_Ok in Hreg as (s & r & Hs & _ & _ & ->).
  simpl in Hs'. destruct (decide (b = a)) as [->|Hne].
  - rewrite lookup_insert_eq in Hs'. injection Hs' as <-. by exists s.
  - rewrite lookup_insert_ne in Hs' by done. by exists s'.
Qed.

(** The sweep over the symbols [syms]: the symbols it appends are those of
    [syms] that are exported and have no ID yet. *)
Lemma registerExportedSymbols_sweep st (syms : list positive) st' refs :
  tracked st refs → registerExportedSymbols st syms = Ok st' →
  ∃ swept : list positive,
    objectSymbols st' = objectSymbols st ++ swept ∧
    tracked st' (refs ++ ((λ a, (a, false)) <$> swept)) ∧
    (∀ a, a ∈ swept ↔
          a ∈ syms ∧ ∃ s, symbols st !! a = Some s ∧
                          sym_isExported s = true ∧ sym_ID s = NO_ID) ∧
    (∀ a s', symbols st' !! a = Some s' →
             ∃ s, symbols st !! a = Some s ∧
                  sym_isExported s' = sym_isExported s).
Proof.
  revert st refs. induction syms as [|a syms IH]; intros st refs Htr Hsweep.
  - injection Hsweep as <-. exists []. rewrite !app_nil_r.
    split_and!; [done..| |by eauto].
    intros a. split; [by intros ?%elem_of_nil|].
    by intros [?%elem_of_nil _].
  - cbn [registerExportedSymbols] in Hsweep. bind_inv Hsweep.
    rename a0 into st1.
    apply registerExportedSymbol_Ok in Heqr
      as (s & Hs & [(Hex & Hid & Hreg)|[Hcase ->]]).
    + destruct (registerSymbol_tracked _ _ _ _ _ Htr Hs Hid Hreg)
        as (Htr1 & Ho1 & Hother).
      destruct (IH _ _ Htr1 Hsweep) as (swept & Ho & Htr' & Hswept & Hsym).
      exists (a :: swept). split_and!.
      * by rewrite Ho, Ho1, <- app_assoc.
      * by rewrite fmap_cons, cons_middle, app_assoc.
      * intros b. rewrite !elem_of_cons, Hswept.
        destruct (decide (b = a)) as [->|Hne].
        -- split; [intros _; split; [by left|by eauto]|by left].
        -- rewrite (Hother b Hne). split.
           ++ intros [?|[Hb Hex']]; [done|]. split; [by right|done].
           ++ intros [[?|Hb] Hex']; [done|]. right. by split.
      * intros b s' Hs'. destruct (Hsym b s' Hs') as (s1 & Hs1 & Hex1).
        destruct (registerSymbol_symbols _ _ _ _ _ Hreg Hs1)
          as (s0 & Hs0 & Hex0 & _).
        exists s0. split; [done|congruence].
    + destruct (IH _ _ Htr Hsweep) as (swept & Ho & Htr' & Hswept & Hsym).
      exists swept. split_and!; [done..| |done].
      intros b. rewrite elem_of_cons, Hswept.
      split; [intros [Hb Hex']; split; [by right|done]|].
      intros [[->|Hb] (sb & Hsb & Hexb & Hidb)]; [|by eauto].
      rewrite Hs in Hsb. injection Hsb as <-.
      destruct Hcase; congruence.
Qed.

(** C5 (amended). Along any run of the module from a state in which no
    symbol has an ID (patches and assertions created, the front end acting
    in between), followed by the sweep of [out_WriteObject] over all
    symbols: the list of object symbols has no duplicate; a symbol has an
    ID if and only if it is in that list, and if and only if it is
    exported or some patch built in the run refers to it by ID and it is
    not the PC symbol; a symbol with neither property has no ID and is not
    in the list.  The sweep appends exactly the exported symbols that had
    no ID, each once: an exported symbol that a patch reference had
    registered is not registered again. *)
Theorem symbol_ID_assignment st0 refs st1 fe st2 :
  no_symbol_registered st0 →
  output_steps st0 refs st1 →
  registerExportedSymbols st1 (sym_ForEach fe) = Ok st2 →
  (∀ a, is_Some (symbols st1 !! a) → a ∈ sym_ForEach fe) →
  NoDup (objectSymbols st2) ∧
  (∀ a s, symbols st2 !! a = Some s →
          (sym_ID s ≠ NO_ID ↔ a ∈ objectSymbols st2) ∧
          (sym_ID s ≠ NO_ID ↔
           (a, false) ∈ refs ∨ sym_isExported s = true)) ∧
  ∃ swept : list positive,
    objectSymbols st2 = objectSymbols st1 ++ swept ∧
    ∀ a, a ∈ swept ↔ ∃ s, symbols st1 !! a = Some s ∧
                          sym_isExported s = true ∧ sym_ID s = NO_ID.
Proof.
  intros Hinit Hsteps Hsweep Hall.
  assert (Htr1 : tracked st1 refs).
  { apply (output_steps_tracked st0 refs st1 []); [|done].
    by apply no_symbol_registered_tracked. }
  destruct (registerExportedSymbols_sweep _ _ _ _ Htr1 Hsweep)
    as (swept & Ho & Htr2 & Hswept & Hsym).
  split_and!.
  - by destruct Htr2.
  - intros a s Hs.
    pose proof (tracked_ID _ _ Htr2 a s Hs) as Hid2.
    split; [done|]. rewrite Hid2.
    rewrite (tracked_refs _ _ Htr2 a), elem_of_app, list_elem_of_fmap.
    destruct (Hsym a s Hs) as (s1 & Hs1 & Hex).
    split.
    + intros [Hr|(b & [= <-] & Hb)]; [by left|].
      apply Hswept in Hb as (_ & s1' & Hs1' & Hex1 & _).
      right. congruence.
    + intros [Hr|Hexp]; [by left|].
      destruct (decide (sym_ID s1 = NO_ID)) as [Hno|Hyes].
      * right. exists a. split; [done|]. apply Hswept.
        split; [by apply Hall; eauto|]. exists s1. split_and!; congruence.
      * left. apply (tracked_refs _ _ Htr1 a).
        by apply (tracked_ID _ _ Htr1 a s1 Hs1).
  - exists swept. split; [done|]. intros a. rewrite Hswept.
    split; [by intros [_ ?]|].
    intros (s & Hs & Hex & Hid). split; [|by eauto].
    apply Hall. eauto.
Qed.
End runs.

(** ** Patches and assertions *)

Section patches.
Context {ld : Linkdefs}.
Implicit Types (fe : FrontEnd) (st : State) (expr : Expression).

Lemma same_sections_refl st : same_sections st st.
Proof. done. Qed.

Lemma same_sections_trans st1 st2 st3 :
  same_sections st1 st2 → same_sections st2 st3 → same_sections st1 st3.
Proof. intros (? & ? & ? & ?) (? & ? & ? & ?). split_and!; congruence. Qed.

Lemma malloc_same_sections st (ok : bool) st' :
  malloc st = (ok, st') → same_sections st st'.
Proof. unfold malloc. destruct (mallocs st); intros [= <- <-]; done. Qed.

Lemma getSymbolID_same_sections fe st (a : positive) id st' :
  getSymbolID fe st a = Ok (id, st') → same_sections st st'.
Proof.
  intros Hget.
  apply getSymbolID_Ok in Hget as (s & Hs & [(_ & _ & Hreg)|[_ ->]]);
    [|done].
  by apply registerSymbol_Ok in Hreg as (s' & r & _ & _ & _ & ->).
Qed.

Lemma writerpn_loop_same_sections (fuel : nat) fe st (rpnexpr rpn : list Z)
    (rpnlen : Z) (offset : nat) (rpnexpr' : list Z) st' :
  writerpn_loop fuel fe st rpnexpr rpn rpnlen offset = Ok (rpnexpr', st') →
  same_sections st st'.
Proof.
  revert st rpnexpr offset.
  induction fuel as [|fuel IH]; intros st rpnexpr offset Hloop;
    simpl in *; destruct (Z.of_nat offset <? rpnlen);
    try discriminate; try (by injection Hloop as <- <-).
  bind_inv Hloop. destruct a as [[o1 out1] st1].
  apply IH in Hloop. apply writerpn_body_instr in Heqr.
  destruct (rpn_instr fe rpn offset) as [[o [[a pc]|]]|]; [| |done].
  - destruct Heqr as (_ & _ & id & Hget).
    eapply same_sections_trans; [|done].
    by eapply getSymbolID_same_sections.
  - by destruct Heqr as [_ ->].
Qed.

Lemma allocpatch_same_sections fe st (type : Z) expr (ofs : Z)
    (patch : Patch) st' :
  allocpatch fe st type expr ofs = Ok (patch, st') → same_sections st st'.
Proof.
  intros Halloc.
  apply allocpatch_Ok in Halloc
    as (st1 & st2 & r & pRPN & Hm1 & Hm2 & Hr & Hrpn & _).
  apply malloc_same_sections in Hm1, Hm2.
  eapply same_sections_trans; [done|].
  eapply same_sections_trans; [done|].
  destruct (isKnown expr).
  - by destruct Hrpn as [_ ->].
  - apply writerpn_loop_same_sections in Hrpn. done.
Qed.

(** C1. For an expression whose value is known, the patch that
    [allocpatch] builds has an RPN of exactly five bytes, the
    push-constant opcode and the four bytes of the 32-bit value, least
    significant first, and its [nRPNSize] is 5; the patch is built
    whenever the two allocations succeed and the current file stack node
    can be registered. *)
Theorem allocpatch_known fe st (type : Z) expr (ofs : Z) :
  isKnown expr = true → 0 ≤ RPN_CONST < 256 →
  (∀ patch st', allocpatch fe st type expr ofs = Ok (patch, st') →
     patch_pRPN patch = RPN_CONST :: le32 (u32 (nVal expr)) ∧
     length (patch_pRPN patch) = 5%nat ∧
     patch_nRPNSize patch = 5 ∧
     le32_value (le32 (u32 (nVal expr))) = u32 (nVal expr)) ∧
  (∀ st1 st2 r,
     malloc st = (true, st1) → malloc st1 = (true, st2) →
     out_RegisterNode (registry st2) (fstk_GetFileStack fe) = Ok r →
     ∃ patch, allocpatch fe st type expr ofs = Ok (patch, set_registry st2 r)).
Proof.
  intros Hknown Hop.
  assert (Hbytes :
    [u8 RPN_CONST; u8 (Z.land (u32 (nVal expr)) 255);
     u8 (Z.shiftr (u32 (nVal expr)) 8); u8 (Z.shiftr (u32 (nVal expr)) 16);
     u8 (Z.shiftr (u32 (nVal expr)) 24)]
    = RPN_CONST :: le32 (u32 (nVal expr))).
  { rewrite land_255_byte, shiftr_8_byte, shiftr_16_byte, shiftr_24_byte.
    unfold u8 at 1. by rewrite Z.mod_small by done. }
  split.
  - intros patch st' Halloc.
    apply allocpatch_Ok in Halloc
      as (st1 & st2 & r & pRPN & _ & _ & _ & Hrpn & HpRPN & Hsize & _).
    rewrite Hknown in Hrpn, Hsize. destruct Hrpn as [-> _].
    rewrite HpRPN, Hbytes. split_and!; [done..|].
    apply le32_value_le32. unfold u32. apply Z.mod_pos_bound. lia.
  - intros st1 st2 r Hm1 Hm2 Hr. unfold allocpatch.
    rewrite Hm1. cbn [negb]. rewrite Hm2. cbn [negb]. rewrite Hr.
    step_bind. rewrite Hknown. step_bind. cbn [length].
    change (5 <? Z.of_nat 5) with false. rewrite Z.eqb_refl. cbn [negb].
    eauto.
Qed.

(** C8. [out_CreateAssert] reports a failed allocation to its caller: it
    returns [false] when the assertion or the copy of the message cannot
    be allocated, and the list of assertions is then as before; when it
    returns [true] the new assertion, with the patch built and the message,
    is in front of the list.  The other constructors do not: a failed
    allocation in [allocpatch] and [out_CreatePatch] is fatal, also when
    [out_CreateAssert] calls [allocpatch]. *)
Theorem out_CreateAssert_result fe st (type : Z) expr (message : list Z)
    (ofs : Z) :
  (∀ st1, malloc st = (false, st1) →
     out_CreateAssert fe st type expr message ofs = Ok (false, st1) ∧
     assertions st1 = assertions st) ∧
  (∀ st1 patch st2 st3,
     malloc st = (true, st1) →
     allocpatch fe st1 type expr ofs = Ok (patch, st2) →
     malloc st2 = (false, st3) →
     out_CreateAssert fe st type expr message ofs = Ok (false, st3) ∧
     assertions st3 = assertions st) ∧
  (∀ st1 patch st2 st3,
     malloc st = (true, st1) →
     allocpatch fe st1 type expr ofs = Ok (patch, st2) →
     malloc st2 = (true, st3) →
     out_CreateAssert fe st type expr message ofs
       = Ok (true, set_assertions st3
                     (mkAssertion patch message :: assertions st3)) ∧
     assertions st3 = assertions st) ∧
  (∀ ok st', out_CreateAssert fe st type expr message ofs = Ok (ok, st') →
     if ok then ∃ patch, assertions st'
                         = mkAssertion patch message :: assertions st
     else assertions st' = assertions st) ∧
  (∀ st1 e, malloc st = (true, st1) →
     allocpatch fe st1 type expr ofs = Err e →
     out_CreateAssert fe st type expr message ofs = Err e) ∧
  (∀ st1, malloc st = (false, st1) →
     allocpatch fe st type expr ofs = Err (Fatal NoMemoryForPatch) ∧
     out_CreatePatch fe st type expr ofs = Err (Fatal NoMemoryForPatch)) ∧
  (∀ st1 st2, malloc st = (true, st1) → malloc st1 = (false, st2) →
     allocpatch fe st type expr ofs = Err (Fatal NoMemoryForRPN) ∧
     out_CreatePatch fe st type expr ofs = Err (Fatal NoMemoryForRPN)).
Proof.
  split_and!.
  - intros st1 Hm. unfold out_CreateAssert. rewrite Hm. cbn [negb].
    split; [done|]. by apply malloc_same_sections in Hm as (_ & _ & _ & ?).
  - intros st1 patch st2 st3 Hm1 Ha Hm2. unfold out_CreateAssert.
    rewrite Hm1. cbn [negb]. rewrite Ha. step_bind. rewrite Hm2. cbn [negb].
    split; [done|].
    apply malloc_same_sections in Hm1 as (_ & _ & _ & ?).
    apply malloc_same_sections in Hm2 as (_ & _ & _ & ?).
    apply allocpatch_same_sections in Ha as (_ & _ & _ & ?). congruence.
  - intros st1 patch st2 st3 Hm1 Ha Hm2. unfold out_CreateAssert.
    rewrite Hm1. cbn [negb]. rewrite Ha. step_bind. rewrite Hm2. cbn [negb].
    split; [done|].
    apply malloc_same_sections in Hm1 as (_ & _ & _ & ?).
    apply malloc_same_sections in Hm2 as (_ & _ & _ & ?).
    apply allocpatch_same_sections in Ha as (_ & _ & _ & ?). congruence.
  - intros ok st' Hc. unfold out_CreateAssert in Hc.
    destruct (malloc st) as [[] st1] eqn:Hm1; cbn [negb] in Hc.
    2:{ injection Hc as <- <-.
        by apply malloc_same_sections in Hm1 as (_ & _ & _ & ?). }
    bind_inv Hc. destruct a as [patch st2].
    apply malloc_same_sections in Hm1 as (_ & _ & _ & ?).
    apply allocpatch_same_sections in Heqr as (_ & _ & _ & ?).
    destruct (malloc st2) as [[] st3] eqn:Hm2; cbn [negb] in Hc;
      apply malloc_same_sections in Hm2 as (_ & _ & _ & ?);
      injection Hc as <- <-.
    + exists patch. simpl. congruence.
    + congruence.
  - intros st1 e Hm Ha. unfold out_CreateAssert. rewrite Hm. cbn [negb].
    by rewrite Ha.
  - intros st1 Hm. unfold out_CreatePatch, allocpatch. by rewrite Hm.
  - intros st1 st2 Hm1 Hm2. unfold out_CreatePatch, allocpatch.
    by rewrite Hm1, Hm2.
Qed.
End patches.

(** ** The order of the patches of a section *)

Section patch_order.
Context {ld : Linkdefs}.
Implicit Types (fe : FrontEnd) (st : State) (expr : Expression).

Lemma out_CreatePatch_Ok (c : PatchCall) st st' :
  out_CreatePatch (call_fe c) st (call_type c) (call_expr c) (call_ofs c)
    = Ok st' →
  ∃ patch cur sect,
    built_by c patch ∧
    pCurrentSection st = Some cur ∧ sections st !! cur = Some sect ∧
    pCurrentSection st' = Some cur ∧
    sections st'
      = <[cur := set_sect_patches sect (patch :: sect_patches sect)]>
          (sections st).
Proof.
  unfold out_CreatePatch. intros Hc. bind_inv Hc. destruct a as [patch st1].
  apply allocpatch_same_sections in Heqr as Hsame.
  destruct Hsame as (Hsec & _ & Hcur & _).
  destruct (pCurrentSection st1) as [cur|] eqn:Hcur1; [|done].
  bind_inv Hc. rename a into sect. apply load_Ok in Heqr0.
  injection Hc as <-.
  apply allocpatch_Ok in Heqr
    as (sa & sb & r & pRPN & _ & _ & _ & _ & _ & _ & _ & Hsrc & Hline & Hofs
        & Hty).
  exists patch, cur, sect. simpl. rewrite <- Hcur, <- Hsec.
  by split_and!.
Qed.

Lemma out_CreatePatches_prepend (calls : list PatchCall) st st'
    (cur : positive) (sect : Sect) :
  out_CreatePatches st calls = Ok st' →
  pCurrentSection st = Some cur → sections st !! cur = Some sect →
  ∃ created : list Patch,
    Forall2 built_by calls created ∧
    pCurrentSection st' = Some cur ∧
    sections st' !! cur
      = Some (set_sect_patches sect (reverse created ++ sect_patches sect)).
Proof.
  revert st sect. induction calls as [|c calls IH]; intros st sect Hrun Hcur Hs.
  - injection Hrun as <-. exists []. split_and!; [constructor|done|].
    rewrite Hs. by destruct sect.
  - cbn [out_CreatePatches] in Hrun. bind_inv Hrun. rename a into st1.
    apply out_CreatePatch_Ok in Heqr
      as (patch & cur' & sect' & Hbuilt & Hcur' & Hs' & Hcur1 & Hsec1).
    rewrite Hcur in Hcur'. injection Hcur' as <-.
    rewrite Hs in Hs'. injection Hs' as <-.
    destruct (IH st1 (set_sect_patches sect (patch :: sect_patches sect))
                 Hrun Hcur1) as (created & Hall & Hcur2 & Hs2).
    { rewrite Hsec1. by rewrite lookup_insert_eq. }
    exists (patch :: created). split_and!; [by constructor|done|].
    rewrite Hs2. f_equal. unfold set_sect_patches. simpl.
    by rewrite reverse_cons, <- app_assoc.
Qed.

Lemma writepatches_cons st (patch : Patch) (patches : list Patch) :
  writepatches st (patch :: patches)
    = (b ← writepatch st patch; bs ← writepatches st patches; Ok (b ++ bs)).
Proof. reflexivity. Qed.


End patch_order.

(** ** Termination

    The bounds on the loops are never reached. *)

Lemma unregistered_insert (h : gmap positive FileStackNode) (a : positive)
    (n n' : FileStackNode) :
  h !! a = Some n → node_ID n = NO_ID → node_ID n' ≠ NO_ID →
  S (unregistered (<[a := n']> h)) = unregistered h.
Proof.
  intros Ha Hn Hn'. unfold unregistered.
  rewrite map_filter_insert_False by done.
  rewrite map_filter_delete, map_size_delete_Some.
  - assert (Hin : filter (λ kv, node_ID kv.2 = NO_ID) h !! a = Some n)
      by (by apply map_lookup_filter_Some).
    destruct (size (filter (λ kv, node_ID kv.2 = NO_ID) h)) eqn:Hsz; [|done].
    apply map_size_empty_inv in Hsz. rewrite Hsz in Hin.
    by rewrite lookup_empty in Hin.
  - exists n. by apply map_lookup_filter_Some.
Qed.

Lemma out_RegisterNode_loop_fuel (fuel : nat) (r : Registry) (a : positive) :
  (unregistered (nodes r) < fuel)%nat →
  out_RegisterNode_loop fuel r a ≠ Err OutOfFuel.
Proof.
  revert r a. induction fuel as [|fuel IH]; intros r a Hfuel; [lia|].
  simpl. destruct (load (nodes r) a) as [n|e] eqn:Hl.
  2:{ unfold load in Hl. destruct (nodes r !! a); [done|].
      injection Hl as <-. by rewrite bind_Err_l. }
  apply load_Ok in Hl. step_bind.
  destruct (Z.eqb_spec (node_ID n) NO_ID) as [Hn|Hn]; [|done].
  destruct (getNbFileStackNodes r) as [id|e] eqn:Hcount.
  2:{ unfold getNbFileStackNodes, load in Hcount.
      destruct (fileStackNodes r) as [hd|]; [|done].
      destruct (nodes r !! hd); [done|].
      rewrite bind_Err_l in Hcount. injection Hcount as <-.
      by rewrite bind_Err_l. }
  step_bind. destruct (Z.eqb_spec id NO_ID) as [|Hid]; [done|].
  destruct (node_parent n) as [p|]; [|done].
  apply IH. simpl.
  pose proof (unregistered_insert (nodes r) a n
                (set_node_next (set_node_ID n id) (fileStackNodes r))
                Hl Hn Hid).
  lia.
Qed.

(** [out_RegisterNode] never stops for lack of fuel: the bound on the
    iterations of its loop is never reached. *)
Lemma out_RegisterNode_terminates (r : Registry) (a : positive) :
  out_RegisterNode r a ≠ Err OutOfFuel.
Proof.
  apply out_RegisterNode_loop_fuel. unfold unregistered.
  pose proof (map_size_filter (λ kv : positive * FileStackNode,
                                 node_ID kv.2 = NO_ID) (nodes r)).
  lia.
Qed.

Lemma bind_fuel {A B : Type} (m : result A) (f : A → result B) :
  m ≠ Err OutOfFuel → (∀ a, m = Ok a → f a ≠ Err OutOfFuel) →
  (m ≫= f) ≠ Err OutOfFuel.
Proof.
  destruct m as [a|e]; intros Hm Hf; [by apply Hf|].
  rewrite bind_Err_l. congruence.
Qed.

Lemma load_fuel {A : Type} (h : gmap positive A) (p : positive) :
  load h p ≠ Err OutOfFuel.
Proof. unfold load. by destruct (h !! p). Qed.

Lemma registerSymbol_fuel (st : State) (a : positive) :
  registerSymbol st a ≠ Err OutOfFuel.
Proof.
  unfold registerSymbol. apply bind_fuel; [apply load_fuel|]. intros s _.
  apply bind_fuel; [apply out_RegisterNode_terminates|]. intros r _.
  by destruct (_ =? _).
Qed.

Lemma getSymbolID_fuel (fe : FrontEnd) (st : State) (a : positive) :
  getSymbolID fe st a ≠ Err OutOfFuel.
Proof.
  unfold getSymbolID. apply bind_fuel; [apply load_fuel|]. intros s _.
  apply bind_fuel.
  - destruct (_ && _); [apply registerSymbol_fuel|done].
  - intros st' _. apply bind_fuel; [apply load_fuel|done].
Qed.

Lemma popbyte_Ok (rpn : list Z) (o : nat) b (o' : nat) :
  popbyte rpn o = Ok (b, o') → o' = S o.
Proof. unfold popbyte. destruct (rpn !! o); congruence. Qed.

Lemma popbyte_fuel (rpn : list Z) (o : nat) : popbyte rpn o ≠ Err OutOfFuel.
Proof. unfold popbyte. by destruct (rpn !! o). Qed.

Lemma read_tzSym_Ok (room : nat) (rpn : list Z) (o : nat) (s : list Z)
    (o' : nat) :
  read_tzSym room rpn o = Ok (s, o') → (o < o')%nat.
Proof.
  revert o s. induction room as [|room IH]; intros o s Hr; [done|].
  simpl in Hr. bind_inv Hr. destruct a as [b o1].
  apply popbyte_Ok in Heqr as ->.
  destruct (b =? 0); [injection Hr as <- <-; lia|].
  bind_inv Hr. destruct a as [s1 o2]. injection Hr as <- <-.
  apply IH in Heqr. lia.
Qed.

Lemma read_tzSym_fuel (room : nat) (rpn : list Z) (o : nat) :
  read_tzSym room rpn o ≠ Err OutOfFuel.
Proof.
  revert o. induction room as [|room IH]; intros o; [done|]. simpl.
  apply bind_fuel; [apply popbyte_fuel|]. intros [b o1] _.
  destruct (b =? 0); [done|].
  apply bind_fuel; [apply IH|]. by intros [s o2] _.
Qed.

Lemma copy_string_Ok (rest : list Z) (o : nat) (out : list Z) (o' : nat)
    (out' : list Z) :
  copy_string rest o out = Ok (o', out') → (o < o')%nat.
Proof.
  revert o out. induction rest as [|b rest IH]; intros o out Hc; [done|].
  simpl in Hc. destruct (u8 b =? 0); [injection Hc as <- <-; lia|].
  apply IH in Hc. lia.
Qed.

Lemma copy_string_fuel (rest : list Z) (o : nat) (out : list Z) :
  copy_string rest o out ≠ Err OutOfFuel.
Proof.
  revert o out. induction rest as [|b rest IH]; intros o out; [done|].
  simpl. destruct (u8 b =? 0); [done|apply IH].
Qed.

Section fuel.
Context {ld : Linkdefs}.
Implicit Types (fe : FrontEnd) (st : State) (rpn : list Z).

Lemma rpn_instr_Ok fe rpn (o o' : nat) ref :
  rpn_instr fe rpn o = Ok (o', ref) → (o < o')%nat.
Proof.
  unfold rpn_instr. intros Hi. bind_inv Hi. destruct a as [d o1].
  apply popbyte_Ok in Heqr as ->.
  destruct (d =? RPN_CONST).
  { bind_inv Hi. destruct a as [b1 o2]. apply popbyte_Ok in Heqr as ->.
    bind_inv Hi. destruct a as [b2 o3]. apply popbyte_Ok in Heqr as ->.
    bind_inv Hi. destruct a as [b3 o4]. apply popbyte_Ok in Heqr as ->.
    bind_inv Hi. destruct a as [b4 o5]. apply popbyte_Ok in Heqr as ->.
    injection Hi as <- <-. lia. }
  destruct (d =? RPN_SYM).
  { bind_inv Hi. destruct a as [s o2]. apply read_tzSym_Ok in Heqr.
    destruct (sym_FindSymbol fe s); [|done]. injection Hi as <- <-. lia. }
  destruct (d =? RPN_BANK_SYM).
  { bind_inv Hi. destruct a as [s o2]. apply read_tzSym_Ok in Heqr.
    destruct (sym_FindSymbol fe s); [|done]. injection Hi as <- <-. lia. }
  destruct (d =? RPN_BANK_SECT).
  { bind_inv Hi. destruct a as [o2 out]. apply copy_string_Ok in Heqr.
    injection Hi as <- <-. lia. }
  injection Hi as <- <-. lia.
Qed.

Lemma writerpn_body_Ok fe st (rpnexpr : list Z) rpn (o o' : nat)
    (rpnexpr' : list Z) st' :
  writerpn_body fe st rpnexpr rpn o = Ok (o', rpnexpr', st') → (o < o')%nat.
Proof.
  intros Hb. apply writerpn_body_instr in Hb.
  destruct (rpn_instr fe rpn o) as [[o1 ref]|] eqn:Hi; [|done].
  apply rpn_instr_Ok in Hi.
  destruct ref as [[a pc]|]; [destruct Hb as (-> & _)|destruct Hb as (-> & _)];
    done.
Qed.

Lemma writerpn_body_fuel fe st (rpnexpr : list Z) rpn (o : nat) :
  writerpn_body fe st rpnexpr rpn o ≠ Err OutOfFuel.
Proof.
  unfold writerpn_body. apply bind_fuel; [apply popbyte_fuel|].
  intros [d o1] _. destruct (d =? RPN_CONST).
  { repeat (apply bind_fuel; [apply popbyte_fuel|]; intros [? ?] _). done. }
  destruct (d =? RPN_SYM).
  { apply bind_fuel; [apply read_tzSym_fuel|]. intros [s o2] _.
    destruct (sym_FindSymbol fe s) as [sym|]; [|done].
    apply bind_fuel; [|by intros [[? ?] ?] _].
    destruct (sym_IsConstant fe sym); [done|].
    apply bind_fuel; [apply getSymbolID_fuel|]. by intros [? ?] _. }
  destruct (d =? RPN_BANK_SYM).
  { apply bind_fuel; [apply read_tzSym_fuel|]. intros [s o2] _.
    destruct (sym_FindSymbol fe s) as [sym|]; [|done].
    apply bind_fuel; [apply getSymbolID_fuel|]. by intros [? ?] _. }
  destruct (d =? RPN_BANK_SECT); [|done].
  apply bind_fuel; [apply copy_string_fuel|]. by intros [? ?] _.
Qed.

Lemma writerpn_loop_fuel (fuel : nat) fe st (rpnexpr : list Z) rpn
    (rpnlen : Z) (o : nat) :
  rpnlen ≤ Z.of_nat o + Z.of_nat fuel →
  writerpn_loop fuel fe st rpnexpr rpn rpnlen o ≠ Err OutOfFuel.
Proof.
  revert st rpnexpr o. induction fuel as [|fuel IH]; intros st rpnexpr o Hf;
    simpl; destruct (Z.ltb_spec (Z.of_nat o) rpnlen); try done; [lia|].
  apply bind_fuel; [apply writerpn_body_fuel|].
  intros [[o1 out1] st1] Hb. apply writerpn_body_Ok in Hb.
  apply IH. lia.
Qed.

(** The rewriter and the constructors never stop for lack of fuel. *)
Lemma writerpn_terminates fe st (rpnexpr : list Z) rpn (rpnlen : Z) :
  writerpn fe st rpnexpr rpn rpnlen ≠ Err OutOfFuel.
Proof. apply writerpn_loop_fuel. lia. Qed.

Lemma allocpatch_terminates fe st (type : Z) (expr : Expression) (ofs : Z) :
  allocpatch fe st type expr ofs ≠ Err OutOfFuel.
Proof.
  unfold allocpatch. destruct (malloc st) as [[] st1]; [|done].
  destruct (malloc st1) as [[] st2]; [|done]. cbn [negb].
  apply bind_fuel; [apply out_RegisterNode_terminates|]. intros r _.
  apply bind_fuel.
  - destruct (isKnown expr); [done|apply writerpn_terminates].
  - intros [pRPN st3] _. destruct (_ <? _); [done|]. by destruct (negb _).
Qed.
End fuel.

(** ** The statements at work on the small module *)

Lemma example_linkdefs_ok : rpn_opcodes_ok (H := example_linkdefs).
Proof.
  split.
  - repeat apply Forall_cons_2; try apply Forall_nil_2; simpl; lia.
  - apply (bool_decide_unpack _). by vm_compute.
Qed.

Ltac solve_is_name :=
  split; [repeat apply Forall_cons_2; try apply Forall_nil_2; lia
         | unfold tzSym_size; simpl; lia].

Lemma allocpatch_known_witness :
  ∃ patch st',
    allocpatch (H := example_linkdefs) example_frontend example_state 1
               known_42 0 = Ok (patch, st') ∧
    patch_pRPN patch = [128; 42; 0; 0; 0] ∧ patch_nRPNSize patch = 5.
Proof.
  destruct (allocpatch_known (ld := example_linkdefs) example_frontend
              example_state 1 known_42 0) as [Hshape Hbuilt].
  - reflexivity.
  - simpl. lia.
  - destruct (Hbuilt example_state example_state
                (registry_after example_registry [3%positive]))
      as [patch Hpatch]; [reflexivity | reflexivity | by vm_compute |].
    destruct (Hshape _ _ Hpatch) as (Hrpn & _ & Hsize & _).
    eexists patch, _. split; [exact Hpatch|]. split; [|exact Hsize].
    rewrite Hrpn. reflexivity.
Defined.

(** C4, as stated, fails on the PC symbol: [@] is not a known constant
    here and has no ID, and the rewriter emits the push-symbol-by-ID opcode
    with the four bytes of the all-ones value and leaves the state as it
    is; no ID is allocated for the symbol. *)
Lemma writerpn_sym_PC_not_allocated :
  sym_FindSymbol example_frontend [64] = Some 1%positive ∧
  sym_IsConstant example_frontend 1%positive = false ∧
  sym_ID <$> symbols example_state !! 1%positive = Some NO_ID ∧
  writerpn_body (H := example_linkdefs) example_frontend example_state []
                [129; 64; 0] 0
    = Ok (3%nat, [129; 255; 255; 255; 255], example_state) ∧
  ¬ (∃ (next : nat) (rpnexpr : list Z) st' s',
       writerpn_body (H := example_linkdefs) example_frontend example_state
                     [] [129; 64; 0] 0 = Ok (next, rpnexpr, st') ∧
       symbols st' !! 1%positive = Some s' ∧ sym_ID s' ≠ NO_ID).
Proof.
  split_and!; try by vm_compute.
  intros (next & rpnexpr & st' & s' & Hbody & Hs' & Hid).
  vm_compute in Hbody. injection Hbody as <- <- <-.
  vm_compute in Hs'. injection Hs' as <-. by apply Hid.
Qed.

Lemma map_Forall_covers {A : Type} (m : gmap positive A) (l : list positive) :
  map_Forall (λ a _, a ∈ l) m → ∀ a, is_Some (m !! a) → a ∈ l.
Proof. intros Hall a [x Hx]. by apply (Hall a x). Qed.

Lemma example_run :
  output_steps (H := example_linkdefs) example_state
    (expression_refs (H := example_linkdefs) example_frontend expr_Lab ++ [])
    (state_after (H := example_linkdefs) example_state [call_Lab]).
Proof.
  eapply steps_next; [|apply steps_done].
  apply (step_patch example_frontend example_state 1 expr_Lab 0).
  by vm_compute.
Qed.

Lemma symbol_ID_assignment_witness :
  let st2 := after_sweep (H := example_linkdefs) example_frontend
               (state_after (H := example_linkdefs) example_state
                  [call_Lab]) in
  objectSymbols st2 = [2%positive; 4%positive] ∧
  NoDup (objectSymbols st2) ∧
  ∀ a s, symbols st2 !! a = Some s →
         (sym_ID s ≠ NO_ID ↔
          (a, false) ∈ [(2%positive, false)] ∨ sym_isExported s = true).
Proof.
  intros st2.
  destruct (symbol_ID_assignment (ld := example_linkdefs) example_state
              (expression_refs (H := example_linkdefs) example_frontend
                 expr_Lab ++ [])
              (state_after (H := example_linkdefs) example_state [call_Lab])
              example_frontend st2) as (Hnd & Hiff & _).
  - split; [done|]. apply (bool_decide_unpack _). by vm_compute.
  - exact example_run.
  - by vm_compute.
  - apply map_Forall_covers. apply (bool_decide_unpack _). by vm_compute.
  - split_and!; [by vm_compute|done|].
    intros a s Hs. by destruct (Hiff a s Hs) as [_ Hrefs].
Defined.

(** C5, as stated, fails on the PC symbol: a patch is built from the
    expression [@] in a floating section and refers to the PC symbol, which
    is not exported; after the run and the sweep the PC symbol has no ID
    and is not in the list of object symbols. *)
Lemma symbol_ID_PC_counterexample :
  let st1 := state_after (H := example_linkdefs) example_state [call_PC] in
  let st2 := after_sweep (H := example_linkdefs) example_frontend st1 in
  no_symbol_registered example_state ∧
  out_CreatePatches (H := example_linkdefs) example_state [call_PC] = Ok st1 ∧
  registerExportedSymbols st1 (sym_ForEach example_frontend) = Ok st2 ∧
  expression_refs (H := example_linkdefs) example_frontend expr_PC
    = [(1%positive, true)] ∧
  sect_patches <$> sections st2 !! 1%positive
    = Some [mkPatch 3%positive 10 2 (Some 1%positive) 4 1 5
                    [129; 255; 255; 255; 255]] ∧
  symbols st2 !! 1%positive = Some (mkSymbol [64] false 1%positive 0 0 NO_ID) ∧
  (1%positive ∉ objectSymbols st2) ∧
  ¬ (∀ a s, symbols st2 !! a = Some s →
            (sym_ID s ≠ NO_ID ↔
             a ∈ (expression_refs (H := example_linkdefs) example_frontend
                    expr_PC).*1
             ∨ sym_isExported s = true)).
Proof.
  split_and!; try by vm_compute.
  - split; [done|]. apply (bool_decide_unpack _). by vm_compute.
  - apply (bool_decide_unpack _). by vm_compute.
  - intros Hiff.
    destruct (Hiff 1%positive (mkSymbol [64] false 1%positive 0 0 NO_ID))
      as [_ Hid]; [by vm_compute|].
    apply Hid; [|done]. left. apply (bool_decide_unpack _). by vm_compute.
Qed.

Lemma out_CreateAssert_result_witness :
  out_CreateAssert (H := example_linkdefs) example_frontend
      (set_mallocs example_state [false]) 3 known_42 [111; 107] 0
    = Ok (false, example_state) ∧
  assertions example_state = [] ∧
  ∃ patch st3,
    out_CreateAssert (H := example_linkdefs) example_frontend example_state
                     3 known_42 [111; 107] 0
      = Ok (true, set_assertions st3 [mkAssertion patch [111; 107]]).
Proof.
  split_and!.
  - apply (proj1 (out_CreateAssert_result (ld := example_linkdefs)
                    example_frontend (set_mallocs example_state [false]) 3
                    known_42 [111; 107] 0) example_state eq_refl).
  - reflexivity.
  - destruct (proj1 (proj2 (proj2
               (out_CreateAssert_result (ld := example_linkdefs)
                  example_frontend example_state 3 known_42 [111; 107] 0)))
               example_state
               (mkPatch 3%positive 10 0 (Some 1%positive) 4 3 5
                        [128; 42; 0; 0; 0])
               (set_registry example_state
                  (registry_after example_registry [3%positive]))
               (set_registry example_state
                  (registry_after example_registry [3%positive])))
      as [Hres Hlist]; [reflexivity | by vm_compute | reflexivity |].
    eexists _, _. exact Hres.
Defined.

(** * Further properties *)

(** ** Encoders *)

(** X1. [fputlong] writes four bytes, and they are the little-endian
    encoding of its argument taken modulo 2^32: read back least significant
    byte first they give that value. *)
Theorem fputlong_round_trip (i : Z) :
  length (fputlong i) = 4%nat ∧ byte_list (fputlong i) ∧
  le32_value (fputlong i) = i mod 4294967296.
Proof.
  rewrite fputlong_le32. split_and!.
  - done.
  - apply le32_bytes.
  - apply le32_value_le32. unfold u32. apply Z.mod_pos_bound. lia.
Qed.

Lemma fputstring_cons (c : Z) (s : list Z) :
  fputstring (c :: s)
    = if u8 c =? 0 then fputc 0 else fputc c ++ fputstring s.
Proof. reflexivity. Qed.

Lemma fputstring_chars (s : list Z) (rest : list Z) :
  chars s → fputstring (s ++ 0 :: rest) = s ++ [0].
Proof.
  induction 1 as [|c s Hc _ IH]; [done|].
  rewrite <- app_comm_cons, fputstring_cons.
  unfold u8 at 1. rewrite Z.mod_small by lia.
  destruct (Z.eqb_spec c 0); [lia|].
  rewrite IH. unfold fputc, u8. by rewrite Z.mod_small by lia.
Qed.

Lemma fputstring_chars_end (s : list Z) : chars s → fputstring s = s ++ [0].
Proof.
  induction 1 as [|c s Hc _ IH]; [done|].
  rewrite <- app_comm_cons, fputstring_cons.
  unfold u8 at 1. rewrite Z.mod_small by lia.
  destruct (Z.eqb_spec c 0); [lia|].
  rewrite IH. unfold fputc, u8. by rewrite Z.mod_small by lia.
Qed.

Lemma read_tzSym_overflow (room : nat) (pre name post : list Z) :
  chars name → (room ≤ length name)%nat →
  read_tzSym room (pre ++ name ++ post) (length pre) = Err Undefined.
Proof.
  intros Hname. revert room pre.
  induction Hname as [|b name Hb _ IH]; intros room pre Hroom;
    (destruct room as [|room]; [done|]); simpl in Hroom; [lia|].
  simpl. rewrite popbyte_middle. step_bind. unfold u8.
  rewrite Z.mod_small by lia.
  destruct (Z.eqb_spec b 0) as [|_]; [lia|].
  replace (pre ++ b :: name ++ post)
    with ((pre ++ [b]) ++ name ++ post) by (by rewrite <- app_assoc).
  replace (S (length pre)) with (length (pre ++ [b]))
    by (rewrite length_app; simpl; lia).
  rewrite IH by lia. done.
Qed.

(** X2. [fputstring] writes the characters that precede the first NUL of
    its argument and then one NUL, whatever follows that NUL in the buffer;
    the only zero byte written is the last one.  The loop with which
    [writerpn] reads a name into the 512 bytes of [tzSym] reads the string
    back from the bytes written when the string has fewer than 512
    characters; with 512 or more it runs past the end of [tzSym]. *)
Theorem fputstring_terminated (s rest : list Z) :
  chars s →
  fputstring (s ++ 0 :: rest) = s ++ [0] ∧
  fputstring s = s ++ [0] ∧
  (0 ∉ s) ∧
  ((length s < tzSym_size)%nat →
   ∀ pre post : list Z,
     read_tzSym tzSym_size (pre ++ fputstring (s ++ 0 :: rest) ++ post)
                (length pre)
       = Ok (s, (length pre + length s + 1)%nat)) ∧
  ((tzSym_size ≤ length s)%nat →
   ∀ pre post : list Z,
     read_tzSym tzSym_size (pre ++ fputstring (s ++ 0 :: rest) ++ post)
                (length pre)
       = Err Undefined).
Proof.
  intros Hs. split_and!.
  - by apply fputstring_chars.
  - by apply fputstring_chars_end.
  - intros H0. apply (proj1 (Forall_forall _ _) Hs) in H0. lia.
  - intros Hlen pre post. rewrite fputstring_chars by done.
    rewrite <- app_assoc. change ([0] ++ post) with (0 :: post).
    by apply read_tzSym_name.
  - intros Hlen pre post. rewrite fputstring_chars by done.
    rewrite <- app_assoc. by apply read_tzSym_overflow.
Qed.

Lemma fputstring_terminated_witness :
  fputstring [99; 111; 100; 101; 0; 120] = [99; 111; 100; 101; 0] ∧
  read_tzSym tzSym_size
             ([129] ++ fputstring [99; 111; 100; 101; 0; 120] ++ [7]) 1
    = Ok ([99; 111; 100; 101], 6%nat).
Proof.
  assert (Hs : chars [99; 111; 100; 101])
    by (repeat apply Forall_cons_2; try apply Forall_nil_2; lia).
  destruct (fputstring_terminated [99; 111; 100; 101] [120] Hs)
    as (Hput & _ & _ & Hread & _).
  split; [exact Hput|].
  apply (Hread ltac:(unfold tzSym_size; simpl; lia) [129] [7]).
Defined.

(** ** Section IDs *)

Lemma getsectid_from_Ok (sec : list positive) (sect : positive) (ID id : Z) :
  0 ≤ ID → ID + Z.of_nat (length sec) ≤ 4294967296 →
  getsectid_from sec sect ID = Ok id →
  ID ≤ id ∧ sec !! Z.to_nat (id - ID) = Some sect ∧
  ∀ j : nat, (j < Z.to_nat (id - ID))%nat → sec !! j ≠ Some sect.
Proof.
  revert ID. induction sec as [|s sec IH]; intros ID HID Hlen Hget; [done|].
  simpl in Hget, Hlen. destruct (Pos.eqb_spec s sect) as [->|Hne].
  - injection Hget as <-. rewrite Z.sub_diag. split_and!; [lia|done|].
    intros j Hj. simpl in Hj. lia.
  - destruct sec as [|s' sec']; [done|]. simpl length in *.
    unfold u32 in Hget. rewrite Z.mod_small in Hget by lia.
    apply IH in Hget as (Hle & Hat & Hfirst); [|lia|simpl length; lia].
    replace (Z.to_nat (id - ID)) with (S (Z.to_nat (id - (ID + 1)))) by lia.
    split_and!; [lia|done|].
    intros [|j] Hj; simpl; [congruence|]. apply Hfirst. lia.
Qed.

Lemma getsectid_from_result (sec : list positive) (sect : positive) (ID : Z) :
  (sect ∈ sec → ∃ id, getsectid_from sec sect ID = Ok id) ∧
  (sect ∉ sec → getsectid_from sec sect ID = Err (Fatal UnknownSection)).
Proof.
  revert ID. induction sec as [|s sec IH]; intros ID.
  - split; [by intros ?%elem_of_nil|done].
  - simpl. destruct (Pos.eqb_spec s sect) as [->|Hne].
    + split; [eauto|]. intros Hn. exfalso. apply Hn. by left.
    + destruct (IH (u32 (ID + 1))) as [Hin Hout]. split.
      * intros [?|?]%elem_of_cons; [congruence|eauto].
      * intros Hn. apply Hout. intros ?. apply Hn. by right.
Qed.

(** X3. [getsectid] returns the position of the section in the list of
    sections (the first one that holds it), so the section is found again
    at the ID returned; it ends in the fatal error for an unknown section
    exactly when the section is not in the list.  Without a section,
    [getSectIDIfAny] gives the all-ones value. *)
Theorem getsectid_position (st : State) (sect : positive) :
  Z.of_nat (length (pSectionList st)) ≤ 4294967296 →
  (∀ id, getsectid st sect = Ok id →
     0 ≤ id ∧ pSectionList st !! Z.to_nat id = Some sect ∧
     ∀ j : nat, (j < Z.to_nat id)%nat → pSectionList st !! j ≠ Some sect) ∧
  (sect ∈ pSectionList st ↔ ∃ id, getsectid st sect = Ok id) ∧
  (sect ∉ pSectionList st ↔
   getsectid st sect = Err (Fatal UnknownSection)) ∧
  getSectIDIfAny st (Some sect) = getsectid st sect ∧
  getSectIDIfAny st None = Ok NO_ID.
Proof.
  intros Hlen. unfold getsectid.
  destruct (getsectid_from_result (pSectionList st) sect 0) as [Hin Hout].
  split_and!; try done.
  - intros id Hget.
    destruct (getsectid_from_Ok _ _ 0 id (Z.le_refl 0) Hlen Hget)
      as (Hle & Hat & Hfirst).
    rewrite Z.sub_0_r in Hat, Hfirst. done.
  - split; [done|]. intros [id Hget].
    destruct (decide (sect ∈ pSectionList st)) as [|Hn]; [done|].
    rewrite (Hout Hn) in Hget. done.
  - split; [done|]. intros Hget Hn. destruct (Hin Hn) as [id Hid]. congruence.
Qed.

Lemma getsectid_position_witness :
  (∃ id, getsectid example_state 1%positive = Ok id) ∧
  getsectid example_state 2%positive = Err (Fatal UnknownSection).
Proof.
  destruct (getsectid_position example_state 1%positive) as (_ & Hin & _);
    [simpl; lia|].
  destruct (getsectid_position example_state 2%positive) as (_ & _ & Hout & _);
    [simpl; lia|].
  split.
  - apply Hin. apply (bool_decide_unpack _). by vm_compute.
  - apply Hout. apply (bool_decide_unpack _). by vm_compute.
Defined.

(** ** The registry *)

Lemma chain_ok_length_lt (h : gmap positive FileStackNode)
    (p : option positive) (l : list positive) (a : positive) :
  chain_ok h p l → is_Some (h !! a) → a ∉ l → (length l < size h)%nat.
Proof.
  intros Hc [n Hn] Ha.
  assert (Hsub : a :: l ⊆+ (map_to_list h).*1).
  { apply NoDup_submseteq.
    - constructor; [done|]. by eapply chain_ok_NoDup.
    - intros b [->|Hb]%elem_of_cons.
      + apply list_elem_of_fmap. exists (a, n). split; [done|].
        by apply elem_of_map_to_list.
      + destruct (chain_ok_lookup _ _ _ _ Hc Hb) as (m & Hm & _).
        apply list_elem_of_fmap. exists (b, m). split; [done|].
        by apply elem_of_map_to_list. }
  apply submseteq_length in Hsub.
  rewrite length_fmap, length_map_to_list in Hsub. simpl in Hsub. lia.
Qed.

Lemma parents_closed_insert (h : gmap positive FileStackNode) (a : positive)
    (n n' : FileStackNode) :
  parents_closed h → h !! a = Some n → node_parent n' = node_parent n →
  parents_closed (<[a := n']> h).
Proof.
  intros Hcl Ha Hp b m q Hm Hq.
  assert (Hq' : is_Some (h !! q)).
  { destruct (decide (a = b)) as [->|Hab].
    - rewrite lookup_insert_eq in Hm. injection Hm as <-.
      apply (Hcl b n q); [done|congruence].
    - rewrite lookup_insert_ne in Hm by done. by apply (Hcl b m q). }
  destruct (decide (a = q)) as [->|Haq].
  - rewrite lookup_insert_eq. eauto.
  - by rewrite lookup_insert_ne.
Qed.

Lemma size_insert_Some (h : gmap positive FileStackNode) (a : positive)
    (n n' : FileStackNode) :
  h !! a = Some n → size (<[a := n']> h) = size h.
Proof.
  intros Ha. rewrite <- (insert_delete_id h a n Ha) at 2.
  rewrite <- (insert_delete_eq h a n').
  rewrite !map_size_insert_None by apply lookup_delete_eq. done.
Qed.

Lemma out_RegisterNode_loop_progress (fuel : nat) (r : Registry)
    (l : list positive) (a : positive) :
  registry_inv r l → parents_closed (nodes r) → is_Some (nodes r !! a) →
  Z.of_nat (size (nodes r)) ≤ NO_ID →
  (unregistered (nodes r) < fuel)%nat →
  ∃ r', out_RegisterNode_loop fuel r a = Ok r' ∧
        parents_closed (nodes r') ∧ size (nodes r') = size (nodes r).
Proof.
  revert r l a. induction fuel as [|fuel IH];
    intros r l a Hinv Hcl [n Hn] Hsize Hfuel; [lia|].
  simpl. apply load_Ok in Hn as Hl. rewrite Hl. step_bind.
  destruct (Z.eqb_spec (node_ID n) NO_ID) as [Hid|Hid]; [|by eauto].
  rewrite (registry_inv_count r l Hinv). step_bind.
  pose proof (registry_inv_unregistered r l a n Hinv Hn Hid) as Hnotin.
  pose proof (chain_ok_length_lt _ _ _ a (inv_chain _ _ Hinv)
                (ex_intro _ n Hn) Hnotin) as Hlt.
  destruct (Z.eqb_spec (Z.of_nat (length l)) NO_ID) as [Heq|Hne]; [lia|].
  set (n' := set_node_next (set_node_ID n (Z.of_nat (length l)))
                           (fileStackNodes r)).
  set (r1 := mkRegistry (<[a := n']> (nodes r)) (Some a)).
  assert (Hcl1 : parents_closed (nodes r1))
    by (by apply (parents_closed_insert _ a n n')).
  assert (Hsz1 : size (nodes r1) = size (nodes r))
    by (by apply (size_insert_Some _ a n n')).
  destruct (node_parent n) as [q|] eqn:Hq; [|by eauto].
  assert (Hinv1 : registry_inv r1 (a :: l)).
  { apply (register_one_inv r l a n); [done..|].
    unfold register_one. rewrite Hl. step_bind.
    rewrite (registry_inv_count r l Hinv). step_bind.
    by destruct (Z.eqb_spec (Z.of_nat (length l)) NO_ID). }
  destruct (IH r1 (a :: l) q Hinv1 Hcl1) as (r' & Hrun & Hcl' & Hsz').
  - apply (Hcl1 a n' q); [apply lookup_insert_eq|done].
  - lia.
  - pose proof (unregistered_insert (nodes r) a n n' Hn Hid Hne). simpl. lia.
  - exists r'. split_and!; [done|done|lia].
Qed.

Lemma out_RegisterNode_loop_error (fuel : nat) (r : Registry) (a : positive)
    (e : failure) :
  out_RegisterNode_loop fuel r a = Err e →
  e = Undefined ∨ e = Fatal TooManyNodes ∨ e = OutOfFuel.
Proof.
  revert r a. induction fuel as [|fuel IH]; intros r a Hrun.
  - injection Hrun as <-. auto.
  - simpl in Hrun. unfold load in Hrun.
    destruct (nodes r !! a) as [n|];
      [step_bind_in Hrun | rewrite bind_Err_l in Hrun; injection Hrun as <-;
                           auto].
    destruct (node_ID n =? NO_ID); [|done].
    unfold getNbFileStackNodes, load in Hrun.
    destruct (fileStackNodes r) as [hd|].
    + destruct (nodes r !! hd) as [nh|];
        [do 2 step_bind_in Hrun
        | rewrite !bind_Err_l in Hrun; injection Hrun as <-; auto].
      destruct (_ =? NO_ID); [injection Hrun as <-; auto|].
      destruct (node_parent n); [by eapply IH|done].
    + step_bind_in Hrun.
      destruct (_ =? NO_ID); [injection Hrun as <-; auto|].
      destruct (node_parent n); [by eapply IH|done].
Qed.

(** X4. [out_RegisterNode] always returns: its loop ends on any store, a
    cyclic chain of parents included, and the only ways to fail are a
    pointer to no node and the fatal error for too many nodes.  On a
    registry built by registrations, where every parent pointer points to a
    node and the nodes are fewer than 2^32 - 1, the call of any node of the
    store succeeds and leaves that node with an ID. *)
Theorem out_RegisterNode_progress (r : Registry) (a : positive) :
  reachable r → parents_closed (nodes r) → is_Some (nodes r !! a) →
  Z.of_nat (size (nodes r)) ≤ NO_ID →
  (∃ r', out_RegisterNode r a = Ok r' ∧ registered r' a ∧
         parents_closed (nodes r') ∧ size (nodes r') = size (nodes r)) ∧
  ∀ (r0 : Registry) (b : positive) (e : failure),
    out_RegisterNode r0 b = Err e → e = Undefined ∨ e = Fatal TooManyNodes.
Proof.
  intros Hreach Hcl Ha Hsize. split.
  - destruct (reachable_inv r Hreach) as [l Hinv].
    destruct (out_RegisterNode_loop_progress (S (size (nodes r))) r l a)
      as (r' & Hrun & Hcl' & Hsz'); [done..| |].
    { unfold unregistered.
      pose proof (map_size_filter (λ kv : positive * FileStackNode,
                                     node_ID kv.2 = NO_ID) (nodes r)).
      lia. }
    exists r'. split_and!; [done| |done|done].
    by apply (out_RegisterNode_loop_registered _ _ _ _ Hrun).
  - intros r0 b e Hrun.
    destruct (out_RegisterNode_loop_error _ _ _ _ Hrun) as [?|[?| ->]];
      [auto..|].
    by apply out_RegisterNode_terminates in Hrun.
Qed.

Lemma example_nodes_closed : parents_closed example_nodes.
Proof.
  intros a n p Hn Hp. unfold example_nodes in Hn.
  repeat (apply lookup_insert_Some in Hn as [[<- <-]|[_ Hn]];
          [simpl in Hp; try discriminate Hp; injection Hp as <-;
           eexists; by vm_compute|]).
  by rewrite lookup_empty in Hn.
Qed.

Lemma out_RegisterNode_progress_witness :
  ∃ r', out_RegisterNode example_registry 3%positive = Ok r' ∧
        registered r' 3%positive.
Proof.
  destruct (out_RegisterNode_progress example_registry 3%positive)
    as [(r' & Hrun & Hreg & _) _].
  - apply reach_init; [done|]. apply (bool_decide_unpack _). by vm_compute.
  - apply example_nodes_closed.
  - eexists. by vm_compute.
  - by vm_compute.
  - eauto.
Defined.

Lemma same_node_refl (n : FileStackNode) : same_node n n.
Proof. by repeat split. Qed.

Lemma same_node_trans (n1 n2 n3 : FileStackNode) :
  same_node n1 n2 → same_node n2 n3 → same_node n1 n3.
Proof.
  intros (? & ? & ? & ?) (? & ? & ? & ?). repeat split; congruence.
Qed.

Lemma out_RegisterNode_loop_fields (fuel : nat) (r : Registry) (a : positive)
    (r' : Registry) (b : positive) (nb : FileStackNode) :
  out_RegisterNode_loop fuel r a = Ok r' → nodes r !! b = Some nb →
  ∃ nb', nodes r' !! b = Some nb' ∧ same_node nb nb'.
Proof.
  revert r a nb. induction fuel as [|fuel IH]; intros r a nb Hrun Hb;
    [discriminate|].
  simpl in Hrun. apply bind_Ok in Hrun as (n & Hl & Hrun).
  apply load_Ok in Hl.
  destruct (Z.eqb_spec (node_ID n) NO_ID) as [Hn|Hn].
  - apply bind_Ok in Hrun as (id & Hcount & Hrun).
    destruct (Z.eqb_spec id NO_ID) as [|Hne]; [discriminate|].
    set (n' := set_node_next (set_node_ID n id) (fileStackNodes r)) in *.
    assert (Hb1 : ∃ nb1, <[a := n']> (nodes r) !! b = Some nb1 ∧
                         same_node nb nb1).
    { destruct (decide (a = b)) as [->|Hab].
      - rewrite lookup_insert_eq. exists n'. split; [done|].
        rewrite Hl in Hb. injection Hb as <-. by repeat split.
      - rewrite lookup_insert_ne by done. exists nb.
        split; [done|apply same_node_refl]. }
    destruct Hb1 as (nb1 & Hb1 & Hsame1).
    destruct (node_parent n) as [q|].
    + destruct (IH _ _ nb1 Hrun Hb1) as (nb' & Hb' & Hsame').
      exists nb'. split; [done|]. by eapply same_node_trans.
    + injection Hrun as <-. eauto.
  - injection Hrun as <-. exists nb. split; [done|apply same_node_refl].
Qed.

Lemma out_RegisterNode_loop_dom (fuel : nat) (r : Registry) (a : positive)
    (r' : Registry) (b : positive) :
  out_RegisterNode_loop fuel r a = Ok r' → nodes r !! b = None →
  nodes r' !! b = None.
Proof.
  revert r a. induction fuel as [|fuel IH]; intros r a Hrun Hb;
    [discriminate|].
  simpl in Hrun. apply bind_Ok in Hrun as (n & Hl & Hrun).
  apply load_Ok in Hl.
  destruct (Z.eqb_spec (node_ID n) NO_ID) as [Hn|Hn].
  - apply bind_Ok in Hrun as (id & Hcount & Hrun).
    destruct (Z.eqb_spec id NO_ID) as [|Hne]; [discriminate|].
    assert (Hab : a ≠ b) by (intros ->; congruence).
    destruct (node_parent n) as [q|].
    + eapply IH; [exact Hrun|]. simpl. by rewrite lookup_insert_ne.
    + injection Hrun as <-. simpl. by rewrite lookup_insert_ne.
  - by injection Hrun as <-.
Qed.

(** X5. A registration leaves what is registered alone: a node that has
    an ID keeps it, with its place in the flat list; no node is added to or
    removed from the store, and the members that the front end wrote
    (parent, line, type, name or counters) are not touched.  The flat list
    after the call is the one before it with the newly registered nodes in
    front. *)
Theorem out_RegisterNode_stable (r r' : Registry) (a : positive) :
  out_RegisterNode r a = Ok r' →
  (∀ b nb, nodes r !! b = Some nb → node_ID nb ≠ NO_ID →
           nodes r' !! b = Some nb) ∧
  (∀ b nb, nodes r !! b = Some nb →
           ∃ nb', nodes r' !! b = Some nb' ∧ same_node nb nb') ∧
  (∀ b, nodes r !! b = None → nodes r' !! b = None) ∧
  (reachable r →
   ∃ l l' : list positive,
     flat_list r = Ok l ∧ flat_list r' = Ok (l' ++ l) ∧
     ID_of r' <$> l = ID_of r <$> l ∧
     ∀ b, b ∈ l' → ID_of r b = NO_ID ∧ ID_of r' b ≠ NO_ID).
Proof.
  intros Hrun. split_and!.
  - intros b nb. by apply (out_RegisterNode_loop_frame _ _ _ _ b nb Hrun).
  - intros b nb. by apply (out_RegisterNode_loop_fields _ _ _ _ b nb Hrun).
  - intros b. by apply (out_RegisterNode_loop_dom _ _ _ _ b Hrun).
  - intros Hreach. destruct (reachable_inv r Hreach) as [l Hinv].
    destruct (out_RegisterNode_loop_inv _ _ _ _ _ Hinv Hrun) as [l' Hinv'].
    pose proof Hinv as [Hc Hcomp Hb]. pose proof Hinv' as [Hc' Hcomp' Hb'].
    exists l, l'. split_and!.
    + apply chain_ok_flat_list_from; [done|]. by eapply chain_ok_length.
    + apply chain_ok_flat_list_from; [done|]. by eapply chain_ok_length.
    + apply list_fmap_ext. intros i b Hi.
      apply list_elem_of_lookup_2 in Hi.
      destruct (chain_ok_lookup _ _ _ _ Hc Hi) as (nb & Hnb & Hr).
      assert (Hid : node_ID nb ≠ NO_ID) by (unfold NO_ID in *; lia).
      unfold ID_of.
      by rewrite (out_RegisterNode_loop_frame _ _ _ _ _ _ Hrun Hnb Hid), Hnb.
    + intros b Hb1.
      assert (Hbl : b ∉ l).
      { apply chain_ok_NoDup in Hc'. apply NoDup_app in Hc' as (_ & Hd & _).
        by apply Hd. }
      assert (Hin' : b ∈ l' ++ l) by (apply elem_of_app; by left).
      destruct (chain_ok_lookup _ _ _ _ Hc' Hin') as (nb' & Hnb' & Hr').
      split.
      * unfold ID_of. destruct (nodes r !! b) as [nb|] eqn:Hnb; [|done].
        destruct (decide (node_ID nb = NO_ID)) as [|Hid]; [done|].
        exfalso. apply Hbl. by eapply Hcomp.
      * unfold ID_of. rewrite Hnb'. unfold NO_ID in *. lia.
Qed.

Lemma out_RegisterNode_stable_witness :
  ∃ l' : list positive,
    flat_list (registry_after example_registry [2%positive; 3%positive])
      = Ok (l' ++ [1%positive; 2%positive]).
Proof.
  destruct (out_RegisterNode_stable
              (registry_after example_registry [2%positive])
              (registry_after example_registry [2%positive; 3%positive])
              3%positive) as (_ & _ & _ & Hlist); [by vm_compute|].
  destruct Hlist as (l & l' & Hl & Hl' & _).
  - apply (reach_register example_registry 2%positive); [|by vm_compute].
    apply reach_init; [done|]. apply (bool_decide_unpack _). by vm_compute.
  - exists l'. vm_compute in Hl. injection Hl as <-. exact Hl'.
Defined.

Lemma out_RegisterNode_loop_parents (fuel : nat) (r : Registry)
    (a : positive) (r' : Registry) :
  (∀ b n p, nodes r !! b = Some n → node_ID n ≠ NO_ID →
            node_parent n = Some p → p = a ∨ registered r p) →
  out_RegisterNode_loop fuel r a = Ok r' →
  ∀ b n p, nodes r' !! b = Some n → node_ID n ≠ NO_ID →
           node_parent n = Some p → registered r' p.
Proof.
  revert r a. induction fuel as [|fuel IH]; intros r a Hpar Hrun;
    [discriminate|].
  simpl in Hrun. apply bind_Ok in Hrun as (n & Hl & Hrun).
  apply load_Ok in Hl.
  destruct (Z.eqb_spec (node_ID n) NO_ID) as [Hn|Hn].
  - apply bind_Ok in Hrun as (id & Hcount & Hrun).
    destruct (Z.eqb_spec id NO_ID) as [|Hne]; [discriminate|].
    set (n' := set_node_next (set_node_ID n id) (fileStackNodes r)) in *.
    set (r1 := mkRegistry (<[a := n']> (nodes r)) (Some a)) in *.
    assert (Ha1 : registered r1 a).
    { exists n'. split; [apply lookup_insert_eq|done]. }
    assert (Hkeep : ∀ p, registered r p → registered r1 p).
    { intros p (np & Hp & Hpid). exists np. split; [|done]. simpl.
      rewrite lookup_insert_ne; [done|]. intros ->. congruence. }
    assert (Hpar1 : ∀ b m p, nodes r1 !! b = Some m → node_ID m ≠ NO_ID →
                             node_parent m = Some p →
                             node_parent n = Some p ∨ registered r1 p).
    { intros b m p Hm Hmid Hmp. simpl in Hm.
      destruct (decide (a = b)) as [->|Hab].
      - rewrite lookup_insert_eq in Hm. injection Hm as <-. by left.
      - rewrite lookup_insert_ne in Hm by done. right.
        destruct (Hpar b m p Hm Hmid Hmp) as [->|Hp]; auto. }
    destruct (node_parent n) as [q|].
    + apply (IH r1 q); [|done]. intros b m p Hm Hmid Hmp.
      destruct (Hpar1 b m p Hm Hmid Hmp) as [Hq|Hp]; [|by right].
      left. congruence.
    + injection Hrun as <-. intros b m p Hm Hmid Hmp.
      by destruct (Hpar1 b m p Hm Hmid Hmp) as [Hq|Hp].
  - injection Hrun as <-. intros b m p Hm Hmid Hmp.
    destruct (Hpar b m p Hm Hmid Hmp) as [->|Hp]; [|done].
    by exists n.
Qed.

Lemma reachable_parents (r : Registry) :
  reachable r →
  ∀ b n p, nodes r !! b = Some n → node_ID n ≠ NO_ID →
           node_parent n = Some p → registered r p.
Proof.
  induction 1 as [r Hhead Hall | r a n _ IH Hfresh Hid | r a r' _ IH Hreg].
  - intros b n p Hn Hid. by specialize (Hall b n Hn).
  - intros b m p Hm Hmid Hmp. simpl in Hm.
    destruct (decide (a = b)) as [->|Hab].
    + rewrite lookup_insert_eq in Hm. congruence.
    + rewrite lookup_insert_ne in Hm by done.
      destruct (IH b m p Hm Hmid Hmp) as (np & Hp & Hpid).
      exists np. split; [|done]. simpl.
      rewrite lookup_insert_ne; [done|]. intros ->. congruence.
  - apply (out_RegisterNode_loop_parents (S (size (nodes r))) r a); [|done].
    intros b n p Hn Hnid Hnp. right. by apply (IH b n p).
Qed.

(** X6. The parent of a registered node is registered: after any sequence
    of registrations, every node of the flat list that has a parent has it
    in the flat list too, so the parent ID of a record of the node table is
    the ID of another record of that table, below the number of nodes. *)
Theorem parent_IDs_in_table (r : Registry) :
  reachable r →
  ∃ l : list positive,
    flat_list r = Ok l ∧
    ∀ a, a ∈ l →
      ∃ n, nodes r !! a = Some n ∧
           ∀ p, node_parent n = Some p →
                p ∈ l ∧
                ∃ pn, nodes r !! p = Some pn ∧
                      0 ≤ node_ID pn < Z.of_nat (length l).
Proof.
  intros Hreach. destruct (reachable_inv r Hreach) as [l Hinv].
  pose proof Hinv as [Hc Hcomp Hb].
  exists l. split.
  { apply chain_ok_flat_list_from; [done|]. by eapply chain_ok_length. }
  intros a Ha. destruct (chain_ok_lookup _ _ _ _ Hc Ha) as (n & Hn & Hr).
  exists n. split; [done|]. intros p Hp.
  destruct (reachable_parents r Hreach a n p Hn) as (pn & Hpn & Hpid);
    [unfold NO_ID in *; lia|done|].
  assert (Hpl : p ∈ l) by exact (Hcomp p pn Hpn Hpid).
  split; [done|].
  destruct (chain_ok_lookup _ _ _ _ Hc Hpl) as (pn' & Hpn' & Hr').
  exists pn'. done.
Qed.

Lemma parent_IDs_in_table_witness :
  ∃ l : list positive,
    flat_list (registry_after example_registry [3%positive]) = Ok l ∧
    2%positive ∈ l.
Proof.
  destruct (parent_IDs_in_table (registry_after example_registry [3%positive]))
    as (l & Hl & Hpar).
  - apply (reach_register example_registry 3%positive); [|by vm_compute].
    apply reach_init; [done|]. apply (bool_decide_unpack _). by vm_compute.
  - exists l. split; [done|].
    destruct (Hpar 3%positive) as (n & Hn & Hp).
    + vm_compute in Hl. injection Hl as <-. apply (bool_decide_unpack _).
      by vm_compute.
    + vm_compute in Hn. injection Hn as <-. by destruct (Hp 2%positive).
Defined.

(** ** The rewriter on whole expressions *)

Lemma copy_string_chars (name post : list Z) (o : nat) (out : list Z) :
  chars name →
  copy_string (name ++ 0 :: post) o out
    = Ok ((o + length name + 1)%nat, out ++ name ++ [0]).
Proof.
  intros Hname. revert o out.
  induction Hname as [|b name Hb _ IH]; intros o out; simpl.
  - unfold writebyte. do 2 f_equal. lia.
  - unfold writebyte, u8. rewrite !Z.mod_small by lia.
    destruct (Z.eqb_spec b 0) as [|_]; [lia|].
    rewrite IH. rewrite <- app_assoc. simpl. do 2 f_equal. lia.
Qed.

Section instructions.
Context {ld : Linkdefs}.
Implicit Types (fe : FrontEnd) (st : State) (i : Instr).

Lemma encode_length i : (1 ≤ length (encode i))%nat.
Proof. destruct i; simpl; lia. Qed.

Lemma writerpn_loop_eq (fuel : nat) fe st (rpnexpr rpn : list Z) (rpnlen : Z)
    (offset : nat) :
  writerpn_loop fuel fe st rpnexpr rpn rpnlen offset =
    if Z.of_nat offset <? rpnlen then
      match fuel with
      | O => Err OutOfFuel
      | S fuel' =>
        '(offset, rpnexpr, st) ← writerpn_body fe st rpnexpr rpn offset;
        writerpn_loop fuel' fe st rpnexpr rpn rpnlen offset
      end
    else Ok (rpnexpr, st).
Proof. by destruct fuel. Qed.

Lemma writerpn_body_rewrite fe st (out pre : list Z) i (post : list Z) :
  rpn_opcodes_ok → instr_ok i →
  writerpn_body fe st out (pre ++ encode i ++ post) (length pre)
    = ('(b, st') ← rewrite_instr fe st i;
       Ok ((length pre + length (encode i))%nat, out ++ b, st')).
Proof.
  intros Hops Hi.
  destruct (rpn_opcodes_bytes Hops) as (Hc & Hsym & Hbank & Hsect).
  destruct (rpn_opcodes_distinct Hops) as (H1 & H2 & H3 & H4 & H5 & H6).
  destruct i as [b0 b1 b2 b3|name|name|name|op]; simpl in Hi.
  - (* RPN_CONST *)
    assert (Hb : u8 b0 = b0 ∧ u8 b1 = b1 ∧ u8 b2 = b2 ∧ u8 b3 = b3).
    { repeat (apply Forall_cons in Hi as [? Hi]). unfold u8.
      by rewrite !Z.mod_small by lia. }
    destruct Hb as (Hb0 & Hb1 & Hb2 & Hb3).
    unfold writerpn_body. simpl encode. rewrite <- app_comm_cons.
    rewrite popbyte_middle. step_bind. rewrite Hc, Z.eqb_refl.
    replace (pre ++ RPN_CONST :: [b0; b1; b2; b3] ++ post)
      with ((pre ++ [RPN_CONST]) ++ b0 :: [b1; b2; b3] ++ post)
      by (by rewrite <- app_assoc).
    replace (S (length pre)) with (length (pre ++ [RPN_CONST]))
      by (rewrite length_app; simpl; lia).
    rewrite popbyte_middle. step_bind.
    replace ((pre ++ [RPN_CONST]) ++ b0 :: [b1; b2; b3] ++ post)
      with ((pre ++ [RPN_CONST; b0]) ++ b1 :: [b2; b3] ++ post)
      by (by rewrite <- !app_assoc).
    replace (S (length (pre ++ [RPN_CONST])))
      with (length (pre ++ [RPN_CONST; b0]))
      by (rewrite !length_app; simpl; lia).
    rewrite popbyte_middle. step_bind.
    replace ((pre ++ [RPN_CONST; b0]) ++ b1 :: [b2; b3] ++ post)
      with ((pre ++ [RPN_CONST; b0; b1]) ++ b2 :: [b3] ++ post)
      by (by rewrite <- !app_assoc).
    replace (S (length (pre ++ [RPN_CONST; b0])))
      with (length (pre ++ [RPN_CONST; b0; b1]))
      by (rewrite !length_app; simpl; lia).
    rewrite popbyte_middle. step_bind.
    replace ((pre ++ [RPN_CONST; b0; b1]) ++ b2 :: [b3] ++ post)
      with ((pre ++ [RPN_CONST; b0; b1; b2]) ++ b3 :: post)
      by (by rewrite <- !app_assoc).
    replace (S (length (pre ++ [RPN_CONST; b0; b1])))
      with (length (pre ++ [RPN_CONST; b0; b1; b2]))
      by (rewrite !length_app; simpl; lia).
    rewrite popbyte_middle. step_bind.
    unfold writebyte. rewrite Hc, Hb0, Hb1, Hb2, Hb3.
    rewrite !Hb0, !Hb1, !Hb2, !Hb3.
    rewrite length_app. simpl. rewrite <- !app_assoc. simpl.
    do 3 f_equal. lia.
  - (* RPN_SYM *)
    unfold writerpn_body. simpl encode.
    replace (pre ++ (RPN_SYM :: name ++ [0]) ++ post)
      with (pre ++ RPN_SYM :: name ++ 0 :: post)
      by (simpl; by rewrite <- app_assoc).
    rewrite popbyte_middle. step_bind. rewrite Hsym.
    destruct (Z.eqb_spec RPN_SYM RPN_CONST) as [|_]; [done|].
    rewrite Z.eqb_refl, read_tzSym_operand by done. step_bind.
    simpl rewrite_instr.
    destruct (sym_FindSymbol fe name) as [a|]; [|done].
    destruct (sym_IsConstant fe a).
    + do 2 step_bind. rewrite writebyte_le32. unfold writebyte.
      rewrite Hc. rewrite <- app_assoc. simpl. rewrite length_app. simpl.
      do 3 f_equal. lia.
    + destruct (getSymbolID fe st a) as [[value st']|e]; [|done].
      do 4 step_bind. rewrite writebyte_le32. unfold writebyte.
      rewrite Hsym. rewrite <- app_assoc. simpl. rewrite length_app. simpl.
      do 3 f_equal. lia.
  - (* RPN_BANK_SYM *)
    unfold writerpn_body. simpl encode.
    replace (pre ++ (RPN_BANK_SYM :: name ++ [0]) ++ post)
      with (pre ++ RPN_BANK_SYM :: name ++ 0 :: post)
      by (simpl; by rewrite <- app_assoc).
    rewrite popbyte_middle. step_bind. rewrite Hbank.
    destruct (Z.eqb_spec RPN_BANK_SYM RPN_CONST) as [|_]; [done|].
    destruct (Z.eqb_spec RPN_BANK_SYM RPN_SYM) as [|_]; [done|].
    rewrite Z.eqb_refl, read_tzSym_operand by done. step_bind.
    simpl rewrite_instr.
    destruct (sym_FindSymbol fe name) as [a|]; [|done].
    destruct (getSymbolID fe st a) as [[value st']|e]; [|done].
    do 3 step_bind. rewrite writebyte_le32. unfold writebyte.
    rewrite Hbank. rewrite <- app_assoc. simpl. rewrite length_app. simpl.
    do 3 f_equal. lia.
  - (* RPN_BANK_SECT *)
    unfold writerpn_body. simpl encode.
    replace (pre ++ (RPN_BANK_SECT :: name ++ [0]) ++ post)
      with (pre ++ RPN_BANK_SECT :: name ++ 0 :: post)
      by (simpl; by rewrite <- app_assoc).
    rewrite popbyte_middle. step_bind. rewrite Hsect.
    destruct (Z.eqb_spec RPN_BANK_SECT RPN_CONST) as [|_]; [done|].
    destruct (Z.eqb_spec RPN_BANK_SECT RPN_SYM) as [|_]; [done|].
    destruct (Z.eqb_spec RPN_BANK_SECT RPN_BANK_SYM) as [|_]; [done|].
    rewrite Z.eqb_refl.
    replace (pre ++ RPN_BANK_SECT :: name ++ 0 :: post)
      with ((pre ++ [RPN_BANK_SECT]) ++ name ++ 0 :: post)
      by (by rewrite <- app_assoc).
    replace (S (length pre)) with (length (pre ++ [RPN_BANK_SECT]))
      by (rewrite length_app; simpl; lia).
    rewrite drop_app_length, copy_string_chars by done. step_bind.
    simpl rewrite_instr. step_bind. unfold writebyte. rewrite Hsect.
    rewrite <- app_assoc. simpl. rewrite !length_app. simpl.
    do 3 f_equal. lia.
  - (* default *)
    destruct Hi as (Hop & Hn1 & Hn2 & Hn3 & Hn4).
    unfold writerpn_body. simpl encode. rewrite <- app_comm_cons.
    rewrite popbyte_middle. step_bind.
    assert (Hu : u8 op = op) by (unfold u8; by rewrite Z.mod_small by lia).
    rewrite Hu.
    destruct (Z.eqb_spec op RPN_CONST) as [|_]; [done|].
    destruct (Z.eqb_spec op RPN_SYM) as [|_]; [done|].
    destruct (Z.eqb_spec op RPN_BANK_SYM) as [|_]; [done|].
    destruct (Z.eqb_spec op RPN_BANK_SECT) as [|_]; [done|].
    simpl rewrite_instr. step_bind. unfold writebyte. rewrite Hu.
    do 3 f_equal. simpl. lia.
Qed.

Lemma writerpn_loop_rewrite (fuel : nat) fe st (out pre : list Z)
    (instrs : list Instr) :
  rpn_opcodes_ok → Forall instr_ok instrs →
  (length (concat (encode <$> instrs)) ≤ fuel)%nat →
  writerpn_loop fuel fe st out (pre ++ concat (encode <$> instrs))
      (Z.of_nat (length pre + length (concat (encode <$> instrs))))
      (length pre)
    = ('(bs, st') ← rewrite_instrs fe st instrs; Ok (out ++ bs, st')).
Proof.
  intros Hops Hall. revert fuel st out pre.
  induction Hall as [|i instrs Hi _ IH]; intros fuel st out pre Hfuel.
  - rewrite writerpn_loop_eq. simpl.
    destruct (Z.ltb_spec (Z.of_nat (length pre))
                         (Z.of_nat (length pre + 0))) as [|_]; [lia|].
    by rewrite app_nil_r.
  - rewrite fmap_cons, concat_cons in *. rewrite length_app in Hfuel.
    pose proof (encode_length i) as Hlen.
    destruct fuel as [|fuel]; [lia|].
    rewrite writerpn_loop_eq.
    destruct (Z.ltb_spec (Z.of_nat (length pre))
                (Z.of_nat (length pre
                           + length (encode i ++ concat (encode <$> instrs)))))
      as [_|Hge]; [|rewrite length_app in Hge; lia].
    rewrite writerpn_body_rewrite by done.
    simpl rewrite_instrs.
    destruct (rewrite_instr fe st i) as [[b st1]|e]; [|done].
    do 2 step_bind.
    replace (pre ++ encode i ++ concat (encode <$> instrs))
      with ((pre ++ encode i) ++ concat (encode <$> instrs))
      by (by rewrite <- app_assoc).
    replace (length pre + length (encode i ++ concat (encode <$> instrs)))%nat
      with (length (pre ++ encode i) + length (concat (encode <$> instrs)))%nat
      by (rewrite !length_app; lia).
    replace (length pre + length (encode i))%nat
      with (length (pre ++ encode i)) by (by rewrite length_app).
    rewrite IH by lia. step_bind.
    destruct (rewrite_instrs fe st1 instrs) as [[bs st']|e]; [|done].
    do 3 step_bind. by rewrite <- app_assoc.
Qed.

Lemma rewrite_instr_length fe st i (b : list Z) st' :
  rewrite_instr fe st i = Ok (b, st') → length b = rewritten_size i.
Proof.
  destruct i as [b0 b1 b2 b3|name|name|name|op]; simpl; intros Hrun.
  - by injection Hrun as <- _.
  - destruct (sym_FindSymbol fe name) as [a|]; [|done].
    destruct (sym_IsConstant fe a); [by injection Hrun as <- _|].
    apply bind_Ok in Hrun as ([id st1] & _ & Hrun).
    by injection Hrun as <- _.
  - destruct (sym_FindSymbol fe name) as [a|]; [|done].
    apply bind_Ok in Hrun as ([id st1] & _ & Hrun).
    by injection Hrun as <- _.
  - injection Hrun as <- _. simpl. rewrite length_app. simpl. lia.
  - by injection Hrun as <- _.
Qed.

Lemma rewrite_instrs_length fe st (instrs : list Instr) (bs : list Z) st' :
  rewrite_instrs fe st instrs = Ok (bs, st') →
  length bs = sum_list (rewritten_size <$> instrs).
Proof.
  revert st bs. induction instrs as [|i instrs IH]; intros st bs Hrun.
  - by injection Hrun as <- _.
  - simpl in Hrun. apply bind_Ok in Hrun as ([b st1] & Hone & Hrun).
    apply bind_Ok in Hrun as ([bs1 st2] & Hrest & Hrun).
    injection Hrun as <- <-. rewrite length_app. simpl.
    by rewrite (rewrite_instr_length _ _ _ _ _ Hone), (IH _ _ Hrest).
Qed.

Lemma rewrite_instrs_plain fe st (instrs : list Instr) :
  Forall (λ i, names_symbol i = false) instrs →
  rewrite_instrs fe st instrs = Ok (concat (encode <$> instrs), st).
Proof.
  induction 1 as [|i instrs Hi _ IH]; [done|].
  simpl rewrite_instrs.
  assert (Hone : rewrite_instr fe st i = Ok (encode i, st))
    by (by destruct i).
  rewrite Hone. step_bind. rewrite IH. by step_bind.
Qed.

Lemma writerpn_rewrite fe st (instrs : list Instr) :
  rpn_opcodes_ok → Forall instr_ok instrs →
  writerpn fe st [] (concat (encode <$> instrs))
           (Z.of_nat (length (concat (encode <$> instrs))))
    = rewrite_instrs fe st instrs.
Proof.
  intros Hops Hall. unfold writerpn. rewrite Nat2Z.id.
  pose proof (writerpn_loop_rewrite
                (length (concat (encode <$> instrs))) fe st [] [] instrs
                Hops Hall (le_n _)) as Hloop.
  simpl in Hloop. rewrite Hloop.
  by destruct (rewrite_instrs fe st instrs) as [[bs st']|e].
Qed.

(** X7. [writerpn] rewrites an expression instruction by instruction: on
    the bytes of a sequence of instructions it gives what rewriting each
    instruction in turn gives, with the state passed from one to the next,
    and fails where the first of them fails.  The number of bytes written
    is the sum of the sizes of the rewritten instructions (five for a
    constant or a symbol, the string and two for a section name, one
    otherwise), and an expression that names no symbol is copied as it is,
    with no change of state. *)
Theorem writerpn_instructions fe st (instrs : list Instr) :
  rpn_opcodes_ok → Forall instr_ok instrs →
  let rpn := concat (encode <$> instrs) in
  writerpn fe st [] rpn (Z.of_nat (length rpn)) = rewrite_instrs fe st instrs ∧
  (∀ bs st', writerpn fe st [] rpn (Z.of_nat (length rpn)) = Ok (bs, st') →
             length bs = sum_list (rewritten_size <$> instrs)) ∧
  (Forall (λ i, names_symbol i = false) instrs →
   writerpn fe st [] rpn (Z.of_nat (length rpn)) = Ok (rpn, st)).
Proof.
  intros Hops Hall rpn. unfold rpn. rewrite writerpn_rewrite by done.
  split_and!; [done| |].
  - intros bs st'. apply rewrite_instrs_length.
  - apply rewrite_instrs_plain.
Qed.

(** X8. For an expression whose value is not known, [allocpatch] compares
    the number of bytes that [writerpn] wrote with the size that the front
    end announced ([nRPNPatchSize]), which is also the size of the buffer:
    the patch is returned, with the rewritten expression and its length,
    when the announced size is the sum of the sizes of the rewritten
    instructions; a smaller announced size makes [writerpn] write past the
    end of the buffer, and a larger one fails the assertion. *)
Theorem allocpatch_size_check fe st (type : Z) (expr : Expression) (ofs : Z)
    (instrs : list Instr) (st1 st2 : State) (r : Registry) (bs : list Z)
    (st' : State) :
  rpn_opcodes_ok → Forall instr_ok instrs →
  isKnown expr = false →
  tRPN expr = concat (encode <$> instrs) →
  nRPNLength expr = Z.of_nat (length (tRPN expr)) →
  nRPNLength expr < 4294967296 →
  0 ≤ nRPNPatchSize expr < 4294967296 →
  malloc st = (true, st1) → malloc st1 = (true, st2) →
  out_RegisterNode (registry st2) (fstk_GetFileStack fe) = Ok r →
  rewrite_instrs fe (set_registry st2 r) instrs = Ok (bs, st') →
  let size := Z.of_nat (sum_list (rewritten_size <$> instrs)) in
  Z.of_nat (length bs) = size ∧
  allocpatch fe st type expr ofs =
    if nRPNPatchSize expr <? size then Err Undefined
    else if nRPNPatchSize expr =? size then
      Ok (mkPatch (fstk_GetFileStack fe) (u32 (lexer_GetLineNo fe)) (u32 ofs)
                  (sect_GetSymbolSection fe) (u32 (sect_GetSymbolOffset fe))
                  (u8 type) size bs, st')
    else Err AssertFailed.
Proof.
  intros Hops Hall Hknown HtRPN Hlen Hlen32 Hsize Hm1 Hm2 Hr Hrw size.
  assert (Hbs : Z.of_nat (length bs) = size).
  { unfold size. f_equal. by eapply rewrite_instrs_length. }
  split; [done|].
  unfold allocpatch. rewrite Hm1. cbn [negb]. rewrite Hm2. cbn [negb].
  rewrite Hr. step_bind. rewrite Hknown.
  assert (Hu : u32 (nRPNLength expr)
               = Z.of_nat (length (concat (encode <$> instrs)))).
  { unfold u32. rewrite Z.mod_small by lia. by rewrite Hlen, HtRPN. }
  rewrite Hu, HtRPN, writerpn_rewrite, Hrw by done. step_bind.
  assert (Hp : u32 (nRPNPatchSize expr) = nRPNPatchSize expr)
    by (unfold u32; by rewrite Z.mod_small by lia).
  rewrite Hp, Hbs.
  destruct (Z.ltb_spec (nRPNPatchSize expr) size) as [|Hge]; [done|].
  assert (Hs : u32 size = size) by (unfold u32; rewrite Z.mod_small; lia).
  rewrite Hs.
  destruct (Z.eqb_spec size (nRPNPatchSize expr)) as [Heq|Hne]; cbn [negb].
  - rewrite <- Heq, Z.eqb_refl. done.
  - by destruct (Z.eqb_spec (nRPNPatchSize expr) size) as [|_].
Qed.

Lemma read_tzSym_unterminated (room : nat) (pre name : list Z) :
  chars name →
  read_tzSym room (pre ++ name) (length pre) = Err Undefined.
Proof.
  intros Hname. revert room pre.
  induction Hname as [|b name Hb _ IH]; intros room pre;
    (destruct room as [|room]; [done|]); simpl.
  - unfold popbyte. rewrite app_nil_r, lookup_ge_None_2 by lia. done.
  - rewrite popbyte_middle. step_bind. unfold u8.
    rewrite Z.mod_small by lia.
    destruct (Z.eqb_spec b 0) as [|_]; [lia|].
    replace (pre ++ b :: name) with ((pre ++ [b]) ++ name)
      by (by rewrite <- app_assoc).
    replace (S (length pre)) with (length (pre ++ [b]))
      by (rewrite length_app; simpl; lia).
    rewrite IH. done.
Qed.

(** X9. The name that follows a push-named-symbol or a
    push-named-symbol's-bank opcode is copied to the 512 bytes of [tzSym]
    up to its terminator without a check: with 512 or more characters
    before the terminator the copy runs past the end of [tzSym], and with
    no terminator before the end of the expression it reads past the end
    of the expression; both are undefined behaviour, whatever the symbol
    table holds. *)
Theorem writerpn_name_overflow fe st (out pre : list Z) (op : Z)
    (name post : list Z) :
  rpn_opcodes_ok → op = RPN_SYM ∨ op = RPN_BANK_SYM → chars name →
  ((tzSym_size ≤ length name)%nat →
   writerpn_body fe st out (pre ++ op :: name ++ post) (length pre)
     = Err Undefined) ∧
  writerpn_body fe st out (pre ++ op :: name) (length pre) = Err Undefined.
Proof.
  intros Hops Hop Hname.
  destruct (rpn_opcodes_bytes Hops) as (_ & Hsym & Hbank & _).
  destruct (rpn_opcodes_distinct Hops) as (H1 & H2 & H3 & _).
  assert (Hread : ∀ rest,
    read_tzSym tzSym_size (pre ++ op :: rest) (S (length pre)) = Err Undefined →
    writerpn_body fe st out (pre ++ op :: rest) (length pre) = Err Undefined).
  { intros rest Hrest. unfold writerpn_body.
    rewrite popbyte_middle. step_bind.
    destruct Hop as [-> | ->].
    - rewrite Hsym. destruct (Z.eqb_spec RPN_SYM RPN_CONST) as [|_]; [done|].
      by rewrite Z.eqb_refl, Hrest.
    - rewrite Hbank.
      destruct (Z.eqb_spec RPN_BANK_SYM RPN_CONST) as [|_]; [done|].
      destruct (Z.eqb_spec RPN_BANK_SYM RPN_SYM) as [|_]; [done|].
      by rewrite Z.eqb_refl, Hrest. }
  split.
  - intros Hlen. apply Hread.
    replace (pre ++ op :: name ++ post)
      with ((pre ++ [op]) ++ name ++ post) by (by rewrite <- app_assoc).
    replace (S (length pre)) with (length (pre ++ [op]))
      by (rewrite length_app; simpl; lia).
    by apply read_tzSym_overflow.
  - apply Hread.
    replace (pre ++ op :: name) with ((pre ++ [op]) ++ name)
      by (by rewrite <- app_assoc).
    replace (S (length pre)) with (length (pre ++ [op]))
      by (rewrite length_app; simpl; lia).
    by apply read_tzSym_unterminated.
Qed.

End instructions.

Lemma writerpn_instructions_witness :
  writerpn (H := example_linkdefs) example_frontend example_state []
           [129; 75; 0; 5; 81; 99; 0] 7
    = Ok ([128; 42; 0; 0; 0; 5; 81; 99; 0], example_state).
Proof.
  refine (eq_trans
            (proj1 (writerpn_instructions (ld := example_linkdefs)
                      example_frontend example_state
                      [ISym [75]; IOther 5; IBankSect [99]] _ _)) _).
  - exact example_linkdefs_ok.
  - repeat apply Forall_cons_2; try apply Forall_nil_2.
    + solve_is_name.
    + simpl. lia.
    + repeat apply Forall_cons_2; try apply Forall_nil_2; lia.
  - reflexivity.
Defined.

Lemma allocpatch_size_check_witness :
  ∃ st',
    allocpatch (H := example_linkdefs) example_frontend example_state 1
               expr_Lab 0
      = Ok (mkPatch 3%positive 10 0 (Some 1%positive) 4 1 5
                    [129; 0; 0; 0; 0], st').
Proof.
  destruct (rewrite_instrs (H := example_linkdefs) example_frontend
              (set_registry example_state
                 (registry_after example_registry [3%positive]))
              [ISym [76; 97; 98]]) as [[bs st']|e] eqn:Hrw;
    [|by vm_compute in Hrw].
  exists st'.
  destruct (allocpatch_size_check (ld := example_linkdefs) example_frontend
              example_state 1 expr_Lab 0 [ISym [76; 97; 98]]
              example_state example_state
              (registry_after example_registry [3%positive]) bs st')
    as [_ Halloc].
  - exact example_linkdefs_ok.
  - apply Forall_cons_2; [solve_is_name|apply Forall_nil_2].
  - reflexivity.
  - reflexivity.
  - reflexivity.
  - simpl. lia.
  - simpl. lia.
  - reflexivity.
  - reflexivity.
  - by vm_compute.
  - exact Hrw.
  - pose proof Hrw as Hbs. vm_compute in Hbs. injection Hbs as <- _.
    exact Halloc.
Defined.

Lemma writerpn_name_overflow_witness :
  writerpn_body (H := example_linkdefs) example_frontend example_state []
                (129 :: replicate 512 65 ++ [0]) 0
    = Err Undefined.
Proof.
  refine (proj1 (writerpn_name_overflow (ld := example_linkdefs)
                   example_frontend example_state [] [] 129
                   (replicate 512 65) [0] _ _ _) _).
  - exact example_linkdefs_ok.
  - by left.
  - by apply Forall_replicate.
  - rewrite length_replicate. unfold tzSym_size. lia.
Defined.

(** ** Symbol IDs as positions *)

Lemma malloc_nbSymbols (st st' : State) (ok : bool) :
  malloc st = (ok, st') → nbSymbols st' = nbSymbols st.
Proof.
  unfold malloc. destruct (mallocs st); intros [= <- <-]; done.
Qed.

Lemma numbered_same (st st' : State) :
  symbols st' = symbols st → objectSymbols st' = objectSymbols st →
  nbSymbols st' = nbSymbols st → numbered st → numbered st'.
Proof.
  intros Hs Ho Hn [Hcount Hb Hid].
  constructor; rewrite ?Hs, ?Ho, ?Hn; done.
Qed.

Lemma numbered_lookup (st : State) (refs : list (positive * bool))
    (a : positive) (s : Symbol) :
  tracked st refs → numbered st → symbols st !! a = Some s →
  sym_ID s ≠ NO_ID →
  objectSymbols st !! Z.to_nat (sym_ID s) = Some a ∧
  0 ≤ sym_ID s < nbSymbols st.
Proof.
  intros Htr [Hcount Hb Hid] Hs Hne.
  apply (tracked_ID _ _ Htr a s Hs) in Hne.
  apply list_elem_of_lookup in Hne as [i Hi].
  destruct (Hid i a Hi) as (s' & Hs' & Hi').
  rewrite Hs in Hs'. injection Hs' as <-.
  apply lookup_lt_Some in Hi as Hlt.
  rewrite Hi', Nat2Z.id, Hcount. split; [done|lia].
Qed.

Lemma registerSymbol_numbered (st st' : State) (a : positive) (s : Symbol)
    (refs : list (positive * bool)) :
  tracked st refs → numbered st → symbols st !! a = Some s →
  sym_ID s = NO_ID → registerSymbol st a = Ok st' → numbered st'.
Proof.
  intros Htr [Hcount Hb Hid] Hs Hno Hreg.
  apply registerSymbol_Ok in Hreg as (s' & r & Hs' & _ & Hnb & ->).
  rewrite Hs in Hs'. injection Hs' as <-.
  assert (Ha : a ∉ objectSymbols st).
  { intros Ha. by apply (tracked_ID _ _ Htr a s Hs) in Ha. }
  assert (Hu : u32 (nbSymbols st + 1) = nbSymbols st + 1).
  { unfold u32, NO_ID in *. rewrite Z.mod_small; lia. }
  constructor; simpl; rewrite ?Hu.
  - rewrite length_app. simpl. lia.
  - unfold NO_ID in *. lia.
  - intros i b Hi. apply lookup_app_Some in Hi as [Hi|[Hlen Hi]].
    + assert (Hba : b ≠ a).
      { intros ->. apply Ha. by eapply list_elem_of_lookup_2. }
      rewrite lookup_insert_ne by done. by apply Hid.
    + apply list_lookup_singleton_Some in Hi as [Hi <-].
      rewrite lookup_insert_eq. eexists. split; [done|]. simpl. lia.
Qed.

Lemma getSymbolID_result (fe : FrontEnd) (st st' : State) (a : positive)
    (id : Z) :
  getSymbolID fe st a = Ok (id, st') →
  ∃ s', symbols st' !! a = Some s' ∧ sym_ID s' = id.
Proof.
  unfold getSymbolID. intros Hget.
  apply bind_Ok in Hget as (s & Hs & Hget).
  apply bind_Ok in Hget as (st1 & Hst1 & Hget).
  apply bind_Ok in Hget as (s1 & Hs1 & Hget). injection Hget as <- <-.
  apply load_Ok in Hs1. eauto.
Qed.

Lemma getSymbolID_numbered (fe : FrontEnd) (st st' : State) (a : positive)
    (id : Z) (refs : list (positive * bool)) :
  tracked st refs → numbered st → getSymbolID fe st a = Ok (id, st') →
  numbered st'.
Proof.
  intros Htr Hnum Hget.
  apply getSymbolID_Ok in Hget as (s & Hs & [(Hid & Hpc & Hreg)|[Hcase ->]]);
    [|done].
  by eapply registerSymbol_numbered.
Qed.

Lemma front_end_step_numbered (st st' : State) :
  numbered st → front_end_step st st' → numbered st'.
Proof.
  intros [Hcount Hb Hid] [Ho Hn Hkept Hnew].
  constructor; rewrite ?Ho, ?Hn.
  - done.
  - done.
  - intros i a Hi. destruct (Hid i a Hi) as (s & Hs & Hsi).
    destruct (Hkept a s Hs) as (s' & Hs' & Heq). exists s'.
    split; [done|congruence].
Qed.

Lemma registerSymbol_kept (st st' : State) (a : positive) (s : Symbol) :
  symbols st !! a = Some s → sym_ID s = NO_ID →
  registerSymbol st a = Ok st' →
  IDs_kept st st' ∧ objectSymbols st `prefix_of` objectSymbols st'.
Proof.
  intros Hs Hno Hreg.
  apply registerSymbol_Ok in Hreg as (s' & r & Hs' & _ & Hnb & ->).
  split.
  - intros b sb Hb Hbid. simpl. exists sb. split; [|done].
    rewrite lookup_insert_ne; [done|]. intros ->. congruence.
  - simpl. by apply prefix_app_r.
Qed.

Lemma IDs_kept_refl (st : State) : IDs_kept st st.
Proof. intros a s Hs _. eauto. Qed.

Lemma IDs_kept_trans (st1 st2 st3 : State) :
  IDs_kept st1 st2 → IDs_kept st2 st3 → IDs_kept st1 st3.
Proof.
  intros H12 H23 a s Hs Hid.
  destruct (H12 a s Hs Hid) as (s2 & Hs2 & Heq2).
  destruct (H23 a s2 Hs2) as (s3 & Hs3 & Heq3); [congruence|].
  exists s3. split; [done|congruence].
Qed.

Lemma IDs_kept_same (st st' : State) :
  symbols st' = symbols st → IDs_kept st st'.
Proof. intros Heq a s Hs _. rewrite Heq. eauto. Qed.

Lemma getSymbolID_kept (fe : FrontEnd) (st st' : State) (a : positive)
    (id : Z) :
  getSymbolID fe st a = Ok (id, st') →
  IDs_kept st st' ∧ objectSymbols st `prefix_of` objectSymbols st'.
Proof.
  intros Hget.
  apply getSymbolID_Ok in Hget as (s & Hs & [(Hid & Hpc & Hreg)|[Hcase ->]]).
  - by eapply registerSymbol_kept.
  - split; [apply IDs_kept_refl|done].
Qed.

Section positions.
Context {ld : Linkdefs}.
Implicit Types (fe : FrontEnd) (st : State) (refs : list (positive * bool)).

Lemma writerpn_loop_numbered (fuel : nat) fe st (rpnexpr rpn : list Z)
    (rpnlen : Z) (offset : nat) (rpnexpr' : list Z) st' refs :
  tracked st refs → numbered st →
  writerpn_loop fuel fe st rpnexpr rpn rpnlen offset = Ok (rpnexpr', st') →
  numbered st'.
Proof.
  revert st rpnexpr offset refs.
  induction fuel as [|fuel IH]; intros st rpnexpr offset refs Htr Hnum Hloop;
    simpl in *; destruct (Z.of_nat offset <? rpnlen);
    try discriminate; try (by injection Hloop as <- <-).
  bind_inv Hloop. destruct a as [[o1 out1] st1].
  apply writerpn_body_instr in Heqr.
  destruct (rpn_instr fe rpn offset) as [[o ref]|]; [|done].
  destruct ref as [[a pc]|].
  - destruct Heqr as (-> & -> & id & Hget).
    eapply IH; [|  |done].
    + by eapply getSymbolID_tracked.
    + by eapply getSymbolID_numbered.
  - destruct Heqr as [-> ->]. by eapply IH.
Qed.

Lemma writerpn_loop_kept (fuel : nat) fe st (rpnexpr rpn : list Z)
    (rpnlen : Z) (offset : nat) (rpnexpr' : list Z) st' :
  writerpn_loop fuel fe st rpnexpr rpn rpnlen offset = Ok (rpnexpr', st') →
  IDs_kept st st' ∧ objectSymbols st `prefix_of` objectSymbols st'.
Proof.
  revert st rpnexpr offset.
  induction fuel as [|fuel IH]; intros st rpnexpr offset Hloop;
    simpl in *; destruct (Z.of_nat offset <? rpnlen);
    try discriminate;
    try (injection Hloop as <- <-; split; [apply IDs_kept_refl|done]).
  bind_inv Hloop. destruct a as [[o1 out1] st1].
  apply writerpn_body_instr in Heqr.
  destruct (rpn_instr fe rpn offset) as [[o ref]|]; [|done].
  destruct ref as [[a pc]|].
  - destruct Heqr as (-> & -> & id & Hget).
    apply getSymbolID_kept in Hget as [Hk1 Hp1].
    destruct (IH _ _ _ Hloop) as [Hk2 Hp2].
    split; [by eapply IDs_kept_trans|by etrans].
  - destruct Heqr as [-> ->]. by eapply IH.
Qed.

Lemma allocpatch_numbered fe st (type : Z) (expr : Expression) (ofs : Z)
    (patch : Patch) st' refs :
  tracked st refs → numbered st →
  allocpatch fe st type expr ofs = Ok (patch, st') → numbered st'.
Proof.
  intros Htr Hnum Halloc.
  apply allocpatch_Ok in Halloc
    as (st1 & st2 & r & pRPN & Hm1 & Hm2 & Hr & Hrpn & _).
  apply malloc_nbSymbols in Hm1 as Hn1. apply malloc_nbSymbols in Hm2 as Hn2.
  apply malloc_same in Hm1 as (Hs1 & Ho1 & _).
  apply malloc_same in Hm2 as (Hs2 & Ho2 & _).
  assert (Htr2 : tracked (set_registry st2 r) refs).
  { eapply tracked_same; [| |exact Htr]; simpl; congruence. }
  assert (Hnum2 : numbered (set_registry st2 r)).
  { eapply numbered_same; [| | |exact Hnum]; simpl; congruence. }
  destruct (isKnown expr).
  - by destruct Hrpn as [_ ->].
  - by eapply writerpn_loop_numbered.
Qed.

Lemma allocpatch_kept fe st (type : Z) (expr : Expression) (ofs : Z)
    (patch : Patch) st' :
  allocpatch fe st type expr ofs = Ok (patch, st') →
  IDs_kept st st' ∧ objectSymbols st `prefix_of` objectSymbols st'.
Proof.
  intros Halloc.
  apply allocpatch_Ok in Halloc
    as (st1 & st2 & r & pRPN & Hm1 & Hm2 & Hr & Hrpn & _).
  apply malloc_same in Hm1 as (Hs1 & Ho1 & _).
  apply malloc_same in Hm2 as (Hs2 & Ho2 & _).
  assert (Hk : IDs_kept st (set_registry st2 r))
    by (apply IDs_kept_same; simpl; congruence).
  assert (Ho : objectSymbols (set_registry st2 r) = objectSymbols st)
    by (simpl; congruence).
  destruct (isKnown expr).
  - destruct Hrpn as [_ ->]. split; [done|]. by rewrite Ho.
  - apply writerpn_loop_kept in Hrpn as [Hk' Hp'].
    split; [by eapply IDs_kept_trans|]. by rewrite <- Ho.
Qed.

Lemma output_step_kept st refs1 st' :
  output_step st refs1 st' →
  IDs_kept st st' ∧ objectSymbols st `prefix_of` objectSymbols st'.
Proof.
  intros Hstep.
  destruct Hstep as [st st' Hfe | fe st type expr ofs st' Hp
                    | fe st type expr msg ofs ok st' Hm Ha
                    | fe st type expr msg ofs ok st' Hm Ha].
  - split.
    + intros a s Hs _. by apply (fe_kept _ _ Hfe).
    + by rewrite (fe_objectSymbols _ _ Hfe).
  - unfold out_CreatePatch in Hp. bind_inv Hp. destruct a as [patch st1].
    destruct (pCurrentSection st1) as [cur|]; [|done].
    bind_inv Hp. injection Hp as <-.
    by apply allocpatch_kept in Heqr.
  - unfold out_CreateAssert in Ha.
    destruct (malloc st) as [ok1 st1] eqn:Hm1. simpl in Hm. subst ok1.
    cbn [negb] in Ha. bind_inv Ha. destruct a as [patch st2].
    apply malloc_same in Hm1 as (Hs1 & Ho1 & _).
    destruct (allocpatch_kept _ _ _ _ _ _ _ Heqr) as [Hk Hpre].
    assert (Hk2 : IDs_kept st st2).
    { eapply IDs_kept_trans; [|exact Hk]. by apply IDs_kept_same. }
    rewrite Ho1 in Hpre.
    destruct (malloc st2) as [ok2 st3] eqn:Hm2.
    apply malloc_same in Hm2 as (Hs2 & Ho2 & _).
    assert (Hk3 : IDs_kept st st3).
    { eapply IDs_kept_trans; [exact Hk2|]. by apply IDs_kept_same. }
    destruct ok2; injection Ha as <- <-; simpl; rewrite ?Ho2; done.
  - unfold out_CreateAssert in Ha.
    destruct (malloc st) as [ok1 st1] eqn:Hm1. simpl in Hm. subst ok1.
    cbn [negb] in Ha. injection Ha as <- <-.
    apply malloc_same in Hm1 as (Hs1 & Ho1 & _).
    split; [by apply IDs_kept_same|by rewrite Ho1].
Qed.

Lemma output_steps_kept st refs1 st' :
  output_steps st refs1 st' →
  IDs_kept st st' ∧ objectSymbols st `prefix_of` objectSymbols st'.
Proof.
  induction 1 as [st | st1 l1 st2 l2 st3 Hstep _ [Hk3 Hp3]].
  - split; [apply IDs_kept_refl|done].
  - destruct (output_step_kept _ _ _ Hstep) as [Hk2 Hp2].
    split; [by eapply IDs_kept_trans|by etrans].
Qed.

Lemma registerExportedSymbols_kept st (syms : list positive) st' :
  registerExportedSymbols st syms = Ok st' →
  IDs_kept st st' ∧ objectSymbols st `prefix_of` objectSymbols st'.
Proof.
  revert st. induction syms as [|a syms IH]; intros st Hsweep.
  - injection Hsweep as <-. split; [apply IDs_kept_refl|done].
  - cbn [registerExportedSymbols] in Hsweep. bind_inv Hsweep.
    rename a0 into st1.
    apply registerExportedSymbol_Ok in Heqr
      as (s & Hs & [(Hex & Hid & Hreg)|[Hcase ->]]).
    + destruct (registerSymbol_kept _ _ _ _ Hs Hid Hreg) as [Hk1 Hp1].
      destruct (IH _ Hsweep) as [Hk' Hp'].
      split; [by eapply IDs_kept_trans|by etrans].
    + by apply IH.
Qed.

Lemma output_step_numbered st refs1 st' refs :
  tracked st refs → numbered st → output_step st refs1 st' → numbered st'.
Proof.
  intros Htr Hnum Hstep.
  destruct Hstep as [st st' Hfe | fe st type expr ofs st' Hp
                    | fe st type expr msg ofs ok st' Hm Ha
                    | fe st type expr msg ofs ok st' Hm Ha].
  - by eapply front_end_step_numbered.
  - unfold out_CreatePatch in Hp. bind_inv Hp. destruct a as [patch st1].
    destruct (pCurrentSection st1) as [cur|]; [|done].
    bind_inv Hp. injection Hp as <-.
    eapply numbered_same; [..|by eapply allocpatch_numbered]; done.
  - unfold out_CreateAssert in Ha.
    destruct (malloc st) as [ok1 st1] eqn:Hm1. simpl in Hm. subst ok1.
    cbn [negb] in Ha. bind_inv Ha. destruct a as [patch st2].
    apply malloc_nbSymbols in Hm1 as Hn1.
    apply malloc_same in Hm1 as (Hs1 & Ho1 & _).
    assert (Hnum2 : numbered st2).
    { eapply allocpatch_numbered; [| |done].
      - by eapply tracked_same.
      - by eapply numbered_same. }
    destruct (malloc st2) as [ok2 st3] eqn:Hm2.
    apply malloc_nbSymbols in Hm2 as Hn2.
    apply malloc_same in Hm2 as (Hs2 & Ho2 & _).
    destruct ok2; injection Ha as <- <-;
      (eapply numbered_same; [..|exact Hnum2]; done).
  - unfold out_CreateAssert in Ha.
    destruct (malloc st) as [ok1 st1] eqn:Hm1. simpl in Hm. subst ok1.
    cbn [negb] in Ha. injection Ha as <- <-.
    apply malloc_nbSymbols in Hm1 as Hn1.
    apply malloc_same in Hm1 as (Hs1 & Ho1 & _).
    by eapply numbered_same.
Qed.

Lemma output_steps_numbered st refs1 st' refs :
  tracked st refs → numbered st → output_steps st refs1 st' → numbered st'.
Proof.
  intros Htr Hnum Hsteps. revert refs Htr Hnum.
  induction Hsteps as [st | st1 l1 st2 l2 st3 Hstep _ IH];
    intros refs Htr Hnum; [done|].
  apply (IH (refs ++ l1)); [by eapply output_step_tracked|].
  by eapply output_step_numbered.
Qed.

Lemma registerExportedSymbols_numbered st (syms : list positive) st' refs :
  tracked st refs → numbered st →
  registerExportedSymbols st syms = Ok st' → numbered st'.
Proof.
  revert st refs. induction syms as [|a syms IH];
    intros st refs Htr Hnum Hsweep.
  - by injection Hsweep as <-.
  - cbn [registerExportedSymbols] in Hsweep. bind_inv Hsweep.
    rename a0 into st1.
    apply registerExportedSymbol_Ok in Heqr
      as (s & Hs & [(Hex & Hid & Hreg)|[Hcase ->]]).
    + destruct (registerSymbol_tracked _ _ _ _ _ Htr Hs Hid Hreg)
        as (Htr1 & _).
      pose proof (registerSymbol_numbered _ _ _ _ _ Htr Hnum Hs Hid Hreg)
        as Hnum1.
      by eapply IH.
    + by eapply IH.
Qed.

Lemma no_symbol_registered_numbered st :
  no_symbol_registered st → nbSymbols st = 0 → numbered st.
Proof.
  intros [Ho _] Hzero. constructor; rewrite ?Ho, ?Hzero; [done..|].
  intros i a Hi. by rewrite lookup_nil in Hi.
Qed.

(** X10. Symbol IDs are positions.  Along any run of the module from a
    state in which no symbol is registered and the counter is 0, and after
    the sweep of [out_WriteObject], [nbSymbols] is the length of the list
    of object symbols, the symbol at position [i] of that list has ID [i],
    and a symbol with an ID is found in the list at the position its ID
    gives; in particular two symbols with an ID have different IDs. *)
Theorem symbol_IDs_are_positions st0 refs st1 (syms : list positive) st2 :
  no_symbol_registered st0 → nbSymbols st0 = 0 →
  output_steps st0 refs st1 →
  registerExportedSymbols st1 syms = Ok st2 →
  nbSymbols st2 = Z.of_nat (length (objectSymbols st2)) ∧
  (∀ (i : nat) a, objectSymbols st2 !! i = Some a →
                  ∃ s, symbols st2 !! a = Some s ∧ sym_ID s = Z.of_nat i) ∧
  (∀ a s, symbols st2 !! a = Some s → sym_ID s ≠ NO_ID →
          objectSymbols st2 !! Z.to_nat (sym_ID s) = Some a ∧
          0 ≤ sym_ID s < nbSymbols st2) ∧
  (∀ a b sa sb, symbols st2 !! a = Some sa → symbols st2 !! b = Some sb →
                sym_ID sa ≠ NO_ID → sym_ID sa = sym_ID sb → a = b).
Proof.
  intros Hinit Hzero Hsteps Hsweep.
  assert (Htr0 : tracked st0 []) by (by apply no_symbol_registered_tracked).
  pose proof (no_symbol_registered_numbered _ Hinit Hzero) as Hnum0.
  pose proof (output_steps_numbered _ _ _ _ Htr0 Hnum0 Hsteps) as Hnum1.
  pose proof (output_steps_tracked _ _ _ _ Htr0 Hsteps) as Htr1.
  pose proof (registerExportedSymbols_numbered _ _ _ _ Htr1 Hnum1 Hsweep)
    as Hnum2.
  destruct (registerExportedSymbols_sweep _ _ _ _ Htr1 Hsweep)
    as (swept & _ & Htr2 & _).
  split_and!.
  - by destruct Hnum2.
  - by destruct Hnum2.
  - intros a s. by apply (numbered_lookup st2 _ a s Htr2 Hnum2).
  - intros a b sa sb Ha Hb Hid Heq.
    destruct (numbered_lookup st2 _ a sa Htr2 Hnum2 Ha Hid) as [Hia _].
    destruct (numbered_lookup st2 _ b sb Htr2 Hnum2 Hb) as [Hib _];
      [congruence|].
    rewrite Heq in Hia. congruence.
Qed.

(** X11. An ID given to a symbol is never changed, and the list of object
    symbols only grows at its end: along any run of the module and the
    sweep of [out_WriteObject], a symbol that has an ID keeps it, and the
    list before is a prefix of the list after.  The IDs embedded in the
    patches built earlier stay the IDs of the symbols they refer to. *)
Theorem symbol_IDs_stable st refs st1 (syms : list positive) st2 :
  output_steps st refs st1 →
  registerExportedSymbols st1 syms = Ok st2 →
  (∀ a s, symbols st !! a = Some s → sym_ID s ≠ NO_ID →
          ∃ s2, symbols st2 !! a = Some s2 ∧ sym_ID s2 = sym_ID s) ∧
  objectSymbols st `prefix_of` objectSymbols st2.
Proof.
  intros Hsteps Hsweep.
  destruct (output_steps_kept _ _ _ Hsteps) as [Hk1 Hp1].
  destruct (registerExportedSymbols_kept _ _ _ Hsweep) as [Hk2 Hp2].
  split; [by eapply IDs_kept_trans|by etrans].
Qed.

End positions.

Lemma symbol_IDs_are_positions_witness :
  let st2 := after_sweep (H := example_linkdefs) example_frontend
               (state_after (H := example_linkdefs) example_state
                  [call_Lab]) in
  nbSymbols st2 = 2 ∧
  ∃ s, symbols st2 !! 4%positive = Some s ∧ sym_ID s = 1.
Proof.
  intros st2.
  destruct (symbol_IDs_are_positions (ld := example_linkdefs) example_state
              (expression_refs (H := example_linkdefs) example_frontend
                 expr_Lab ++ [])
              (state_after (H := example_linkdefs) example_state [call_Lab])
              (sym_ForEach example_frontend) st2) as (Hcount & Hpos & _).
  - split; [done|]. apply (bool_decide_unpack _). by vm_compute.
  - reflexivity.
  - exact example_run.
  - by vm_compute.
  - split; [exact Hcount|]. apply (Hpos 1%nat 4%positive). by vm_compute.
Defined.

Lemma symbol_IDs_stable_witness :
  ∃ s2,
    symbols (after_sweep (H := example_linkdefs) example_frontend
               (state_after (H := example_linkdefs) example_state
                  [call_Lab])) !! 2%positive = Some s2 ∧
    sym_ID s2 = 0.
Proof.
  destruct (symbol_IDs_stable (ld := example_linkdefs)
              (state_after (H := example_linkdefs) example_state [call_Lab])
              []
              (state_after (H := example_linkdefs) example_state [call_Lab])
              (sym_ForEach example_frontend)
              (after_sweep (H := example_linkdefs) example_frontend
                 (state_after (H := example_linkdefs) example_state
                    [call_Lab]))) as [Hk _].
  - apply steps_done.
  - by vm_compute.
  - destruct (Hk 2%positive (mkSymbol [76; 97; 98] false 2%positive 3 8 0))
      as (s2 & Hs2 & Hid); [by vm_compute|done|eauto].
Defined.

(** X12. [getSymbolID] gives a symbol one ID: the value returned is the
    ID that the symbol has from then on, and a second call returns it again
    and changes nothing.  The ID is a real one (not the all-ones value) for
    every symbol but the PC symbol. *)
Theorem getSymbolID_again (fe : FrontEnd) (st st' : State) (a : positive)
    (id : Z) :
  getSymbolID fe st a = Ok (id, st') →
  (∃ s', symbols st' !! a = Some s' ∧ sym_ID s' = id) ∧
  getSymbolID fe st' a = Ok (id, st') ∧
  (sym_IsPC fe a = false → id ≠ NO_ID).
Proof.
  intros Hget.
  destruct (getSymbolID_result _ _ _ _ _ Hget) as (s' & Hs' & <-).
  split; [by eauto|].
  pose proof Hget as Hcases.
  apply getSymbolID_Ok in Hcases
    as (s & Hs & [(Hid & Hpc & Hreg)|[Hcase ->]]).
  - assert (Hne : sym_ID s' ≠ NO_ID).
    { apply registerSymbol_Ok in Hreg as (s0 & r & Hs0 & _ & Hnb & ->).
      simpl in Hs'. rewrite lookup_insert_eq in Hs'. by injection Hs' as <-. }
    split; [by apply getSymbolID_known|done].
  - split; [done|]. intros Hpc. rewrite Hs in Hs'. injection Hs' as <-.
    destruct Hcase; congruence.
Qed.

Lemma getSymbolID_again_witness :
  ∃ st',
    getSymbolID example_frontend example_state 2%positive = Ok (0, st') ∧
    getSymbolID example_frontend st' 2%positive = Ok (0, st').
Proof.
  destruct (getSymbolID example_frontend example_state 2%positive)
    as [[id st']|e] eqn:Hget; [|by vm_compute in Hget].
  pose proof Hget as Hid. vm_compute in Hid. injection Hid as <- _.
  exists st'. split; [done|].
  by destruct (getSymbolID_again _ _ _ _ _ Hget) as (_ & Hagain & _).
Defined.

Lemma registerSymbol_dom (st st' : State) (a b : positive) :
  registerSymbol st a = Ok st' → is_Some (symbols st !! b) →
  is_Some (symbols st' !! b).
Proof.
  intros Hreg Hb.
  apply registerSymbol_Ok in Hreg as (s & r & Hs & _ & _ & ->). simpl.
  destruct (decide (b = a)) as [->|Hne].
  - rewrite lookup_insert_eq. eauto.
  - by rewrite lookup_insert_ne.
Qed.

Lemma registerExportedSymbols_exported (st : State) (syms : list positive)
    (st' : State) (a : positive) (s' : Symbol) :
  registerExportedSymbols st syms = Ok st' → symbols st' !! a = Some s' →
  ∃ s, symbols st !! a = Some s ∧ sym_isExported s' = sym_isExported s.
Proof.
  revert st. induction syms as [|b syms IH]; intros st Hsweep Hs'.
  - injection Hsweep as <-. eauto.
  - cbn [registerExportedSymbols] in Hsweep. bind_inv Hsweep.
    rename a0 into st1.
    destruct (IH _ Hsweep Hs') as (s1 & Hs1 & Hex1).
    apply registerExportedSymbol_Ok in Heqr
      as (s & Hs & [(Hex & Hid & Hreg)|[Hcase ->]]); [|eauto].
    destruct (registerSymbol_symbols _ _ _ _ _ Hreg Hs1)
      as (s0 & Hs0 & Hex0 & _).
    exists s0. split; [done|congruence].
Qed.

Lemma registerExportedSymbols_dom (st : State) (syms : list positive)
    (st' : State) :
  registerExportedSymbols st syms = Ok st' →
  (∀ b, is_Some (symbols st !! b) → is_Some (symbols st' !! b)) ∧
  (∀ b, b ∈ syms → is_Some (symbols st' !! b)).
Proof.
  revert st. induction syms as [|a syms IH]; intros st Hsweep.
  - injection Hsweep as <-. split; [done|]. by intros b ?%elem_of_nil.
  - cbn [registerExportedSymbols] in Hsweep. bind_inv Hsweep.
    rename a0 into st1. destruct (IH _ Hsweep) as [Hdom Hin].
    apply registerExportedSymbol_Ok in Heqr
      as (s & Hs & [(Hex & Hid & Hreg)|[Hcase ->]]).
    + split.
      * intros b Hb. apply Hdom. by eapply registerSymbol_dom.
      * intros b [->|Hb]%elem_of_cons; [|by apply Hin].
        apply Hdom. eapply registerSymbol_dom; [done|eauto].
    + split; [done|].
      intros b [->|Hb]%elem_of_cons; [|by apply Hin]. apply Hdom. eauto.
Qed.

Lemma registerExportedSymbols_done (st : State) (syms : list positive)
    (st' : State) (a : positive) (s' : Symbol) :
  registerExportedSymbols st syms = Ok st' → a ∈ syms →
  symbols st' !! a = Some s' → sym_isExported s' = true →
  sym_ID s' ≠ NO_ID.
Proof.
  revert st. induction syms as [|b syms IH]; intros st Hsweep Ha Hs' Hex';
    [by apply elem_of_nil in Ha|].
  cbn [registerExportedSymbols] in Hsweep. bind_inv Hsweep.
  rename a0 into st1.
  destruct (decide (a ∈ syms)) as [Hin|Hnotin]; [by eapply IH|].
  apply elem_of_cons in Ha as [->|Ha]; [|done].
  destruct (registerExportedSymbols_exported _ _ _ _ _ Hsweep Hs')
    as (s1 & Hs1 & Hex1).
  destruct (registerExportedSymbols_kept _ _ _ Hsweep) as [Hkept _].
  assert (Hid1 : sym_ID s1 ≠ NO_ID).
  { apply registerExportedSymbol_Ok in Heqr
      as (s & Hs & [(Hex & Hid & Hreg)|[Hcase ->]]).
    - apply registerSymbol_Ok in Hreg as (s0 & r & Hs0 & _ & Hnb & ->).
      simpl in Hs1. rewrite lookup_insert_eq in Hs1. by injection Hs1 as <-.
    - rewrite Hs in Hs1. injection Hs1 as <-.
      destruct Hcase as [Hcase|Hcase]; [congruence|done]. }
  destruct (Hkept b s1 Hs1 Hid1) as (s2 & Hs2 & Heq).
  rewrite Hs' in Hs2. injection Hs2 as <-. congruence.
Qed.

Lemma registerExportedSymbols_nothing (st : State) (syms : list positive) :
  (∀ a, a ∈ syms → is_Some (symbols st !! a)) →
  (∀ a s, a ∈ syms → symbols st !! a = Some s → sym_isExported s = true →
          sym_ID s ≠ NO_ID) →
  registerExportedSymbols st syms = Ok st.
Proof.
  induction syms as [|a syms IH]; intros Hdom Hdone; [done|].
  cbn [registerExportedSymbols].
  destruct (Hdom a) as [s Hs]; [by left|].
  assert (Hone : registerExportedSymbol st a = Ok st).
  { unfold registerExportedSymbol, sym_IsExported.
    apply load_Ok in Hs as Hl. rewrite Hl. step_bind.
    destruct (sym_isExported s) eqn:Hex; [|done].
    destruct (Z.eqb_spec (sym_ID s) NO_ID) as [Hid|_]; [|done].
    exfalso. by apply (Hdone a s); [left|..]. }
  rewrite Hone. step_bind. apply IH.
  - intros b Hb. apply Hdom. by right.
  - intros b sb Hb. apply Hdone. by right.
Qed.

(** X13. After the sweep of [out_WriteObject] every exported symbol that
    [sym_ForEach] visits has an ID, and a second sweep would register
    nothing: it returns the state it is given. *)
Theorem registerExportedSymbols_again (st : State) (syms : list positive)
    (st' : State) :
  registerExportedSymbols st syms = Ok st' →
  (∀ a s', a ∈ syms → symbols st' !! a = Some s' →
           sym_isExported s' = true → sym_ID s' ≠ NO_ID) ∧
  registerExportedSymbols st' syms = Ok st'.
Proof.
  intros Hsweep.
  assert (Hdone : ∀ a s', a ∈ syms → symbols st' !! a = Some s' →
                          sym_isExported s' = true → sym_ID s' ≠ NO_ID).
  { intros a s' Ha. by apply (registerExportedSymbols_done st syms st'). }
  split; [done|]. apply registerExportedSymbols_nothing; [|done].
  by apply (registerExportedSymbols_dom st syms st').
Qed.

Lemma registerExportedSymbols_again_witness :
  let st' := after_sweep (H := example_linkdefs) example_frontend
               example_state in
  registerExportedSymbols st' (sym_ForEach example_frontend) = Ok st'.
Proof.
  intros st'.
  apply (registerExportedSymbols_again example_state
           (sym_ForEach example_frontend) st').
  by vm_compute.
Defined.

(** ** The sources of the records *)

Lemma nodes_kept_refl (r : Registry) : nodes_kept r r.
Proof. by intros b nb Hb _. Qed.

Lemma nodes_kept_trans (r1 r2 r3 : Registry) :
  nodes_kept r1 r2 → nodes_kept r2 r3 → nodes_kept r1 r3.
Proof. intros H12 H23 b nb Hb Hid. apply H23; [|done]. by apply H12. Qed.

Lemma registered_kept (r r' : Registry) (a : positive) :
  nodes_kept r r' → registered r a → registered r' a.
Proof. intros Hk (n & Hn & Hid). exists n. split; [by apply Hk|done]. Qed.

Lemma out_RegisterNode_kept (r : Registry) (a : positive) (r' : Registry) :
  out_RegisterNode r a = Ok r' → nodes_kept r r' ∧ registered r' a.
Proof.
  intros Hrun. split.
  - intros b nb. by apply (out_RegisterNode_loop_frame _ _ _ _ b nb Hrun).
  - by apply (out_RegisterNode_loop_registered _ _ _ _ Hrun).
Qed.

Lemma sources_registered_kept (st st' : State) :
  sources_registered st → nodes_kept (registry st) (registry st') →
  sections st' = sections st → assertions st' = assertions st →
  symbols st' = symbols st → objectSymbols st' = objectSymbols st →
  sources_registered st'.
Proof.
  intros [Hp Ha Hs] Hk Hsec Hass Hsym Hobj.
  constructor; rewrite ?Hsec, ?Hass, ?Hsym, ?Hobj.
  - intros a sect patch Hsect Hin. eapply registered_kept; [done|]. eauto.
  - intros assert Hin. eapply registered_kept; [done|]. eauto.
  - intros a s Hin Hsa. eapply registered_kept; [done|]. eauto.
Qed.

Lemma malloc_mallocs (st st' : State) (ok : bool) :
  malloc st = (ok, st') → pSectionList st' = pSectionList st.
Proof. unfold malloc. destruct (mallocs st); intros [= <- <-]; done. Qed.

Lemma malloc_sources (st st' : State) (ok : bool) :
  malloc st = (ok, st') → sources_registered st → sources_registered st'.
Proof.
  intros Hm Hsrc.
  apply malloc_same in Hm as (Hs & Ho & Hr & Ha & Hsec & _).
  eapply sources_registered_kept; [done|rewrite Hr; apply nodes_kept_refl
                                  |done..].
Qed.

Lemma registerSymbol_nodes_kept (st : State) (a : positive) (st' : State) :
  registerSymbol st a = Ok st' → nodes_kept (registry st) (registry st').
Proof.
  intros Hreg.
  apply registerSymbol_Ok in Hreg as (s & r & Hsa & Hr & Hnb & ->).
  by apply out_RegisterNode_kept in Hr as [Hk _].
Qed.

Lemma registerSymbol_sources (st : State) (a : positive) (st' : State) :
  sources_registered st → registerSymbol st a = Ok st' →
  sources_registered st'.
Proof.
  intros [Hp Ha Hs] Hreg.
  apply registerSymbol_Ok in Hreg as (s & r & Hsa & Hr & Hnb & ->).
  apply out_RegisterNode_kept in Hr as [Hk Hsrc].
  constructor; simpl.
  - intros b sect patch Hsect Hin. eapply registered_kept; [done|]. eauto.
  - intros assert Hin. eapply registered_kept; [done|]. eauto.
  - intros b sb Hin Hsb. destruct (decide (b = a)) as [->|Hne].
    + rewrite lookup_insert_eq in Hsb. by injection Hsb as <-.
    + rewrite lookup_insert_ne in Hsb by done.
      apply elem_of_app in Hin as [Hin|Hin%list_elem_of_singleton];
        [|done].
      eapply registered_kept; [done|]. eauto.
Qed.

Lemma getSymbolID_nodes_kept (fe : FrontEnd) (st : State) (a : positive)
    (id : Z) (st' : State) :
  getSymbolID fe st a = Ok (id, st') →
  nodes_kept (registry st) (registry st').
Proof.
  intros Hget.
  apply getSymbolID_Ok in Hget as (s & Hs & [(Hid & Hpc & Hreg)|[Hcase ->]]).
  - by eapply registerSymbol_nodes_kept.
  - apply nodes_kept_refl.
Qed.

Lemma getSymbolID_sources (fe : FrontEnd) (st : State) (a : positive)
    (id : Z) (st' : State) :
  sources_registered st → getSymbolID fe st a = Ok (id, st') →
  sources_registered st'.
Proof.
  intros Hsrc Hget.
  apply getSymbolID_Ok in Hget as (s & Hs & [(Hid & Hpc & Hreg)|[Hcase ->]]);
    [|done].
  by eapply registerSymbol_sources.
Qed.

Lemma u8_byte (b : Z) : 0 ≤ u8 b < 256.
Proof. unfold u8. apply Z.mod_pos_bound. lia. Qed.

Lemma u8_u8 (b : Z) : u8 (u8 b) = u8 b.
Proof. unfold u8. apply Z.mod_mod. lia. Qed.

Lemma u32_u32 (v : Z) : u32 (u32 v) = u32 v.
Proof. unfold u32. apply Z.mod_mod. lia. Qed.

Lemma fputlong_u32 (v : Z) : fputlong (u32 v) = fputlong v.
Proof. unfold fputlong. by rewrite u32_u32. Qed.

Lemma fputc_u8 (c : Z) : fputc (u8 c) = fputc c.
Proof. unfold fputc. by rewrite u8_u8. Qed.

Lemma writebyte_bytes (out : list Z) (b : Z) :
  byte_list out → byte_list (writebyte out b).
Proof.
  intros Hout. apply Forall_app. split; [done|].
  apply Forall_cons_2; [apply u8_byte|apply Forall_nil_2].
Qed.

Lemma byte_list_u8 (bs : list Z) : byte_list bs → u8 <$> bs = bs.
Proof.
  induction 1 as [|b bs Hb _ IH]; [done|]. rewrite fmap_cons, IH.
  unfold u8. by rewrite Z.mod_small by lia.
Qed.

Lemma copy_string_bytes (rest : list Z) (o : nat) (out : list Z) (o' : nat)
    (out' : list Z) :
  byte_list out → copy_string rest o out = Ok (o', out') → byte_list out'.
Proof.
  revert o out. induction rest as [|b rest IH]; intros o out Hout Hc;
    [done|]. simpl in Hc.
  destruct (u8 b =? 0).
  - injection Hc as <- <-. by apply writebyte_bytes.
  - eapply IH; [|done]. by apply writebyte_bytes.
Qed.

Section sources.
Context {ld : Linkdefs}.
Implicit Types (fe : FrontEnd) (st : State) (expr : Expression).

Lemma writerpn_body_bytes fe st (rpnexpr rpn : list Z) (offset offset' : nat)
    (rpnexpr' : list Z) st' :
  byte_list rpnexpr →
  writerpn_body fe st rpnexpr rpn offset = Ok (offset', rpnexpr', st') →
  byte_list rpnexpr'.
Proof.
  unfold writerpn_body. intros Hout Hbody.
  bind_inv Hbody. destruct a as [rpndata o1].
  destruct (rpndata =? RPN_CONST).
  { bind_inv Hbody. destruct a as [b1 o2].
    bind_inv Hbody. destruct a as [b2 o3].
    bind_inv Hbody. destruct a as [b3 o4].
    bind_inv Hbody. destruct a as [b4 o5].
    injection Hbody as <- <- <-. by repeat apply writebyte_bytes. }
  destruct (rpndata =? RPN_SYM).
  { bind_inv Hbody. destruct a as [tzSym o2].
    destruct (sym_FindSymbol fe tzSym) as [sym|]; [|done].
    destruct (sym_IsConstant fe sym).
    - step_bind_in Hbody. injection Hbody as <- <- <-.
      by repeat apply writebyte_bytes.
    - bind_inv Hbody. destruct a as [[out1 value] st1].
      injection Hbody as <- <- <-.
      bind_inv Heqr1. destruct a as [id st2]. injection Heqr1 as <- <- <-.
      by repeat apply writebyte_bytes. }
  destruct (rpndata =? RPN_BANK_SYM).
  { bind_inv Hbody. destruct a as [tzSym o2].
    destruct (sym_FindSymbol fe tzSym) as [sym|]; [|done].
    bind_inv Hbody. destruct a as [id st2]. injection Hbody as <- <- <-.
    by repeat apply writebyte_bytes. }
  destruct (rpndata =? RPN_BANK_SECT).
  { bind_inv Hbody. destruct a as [o2 out2]. injection Hbody as <- <- <-.
    eapply copy_string_bytes; [|done]. by apply writebyte_bytes. }
  injection Hbody as <- <- <-. by apply writebyte_bytes.
Qed.

Lemma writerpn_loop_nodes_kept (fuel : nat) fe st (rpnexpr rpn : list Z)
    (rpnlen : Z) (offset : nat) (rpnexpr' : list Z) st' :
  byte_list rpnexpr →
  writerpn_loop fuel fe st rpnexpr rpn rpnlen offset = Ok (rpnexpr', st') →
  nodes_kept (registry st) (registry st') ∧ byte_list rpnexpr'.
Proof.
  revert st rpnexpr offset.
  induction fuel as [|fuel IH]; intros st rpnexpr offset Hout Hloop;
    simpl in *; destruct (Z.of_nat offset <? rpnlen);
    try discriminate;
    try (injection Hloop as <- <-; split; [apply nodes_kept_refl|done]).
  bind_inv Hloop. destruct a as [[o1 out1] st1].
  pose proof (writerpn_body_bytes _ _ _ _ _ _ _ _ Hout Heqr) as Hout1.
  apply writerpn_body_instr in Heqr.
  destruct (rpn_instr fe rpn offset) as [[o ref]|]; [|done].
  destruct ref as [[a pc]|].
  - destruct Heqr as (-> & -> & id & Hget).
    apply getSymbolID_nodes_kept in Hget as Hk1.
    destruct (IH _ _ _ Hout1 Hloop) as (Hk' & Hout').
    split; [by eapply nodes_kept_trans|done].
  - destruct Heqr as [-> ->]. by eapply IH.
Qed.

Lemma writerpn_loop_sources (fuel : nat) fe st (rpnexpr rpn : list Z)
    (rpnlen : Z) (offset : nat) (rpnexpr' : list Z) st' :
  sources_registered st →
  writerpn_loop fuel fe st rpnexpr rpn rpnlen offset = Ok (rpnexpr', st') →
  sources_registered st'.
Proof.
  revert st rpnexpr offset.
  induction fuel as [|fuel IH]; intros st rpnexpr offset Hsrc Hloop;
    simpl in *; destruct (Z.of_nat offset <? rpnlen);
    try discriminate; try (by injection Hloop as <- <-).
  bind_inv Hloop. destruct a as [[o1 out1] st1].
  apply writerpn_body_instr in Heqr.
  destruct (rpn_instr fe rpn offset) as [[o ref]|]; [|done].
  destruct ref as [[a pc]|].
  - destruct Heqr as (-> & -> & id & Hget).
    eapply IH; [|done]. by eapply getSymbolID_sources.
  - destruct Heqr as [-> ->]. by eapply IH.
Qed.

Lemma allocpatch_size fe st (type : Z) expr (ofs : Z) (patch : Patch) st' :
  allocpatch fe st type expr ofs = Ok (patch, st') →
  patch_nRPNSize patch = Z.of_nat (length (patch_pRPN patch)).
Proof.
  unfold allocpatch. intros Halloc.
  destruct (malloc st) as [[] st1] eqn:Hm1; [|done]. cbn [negb] in Halloc.
  destruct (malloc st1) as [[] st2] eqn:Hm2; [|done]. cbn [negb] in Halloc.
  bind_inv Halloc. rename a into r.
  bind_inv Halloc. destruct a as [pRPN st3].
  destruct (Z.ltb_spec (if isKnown expr then 5 else u32 (nRPNPatchSize expr))
                       (Z.of_nat (length pRPN))) as [|Hge]; [done|].
  destruct (negb _) eqn:Hneg; [done|].
  injection Halloc as <- <-. apply negb_false_iff, Z.eqb_eq in Hneg.
  cbn [patch_pRPN patch_nRPNSize].
  destruct (isKnown expr).
  - by injection Heqr0 as <- <-.
  - rewrite <- Hneg in Hge. unfold u32 in *.
    pose proof (Z.mod_le (Z.of_nat (length pRPN)) 4294967296).
    lia.
Qed.

Lemma allocpatch_registered fe st (type : Z) expr (ofs : Z) (patch : Patch)
    st' :
  allocpatch fe st type expr ofs = Ok (patch, st') →
  nodes_kept (registry st) (registry st') ∧
  registered (registry st') (patch_src patch) ∧
  byte_list (patch_pRPN patch).
Proof.
  intros Halloc.
  apply allocpatch_Ok in Halloc
    as (st1 & st2 & r & pRPN & Hm1 & Hm2 & Hr & Hrpn & HpRPN & _ & _
        & Hnode & _).
  apply malloc_same in Hm1 as (_ & _ & Hr1 & _).
  apply malloc_same in Hm2 as (_ & _ & Hr2 & _).
  apply out_RegisterNode_kept in Hr as [Hk Hreg].
  rewrite Hnode, HpRPN, <- Hr1, <- Hr2.
  destruct (isKnown expr).
  - destruct Hrpn as [-> ->]. split_and!; [done..|].
    repeat (apply Forall_cons_2; [apply u8_byte|]). apply Forall_nil_2.
  - apply writerpn_loop_nodes_kept in Hrpn as (Hk' & Hbytes);
      [|apply Forall_nil_2].
    split_and!; [by eapply nodes_kept_trans| |done].
    by eapply registered_kept.
Qed.

Lemma allocpatch_sources fe st (type : Z) expr (ofs : Z) (patch : Patch)
    st' :
  sources_registered st →
  allocpatch fe st type expr ofs = Ok (patch, st') →
  sources_registered st'.
Proof.
  intros Hsrc Halloc.
  apply allocpatch_Ok in Halloc
    as (st1 & st2 & r & pRPN & Hm1 & Hm2 & Hr & Hrpn & _).
  apply (malloc_sources _ _ _ Hm1) in Hsrc.
  apply (malloc_sources _ _ _ Hm2) in Hsrc.
  apply out_RegisterNode_kept in Hr as [Hk Hreg].
  assert (Hsrc2 : sources_registered (set_registry st2 r)).
  { eapply sources_registered_kept; [exact Hsrc|done..]. }
  destruct (isKnown expr).
  - by destruct Hrpn as [_ ->].
  - by eapply writerpn_loop_sources.
Qed.

Lemma out_CreatePatch_sources fe st (type : Z) expr (ofs : Z) st' :
  sources_registered st → out_CreatePatch fe st type expr ofs = Ok st' →
  sources_registered st'.
Proof.
  intros Hsrc Hp. unfold out_CreatePatch in Hp.
  bind_inv Hp. destruct a as [patch st1].
  destruct (pCurrentSection st1) as [cur|]; [|done].
  bind_inv Hp. rename a into sect. apply load_Ok in Heqr0.
  injection Hp as <-.
  destruct (allocpatch_registered _ _ _ _ _ _ _ Heqr) as (_ & Hreg & _).
  apply (allocpatch_sources _ _ _ _ _ _ _ Hsrc) in Heqr as [Hp1 Ha1 Hs1].
  constructor; simpl; [|done|done].
  intros a sect' patch' Hsect' Hin.
  destruct (decide (a = cur)) as [->|Hne].
  - rewrite lookup_insert_eq in Hsect'. injection Hsect' as <-.
    simpl in Hin. apply elem_of_cons in Hin as [->|Hin]; [done|]. eauto.
  - rewrite lookup_insert_ne in Hsect' by done. eauto.
Qed.

Lemma out_CreateAssert_sources fe st (type : Z) expr (message : list Z)
    (ofs : Z) (ok : bool) st' :
  sources_registered st →
  out_CreateAssert fe st type expr message ofs = Ok (ok, st') →
  sources_registered st'.
Proof.
  intros Hsrc Ha. unfold out_CreateAssert in Ha.
  destruct (malloc st) as [ok1 st1] eqn:Hm1.
  apply (malloc_sources _ _ _ Hm1) in Hsrc.
  destruct ok1; cbn [negb] in Ha; [|by injection Ha as <- <-].
  bind_inv Ha. destruct a as [patch st2].
  destruct (allocpatch_registered _ _ _ _ _ _ _ Heqr) as (_ & Hreg & _).
  apply (allocpatch_sources _ _ _ _ _ _ _ Hsrc) in Heqr.
  destruct (malloc st2) as [ok2 st3] eqn:Hm2.
  apply (malloc_sources _ _ _ Hm2) in Heqr.
  apply malloc_same in Hm2 as (_ & _ & Hr2 & _).
  destruct ok2; cbn [negb] in Ha; injection Ha as <- <-; [|done].
  destruct Heqr as [Hp3 Ha3 Hs3]. constructor; simpl; [done| |done].
  intros assert [->|Hin]%elem_of_cons; [|by eauto].
  simpl. by rewrite Hr2.
Qed.

Lemma registerExportedSymbols_sources st (syms : list positive) st' :
  sources_registered st → registerExportedSymbols st syms = Ok st' →
  sources_registered st'.
Proof.
  revert st. induction syms as [|a syms IH]; intros st Hsrc Hsweep.
  - by injection Hsweep as <-.
  - cbn [registerExportedSymbols] in Hsweep. bind_inv Hsweep.
    rename a0 into st1.
    apply registerExportedSymbol_Ok in Heqr
      as (s & Hs & [(Hex & Hid & Hreg)|[Hcase ->]]); [|by eapply IH].
    eapply IH; [|done]. by eapply registerSymbol_sources.
Qed.

(** X14. The nodes that the records name are registered.  The property
    that the source of every patch of a section, of every assertion and of
    every object symbol is a node with an ID is kept by [out_CreatePatch],
    by [out_CreateAssert] and by the sweep over the exported symbols; this
    is what the two assertions [src->ID != -1] of the writers rely on. *)
Theorem sources_registered_preserved fe st (type : Z) expr
    (message : list Z) (ofs : Z) (syms : list positive) :
  sources_registered st →
  (∀ st', out_CreatePatch fe st type expr ofs = Ok st' →
          sources_registered st') ∧
  (∀ ok st', out_CreateAssert fe st type expr message ofs = Ok (ok, st') →
             sources_registered st') ∧
  (∀ st', registerExportedSymbols st syms = Ok st' → sources_registered st').
Proof.
  intros Hsrc. split_and!.
  - intros st'. by apply out_CreatePatch_sources.
  - intros ok st'. by apply out_CreateAssert_sources.
  - intros st'. by apply registerExportedSymbols_sources.
Qed.

Lemma allocpatch_fields fe st (type : Z) expr (ofs : Z) (patch : Patch)
    st' :
  allocpatch fe st type expr ofs = Ok (patch, st') →
  patch_src patch = fstk_GetFileStack fe ∧
  patch_lineNo patch = u32 (lexer_GetLineNo fe) ∧
  patch_nOffset patch = u32 ofs ∧
  patch_pcSection patch = sect_GetSymbolSection fe ∧
  patch_pcOffset patch = u32 (sect_GetSymbolOffset fe) ∧
  patch_type patch = u8 type.
Proof.
  unfold allocpatch. intros Halloc.
  destruct (malloc st) as [[] st1] eqn:Hm1; [|done]. cbn [negb] in Halloc.
  destruct (malloc st1) as [[] st2] eqn:Hm2; [|done]. cbn [negb] in Halloc.
  bind_inv Halloc. rename a into r.
  bind_inv Halloc. destruct a as [pRPN st3].
  destruct (_ <? _); [done|]. destruct (negb _) eqn:Hneg; [done|].
  by injection Halloc as <- <-.
Qed.

(** X15. A patch that [allocpatch] returns can be written: its source
    node has an ID, [nRPNSize] is the number of bytes of the rewritten
    expression, and [writepatch] writes the ID of the node, the line, the
    offset, the ID of the section of PC, the offset of PC, the type, the
    size of the expression and the expression itself, whole; it can only
    fail for a section of PC that is not in the list of sections. *)
Theorem allocpatch_written fe st (type : Z) expr (ofs : Z) (patch : Patch)
    st' :
  allocpatch fe st type expr ofs = Ok (patch, st') →
  ∃ n,
    nodes (registry st') !! fstk_GetFileStack fe = Some n ∧
    node_ID n ≠ NO_ID ∧
    patch_nRPNSize patch = Z.of_nat (length (patch_pRPN patch)) ∧
    byte_list (patch_pRPN patch) ∧
    writepatch st' patch =
      (pcSectID ← getSectIDIfAny st' (sect_GetSymbolSection fe);
       Ok (fputlong (node_ID n) ++ fputlong (lexer_GetLineNo fe)
           ++ fputlong ofs ++ fputlong pcSectID
           ++ fputlong (sect_GetSymbolOffset fe) ++ fputc type
           ++ fputlong (Z.of_nat (length (patch_pRPN patch)))
           ++ patch_pRPN patch)).
Proof.
  intros Halloc.
  destruct (allocpatch_registered _ _ _ _ _ _ _ Halloc)
    as (_ & (n & Hn & Hid) & Hbytes).
  pose proof (allocpatch_size _ _ _ _ _ _ _ Halloc) as Hsize.
  apply allocpatch_fields in Halloc
    as (Hnode & Hline & Hofs & Hpc & Hpcofs & Htype).
  rewrite Hnode in Hn. exists n. split_and!; [done..|].
  unfold writepatch. rewrite Hnode, Hline, Hofs, Hpc, Hpcofs, Htype.
  apply load_Ok in Hn. rewrite Hn. step_bind.
  destruct (Z.eqb_spec (node_ID n) NO_ID) as [|_]; [done|].
  destruct (getSectIDIfAny st' (sect_GetSymbolSection fe)) as [pcSectID|e];
    [|done].
  do 2 step_bind. unfold fwrite. rewrite Hsize, Z.ltb_irrefl, Nat2Z.id.
  rewrite take_ge by done. rewrite byte_list_u8 by done. step_bind.
  by rewrite !fputlong_u32, fputc_u8.
Qed.

Lemma bind_Err {A B : Type} (m : result A) (f : A → result B)
    (e : failure) :
  (m ≫= f) = Err e → m = Err e ∨ ∃ a, m = Ok a ∧ f a = Err e.
Proof.
  destruct m as [a|e']; [right; eauto|].
  rewrite bind_Err_l. intros [= ->]. by left.
Qed.

Lemma load_Err {A : Type} (h : gmap positive A) (p : positive) (e : failure) :
  load h p = Err e → e = Undefined.
Proof. unfold load. destruct (h !! p); [done|]. by intros [= <-]. Qed.

Lemma getsectid_from_Err (sec : list positive) (sect : positive) (ID : Z)
    (e : failure) :
  getsectid_from sec sect ID = Err e → e = Fatal UnknownSection.
Proof.
  revert ID. induction sec as [|s sec IH]; intros ID; simpl.
  - by intros [= <-].
  - destruct (Pos.eqb s sect); [done|]. apply IH.
Qed.

Lemma getSectIDIfAny_Err st (sect : option positive) (e : failure) :
  getSectIDIfAny st sect = Err e → e = Fatal UnknownSection.
Proof. destruct sect as [s|]; [apply getsectid_from_Err|done]. Qed.

Lemma fwrite_Err (buf : list Z) (size : Z) (e : failure) :
  fwrite buf size = Err e → e = Undefined.
Proof. unfold fwrite. destruct (_ <? _); [|done]. by intros [= <-]. Qed.

Lemma writepatch_Err st (patch : Patch) (e : failure) :
  registered (registry st) (patch_src patch) →
  writepatch st patch = Err e → write_failure e.
Proof.
  intros (n & Hn & Hid) Hw. unfold writepatch in Hw.
  apply load_Ok in Hn. rewrite Hn in Hw. step_bind_in Hw.
  destruct (Z.eqb_spec (node_ID n) NO_ID) as [|_]; [done|].
  apply bind_Err in Hw as [Hw|(id & _ & Hw)];
    [left; by eapply getSectIDIfAny_Err|].
  apply bind_Err in Hw as [Hw|(rpn & _ & Hw)];
    [right; by eapply fwrite_Err|done].
Qed.

Lemma writepatches_Err st (patches : list Patch) (e : failure) :
  Forall (λ patch, registered (registry st) (patch_src patch)) patches →
  writepatches st patches = Err e → write_failure e.
Proof.
  induction 1 as [|patch patches Hreg _ IH]; intros Hw; [done|].
  rewrite writepatches_cons in Hw.
  apply bind_Err in Hw as [Hw|(b & _ & Hw)]; [by eapply writepatch_Err|].
  apply bind_Err in Hw as [Hw|(bs & _ & Hw)]; [by apply IH|done].
Qed.

Lemma writesection_Err st (sect : Sect) (e : failure) :
  Forall (λ patch, registered (registry st) (patch_src patch))
         (sect_patches sect) →
  writesection st sect = Err e → write_failure e.
Proof.
  intros Hreg Hw. unfold writesection in Hw.
  destruct (sect_HasData (sect_type sect)); [|done].
  apply bind_Err in Hw as [Hw|(data & _ & Hw)];
    [right; by eapply fwrite_Err|].
  apply bind_Err in Hw as [Hw|(bs & _ & Hw)];
    [by eapply writepatches_Err|done].
Qed.

Lemma writesections_Err st (sects : list positive) (e : failure) :
  sources_registered st → writesections st sects = Err e → write_failure e.
Proof.
  intros Hsrc. induction sects as [|a sects IH]; intros Hw; [done|].
  cbn [writesections] in Hw.
  apply bind_Err in Hw as [Hw|(sect & Hsect & Hw)];
    [right; by eapply load_Err|].
  apply load_Ok in Hsect.
  apply bind_Err in Hw as [Hw|(b & _ & Hw)].
  { eapply writesection_Err; [|done]. apply Forall_forall.
    intros patch Hin. by eapply (src_patches _ Hsrc). }
  apply bind_Err in Hw as [Hw|(bs & _ & Hw)]; [by apply IH|done].
Qed.

Lemma writeasserts_Err st (asserts : list Assertion) (e : failure) :
  Forall (λ a, registered (registry st) (patch_src (assert_patch a)))
         asserts →
  writeasserts st asserts = Err e → write_failure e.
Proof.
  induction 1 as [|a asserts Hreg _ IH]; intros Hw; [done|].
  cbn [writeasserts] in Hw.
  apply bind_Err in Hw as [Hw|(b & _ & Hw)].
  { unfold writeassert in Hw.
    apply bind_Err in Hw as [Hw|(p & _ & Hw)]; [|done].
    by eapply writepatch_Err. }
  apply bind_Err in Hw as [Hw|(bs & _ & Hw)]; [by apply IH|done].
Qed.

Lemma writesymbol_Err fe st (sym : positive) (e : failure) :
  (∀ s, symbols st !! sym = Some s → registered (registry st) (sym_src s)) →
  writesymbol fe st sym = Err e → write_failure e.
Proof.
  intros Hreg Hw. unfold writesymbol in Hw.
  apply bind_Err in Hw as [Hw|(s & Hs & Hw)]; [right; by eapply load_Err|].
  apply load_Ok in Hs. destruct (negb (sym_IsDefined fe sym)); [done|].
  destruct (Hreg s Hs) as (n & Hn & Hid). apply load_Ok in Hn.
  rewrite Hn in Hw. step_bind_in Hw.
  destruct (Z.eqb_spec (node_ID n) NO_ID) as [|_]; [done|].
  apply bind_Err in Hw as [Hw|(id & _ & Hw)]; [|done].
  left. by eapply getSectIDIfAny_Err.
Qed.

Lemma writesymbols_Err fe st (syms : list positive) (e : failure) :
  (∀ a s, a ∈ syms → symbols st !! a = Some s →
          registered (registry st) (sym_src s)) →
  writesymbols fe st syms = Err e → write_failure e.
Proof.
  induction syms as [|a syms IH]; intros Hreg Hw; [done|].
  cbn [writesymbols] in Hw.
  apply bind_Err in Hw as [Hw|(b & _ & Hw)].
  { eapply writesymbol_Err; [|done]. intros s. apply Hreg. by left. }
  apply bind_Err in Hw as [Hw|(bs & _ & Hw)]; [|done].
  apply IH; [|done]. intros b' s Hb'. apply Hreg. by right.
Qed.

Lemma getNbFileStackNodes_Err (r : Registry) (e : failure) :
  getNbFileStackNodes r = Err e → e = Undefined.
Proof.
  unfold getNbFileStackNodes. destruct (fileStackNodes r) as [hd|]; [|done].
  intros [Hl|(n & _ & Hn)]%bind_Err; [by eapply load_Err|done].
Qed.

Lemma writeFileStackNodeList_Err (r : Registry) (e : failure) :
  reachable r → writeFileStackNodeList r = Err e → e = Undefined.
Proof.
  intros Hreach Hw. destruct (reachable_inv r Hreach) as [l [Hc _ Hb]].
  eapply writeFileStackNodes_chain_ok; [exact Hc| |done|exact Hw].
  by eapply chain_ok_length.
Qed.

Lemma registerSymbol_Err st (a : positive) (e : failure) :
  registerSymbol st a = Err e →
  e = Undefined ∨ e = Fatal TooManyNodes ∨ e = Fatal TooManySymbols.
Proof.
  unfold registerSymbol. intros Hreg.
  apply bind_Err in Hreg as [Hreg|(s & _ & Hreg)];
    [left; by eapply load_Err|].
  apply bind_Err in Hreg as [Hreg|(r & _ & Hreg)].
  - simpl in Hreg.
    destruct (out_RegisterNode_loop_error _ _ _ _ Hreg) as [?|[?| ->]];
      [auto..|].
    by apply out_RegisterNode_terminates in Hreg.
  - cbv zeta in Hreg. destruct (_ =? NO_ID); [|done].
    injection Hreg as <-. auto.
Qed.

Lemma registerExportedSymbols_Err st (syms : list positive) (e : failure) :
  registerExportedSymbols st syms = Err e →
  e = Undefined ∨ e = Fatal TooManyNodes ∨ e = Fatal TooManySymbols.
Proof.
  revert st. induction syms as [|a syms IH]; intros st Hsweep; [done|].
  cbn [registerExportedSymbols] in Hsweep.
  apply bind_Err in Hsweep as [Hone|(st1 & _ & Hsweep)]; [|by eapply IH].
  unfold registerExportedSymbol in Hone.
  apply bind_Err in Hone as [Hone|(s & _ & Hone)];
    [left; by eapply load_Err|].
  destruct (_ && _); [by eapply registerSymbol_Err|done].
Qed.

Lemma registerExportedSymbols_reachable st (syms : list positive) st' :
  reachable (registry st) → registerExportedSymbols st syms = Ok st' →
  reachable (registry st').
Proof.
  revert st. induction syms as [|a syms IH]; intros st Hreach Hsweep.
  - by injection Hsweep as <-.
  - cbn [registerExportedSymbols] in Hsweep. bind_inv Hsweep.
    rename a0 into st1.
    apply registerExportedSymbol_Ok in Heqr
      as (s & Hs & [(Hex & Hid & Hreg)|[Hcase ->]]); [|by eapply IH].
    eapply IH; [|done].
    apply registerSymbol_Ok in Hreg as (s0 & r & _ & Hr & _ & ->). simpl.
    by eapply reach_register.
Qed.

(** X16. When the nodes are registered by [out_RegisterNode] only and the
    sources of the records are registered, [out_WriteObject] fails in no
    other way than these: the file cannot be opened; the sweep over the
    exported symbols runs out of node or symbol IDs; a patch or a symbol
    is in a section that the list of sections does not hold; a pointer or
    a size is not valid.  In particular neither of the assertions
    [src->ID != -1] fails, the internal error of the node table is not
    raised, and the loops end. *)
Theorem out_WriteObject_errors fe (opened : bool) st (e : failure) :
  reachable (registry st) → sources_registered st →
  out_WriteObject fe opened st = Err e →
  (opened = false ∧ e = Fatal CannotOpenFile) ∨
  (opened = true ∧
   (e = Fatal TooManyNodes ∨ e = Fatal TooManySymbols ∨
    e = Fatal UnknownSection ∨ e = Undefined)).
Proof.
  intros Hreach Hsrc Hw. unfold out_WriteObject in Hw.
  destruct opened; cbn [negb] in Hw; [right|left; by injection Hw as <-].
  split; [done|].
  apply bind_Err in Hw as [Hw|(st1 & Hsweep & Hw)].
  { destruct (registerExportedSymbols_Err _ _ _ Hw) as [?|[?|?]]; auto. }
  pose proof (registerExportedSymbols_reachable _ _ _ Hreach Hsweep)
    as Hreach1.
  pose proof (registerExportedSymbols_sources _ _ _ Hsrc Hsweep) as Hsrc1.
  apply bind_Err in Hw as [Hw|(nb & _ & Hw)].
  { apply getNbFileStackNodes_Err in Hw. auto. }
  apply bind_Err in Hw as [Hw|(nodes_bytes & _ & Hw)].
  { apply writeFileStackNodeList_Err in Hw; auto. }
  apply bind_Err in Hw as [Hw|(symbols_bytes & _ & Hw)].
  { apply writesymbols_Err in Hw as [?|?]; auto.
    intros a s. by apply (src_symbols _ Hsrc1). }
  apply bind_Err in Hw as [Hw|(sections_bytes & _ & Hw)].
  { apply writesections_Err in Hw as [?|?]; auto. }
  apply bind_Err in Hw as [Hw|(asserts_bytes & _ & Hw)]; [|done].
  apply writeasserts_Err in Hw as [?|?]; auto.
  apply Forall_forall. intros a. by apply (src_asserts _ Hsrc1).
Qed.

End sources.

Lemma example_state_sources : sources_registered example_state.
Proof.
  constructor.
  - intros a sect patch Hs Hin. simpl in Hs. unfold example_sections in Hs.
    apply lookup_insert_Some in Hs as [[_ <-]|[_ Hs]];
      [by apply elem_of_nil in Hin|by rewrite lookup_empty in Hs].
  - by intros assert ?%elem_of_nil.
  - by intros a s ?%elem_of_nil.
Qed.

Lemma sources_registered_preserved_witness :
  sources_registered
    (state_after (H := example_linkdefs) example_state [call_Lab]).
Proof.
  destruct (sources_registered_preserved (ld := example_linkdefs)
              example_frontend example_state 1 expr_Lab [] 0 [])
    as (Hp & _); [exact example_state_sources|].
  apply Hp. by vm_compute.
Defined.

Lemma allocpatch_written_witness :
  ∃ patch st',
    allocpatch (H := example_linkdefs) example_frontend example_state 1
               known_42 0 = Ok (patch, st') ∧
    writepatch st' patch
      = Ok [0; 0; 0; 0; 10; 0; 0; 0; 0; 0; 0; 0; 0; 0; 0; 0; 4; 0; 0; 0; 1;
            5; 0; 0; 0; 128; 42; 0; 0; 0].
Proof.
  destruct (allocpatch (H := example_linkdefs) example_frontend
              example_state 1 known_42 0) as [[patch st']|e] eqn:Halloc;
    [|by vm_compute in Halloc].
  exists patch, st'. split; [done|].
  destruct (allocpatch_written (ld := example_linkdefs) _ _ _ _ _ _ _ Halloc)
    as (n & Hn & _ & _ & _ & Hw).
  rewrite Hw. vm_compute in Halloc. injection Halloc as <- <-.
  vm_compute in Hn. injection Hn as <-. by vm_compute.
Defined.

Lemma out_WriteObject_errors_witness :
  ∃ e,
    out_WriteObject (H := example_linkdefs) example_frontend true
        (state_after (H := example_linkdefs) example_state [call_elsewhere])
      = Err e ∧
    (e = Fatal TooManyNodes ∨ e = Fatal TooManySymbols ∨
     e = Fatal UnknownSection ∨ e = Undefined).
Proof.
  destruct (out_WriteObject (H := example_linkdefs) example_frontend true
              (state_after (H := example_linkdefs) example_state
                 [call_elsewhere])) as [[bytes st']|e] eqn:Hw;
    [by vm_compute in Hw|].
  assert (Hreach : reachable
            (registry (state_after (H := example_linkdefs) example_state
                         [call_elsewhere]))).
  { apply (reach_register example_registry 3%positive); [|by vm_compute].
    apply reach_init; [done|]. apply (bool_decide_unpack _). by vm_compute. }
  assert (Hsrc : sources_registered
            (state_after (H := example_linkdefs) example_state
               [call_elsewhere])).
  { apply (out_CreatePatch_sources (ld := example_linkdefs)
             frontend_elsewhere example_state 0 known_42 0);
      [exact example_state_sources|by vm_compute]. }
  exists e. split; [done|].
  by destruct (out_WriteObject_errors (ld := example_linkdefs) _ _ _ _
                 Hreach Hsrc Hw) as [[Ho _]|[_ He]].
Defined.

(** ** The object file *)



Section object_file.
Context {ld : Linkdefs}.
Implicit Types (fe : FrontEnd) (st : State).

Lemma writeFileStackNodes_records (fuel : nat)
    (h : gmap positive FileStackNode) (p : option positive)
    (l : list positive) (bytes : list Z) :
  chain_ok h p l → writeFileStackNodes fuel h p = Ok bytes →
  ∃ records : list (list Z),
    Forall2 (λ a b, ∃ n, h !! a = Some n ∧ writeFileStackNode h n = Ok b)
            l records ∧
    bytes = concat records.
Proof.
  revert fuel p bytes. induction l as [|a l IH]; intros fuel p bytes Hc Hw.
  - simpl in Hc. subst p. exists []. split; [constructor|].
    destruct fuel; by injection Hw as <-.
  - destruct Hc as (-> & n & Hn & _ & Hc).
    destruct fuel as [|fuel]; [done|].
    rewrite writeFileStackNodes_S in Hw. apply load_Ok in Hn as Hl.
    rewrite Hl in Hw. step_bind_in Hw.
    bind_inv Hw. rename a0 into b. bind_inv Hw. bind_inv Hw.
    rename a1 into bs. injection Hw as <-.
    destruct (IH _ _ _ Hc Heqr1) as (records & Hall & ->).
    exists (b :: records). split; [|done]. constructor; [|done]. eauto.
Qed.





End object_file.


(** ** Section and node records *)

Lemma type_byte_decode (t u f : Z) :
  0 ≤ t < 64 → (u = 0 ∨ u = 1) → (f = 0 ∨ f = 1) → ¬ (u = 1 ∧ f = 1) →
  let tb := u8 (Z.lor (Z.lor t (Z.shiftl u 7)) (Z.shiftl f 6)) in
  Z.land tb 63 = t ∧ Z.testbit tb 7 = (u =? 1) ∧ Z.testbit tb 6 = (f =? 1).
Proof.
  intros Ht Hu Hf Hboth.
  pose (check := λ (t : Z) (uf : Z * Z),
          (Z.land (u8 (Z.lor (Z.lor t (Z.shiftl uf.1 7)) (Z.shiftl uf.2 6)))
                  63 =? t)
          && eqb (Z.testbit
                    (u8 (Z.lor (Z.lor t (Z.shiftl uf.1 7)) (Z.shiftl uf.2 6)))
                    7) (uf.1 =? 1)
          && eqb (Z.testbit
                    (u8 (Z.lor (Z.lor t (Z.shiftl uf.1 7)) (Z.shiftl uf.2 6)))
                    6) (uf.2 =? 1)).
  assert (Hall : forallb (λ t, forallb (check t) [(0, 0); (1, 0); (0, 1)])
                         (seqZ 0 64) = true) by (by vm_compute).
  assert (Hin : In t (seqZ 0 64)).
  { apply list_elem_of_In, elem_of_seqZ. lia. }
  pose proof (proj1 (forallb_forall _ _) Hall t Hin) as Huf.
  assert (Hcase : In (u, f) [(0, 0); (1, 0); (0, 1)]).
  { destruct Hu as [-> | ->], Hf as [-> | ->]; simpl; auto.
    exfalso. by apply Hboth. }
  pose proof (proj1 (forallb_forall _ _) Huf (u, f) Hcase) as Hc.
  unfold check in Hc. simpl fst in Hc. simpl snd in Hc.
  apply andb_prop in Hc as [Hc H6]. apply andb_prop in Hc as [Hl H7].
  apply Z.eqb_eq in Hl. apply eqb_prop in H7, H6. done.
Qed.

Section records.
Context {ld : Linkdefs}.
Implicit Types (st : State) (sect : Sect).

(** X18. The record of a section is its name with the terminator, the
    size, the byte of the type, the address, the bank, the alignment and
    its offset, and for a section that holds data, the data, the number of
    patches and the patches; sections without data end after the header.
    The byte of the type holds the type in its low six bits, bit 7 tells
    a union and bit 6 a fragment, so the reader gets back the type and the
    modifier. *)
Theorem writesection_record st sect (bytes : list Z) :
  0 ≤ sect_type sect < 64 → SECTION_UNION ≠ SECTION_FRAGMENT →
  chars (sect_name sect) →
  writesection st sect = Ok bytes →
  let tb := section_type_byte sect in
  0 ≤ tb < 256 ∧ Z.land tb 63 = sect_type sect ∧
  Z.testbit tb 7 = (sect_modifier sect =? SECTION_UNION) ∧
  Z.testbit tb 6 = (sect_modifier sect =? SECTION_FRAGMENT) ∧
  ∃ rest : list Z,
    bytes = sect_name sect ++ [0] ++ fputlong (sect_size sect) ++ [tb]
            ++ fputlong (sect_org sect) ++ fputlong (sect_bank sect)
            ++ fputc (sect_align sect) ++ fputlong (sect_alignOfs sect)
            ++ rest ∧
    if sect_HasData (sect_type sect) then
      ∃ data patches : list Z,
        rest = data ++ fputlong (Z.of_nat (length (sect_patches sect)))
                    ++ patches ∧
        fwrite (sect_data sect) (sect_size sect) = Ok data ∧
        writepatches st (sect_patches sect) = Ok patches
    else rest = [].
Proof.
  intros Htype Hmod Hname Hw tb.
  destruct (type_byte_decode (sect_type sect)
              (if sect_modifier sect =? SECTION_UNION then 1 else 0)
              (if sect_modifier sect =? SECTION_FRAGMENT then 1 else 0))
    as (Hland & Hb7 & Hb6); [done| | |..].
  { destruct (_ =? _); auto. }
  { destruct (_ =? _); auto. }
  { destruct (Z.eqb_spec (sect_modifier sect) SECTION_UNION) as [Hu|];
      destruct (Z.eqb_spec (sect_modifier sect) SECTION_FRAGMENT) as [Hf|];
      lia. }
  fold (section_type_byte sect) in Hland, Hb7, Hb6. fold tb in Hland, Hb7, Hb6.
  split; [apply u8_byte|]. split; [done|].
  split; [rewrite Hb7; by destruct (sect_modifier sect =? SECTION_UNION)|].
  split; [rewrite Hb6; by destruct (sect_modifier sect =? SECTION_FRAGMENT)|].
  unfold writesection in Hw. rewrite (fputstring_chars_end _ Hname) in Hw.
  change (fputc (Z.lor (Z.lor (sect_type sect)
            (Z.shiftl (if sect_modifier sect =? SECTION_UNION
                       then 1 else 0) 7))
            (Z.shiftl (if sect_modifier sect =? SECTION_FRAGMENT
                       then 1 else 0) 6)))
    with [tb] in Hw.
  destruct (sect_HasData (sect_type sect)).
  - bind_inv Hw. rename a into data. bind_inv Hw. rename a into patches.
    injection Hw as <-.
    exists (data ++ fputlong (countpatches sect) ++ patches).
    split; [by rewrite <- !app_assoc|].
    exists data, patches. split; [|done].
    unfold countpatches. by rewrite fputlong_u32.
  - injection Hw as <-. exists []. split; [|done].
    by rewrite <- !app_assoc, app_nil_r.
Qed.

Lemma out_RegisterNode_payload (r : Registry) (a : positive)
    (r' : Registry) :
  out_RegisterNode r a = Ok r' →
  (∀ b n, nodes r !! b = Some n → payload_ok n) →
  ∀ b n', nodes r' !! b = Some n' → payload_ok n'.
Proof.
  intros Hrun Hpay b n' Hn'.
  destruct (nodes r !! b) as [n|] eqn:Hn.
  - destruct (out_RegisterNode_loop_fields _ _ _ _ b n Hrun Hn)
      as (n'' & Hn'' & (_ & _ & Htype & Hpayload)).
    rewrite Hn' in Hn''. injection Hn'' as <-.
    specialize (Hpay b n Hn). unfold payload_ok in *.
    by rewrite Htype, Hpayload.
  - rewrite (out_RegisterNode_loop_dom _ _ _ _ b Hrun Hn) in Hn'. done.
Qed.

(** X19. The table of nodes can be written.  After any sequence of
    registrations, when the payload of every registered node is the one of
    its kind (a REPT node with the counters its depth announces), the loop
    of [out_WriteObject] over the nodes writes one record for each node of
    the flat list, and their number is what [getNbFileStackNodes] returns:
    no parent pointer of a registered node is left dangling and the
    internal error is not raised. *)
Theorem node_table_written (r : Registry) :
  reachable r →
  (∀ a n, nodes r !! a = Some n → node_ID n ≠ NO_ID → payload_ok n) →
  ∃ (l : list positive) (records : list (list Z)),
    flat_list r = Ok l ∧
    Forall2 (λ a b, ∃ n, nodes r !! a = Some n ∧
                         writeFileStackNode (nodes r) n = Ok b) l records ∧
    writeFileStackNodeList r = Ok (concat records) ∧
    getNbFileStackNodes r = Ok (Z.of_nat (length records)).
Proof.
  intros Hreach Hpay. destruct (reachable_inv r Hreach) as [l Hinv].
  pose proof Hinv as [Hc Hcomp Hb].
  assert (Hflat : flat_list r = Ok l).
  { apply chain_ok_flat_list_from; [done|]. by eapply chain_ok_length. }
  assert (Hwr : writable (nodes r) l).
  { apply Forall_forall. intros a Ha.
    destruct (chain_ok_lookup _ _ _ _ Hc Ha) as (n & Hn & Hr).
    assert (Hid : node_ID n ≠ NO_ID) by (unfold NO_ID in *; lia).
    exists n. specialize (Hpay a n Hn Hid).
    assert (Hparent : ∃ parentID,
              match node_parent n with
              | Some p => pn ← load (nodes r) p; Ok (node_ID pn)
              | None => Ok NO_ID
              end = Ok parentID).
    { destruct (node_parent n) as [p|] eqn:Hp; [|eauto].
      destruct (reachable_parents r Hreach a n p Hn Hid Hp)
        as (pn & Hpn & _).
      apply load_Ok in Hpn. rewrite Hpn. step_bind. eauto. }
    destruct Hparent as [parentID Hparent].
    unfold writeFileStackNode, payload_ok in *. rewrite Hparent. step_bind.
    destruct (node_payload n) as [name|reptDepth iters].
    - destruct (Z.eqb_spec (node_type n) NODE_REPT) as [|_]; [done|].
      cbn [negb]. eauto.
    - destruct Hpay as (-> & Hdepth & Hlt). rewrite Z.eqb_refl. cbn [negb].
      rewrite write_iters_reverse.
      + step_bind. eauto.
      + unfold u32. rewrite Z.mod_small by lia. lia. }
  destruct (writeFileStackNodeList r) as [bytes|e] eqn:Hw.
  - destruct (writeFileStackNodes_records _ _ _ _ _ Hc Hw)
      as (records & Hall & ->).
    exists l, records. split_and!; [done..|].
    rewrite <- (Forall2_length _ _ _ Hall). by apply registry_inv_count.
  - exfalso.
    pose proof (writeFileStackNodeList_Err _ _ Hreach Hw) as ->.
    destruct (writeFileStackNodes_check _ _ _ _ Hflat Hwr) as [Hbad Hgood].
    destruct Hgood as [bs Hbs].
    + intros Hnc. apply Hbad in Hnc. unfold writeFileStackNodeList in Hw.
      congruence.
    + unfold writeFileStackNodeList in Hw. congruence.
Qed.

End records.

Lemma writesection_record_witness :
  Z.land (section_type_byte (H := example_linkdefs)
            (mkSect [117] 0 1 2 NO_ID NO_ID 0 0 [] [])) 63 = 0 ∧
  Z.testbit (section_type_byte (H := example_linkdefs)
               (mkSect [117] 0 1 2 NO_ID NO_ID 0 0 [] [])) 7 = true.
Proof.
  destruct (writesection (H := example_linkdefs) example_state
              (mkSect [117] 0 1 2 NO_ID NO_ID 0 0 [] []))
    as [bytes|e] eqn:Hw; [|by vm_compute in Hw].
  destruct (writesection_record (ld := example_linkdefs) example_state
              (mkSect [117] 0 1 2 NO_ID NO_ID 0 0 [] []) bytes)
    as (_ & Hland & Hb7 & _).
  - simpl. lia.
  - simpl. lia.
  - apply Forall_cons_2; [lia|apply Forall_nil_2].
  - exact Hw.
  - split; [exact Hland|exact Hb7].
Defined.

Lemma example_nodes_payload :
  ∀ b n, example_nodes !! b = Some n → payload_ok (H := example_linkdefs) n.
Proof.
  intros b n Hn. unfold example_nodes in Hn.
  repeat (apply lookup_insert_Some in Hn as [[_ <-]|[_ Hn]];
          [unfold payload_ok; simpl; lia|]).
  by rewrite lookup_empty in Hn.
Qed.

Lemma node_table_written_witness :
  ∃ records : list (list Z),
    writeFileStackNodeList (H := example_linkdefs)
        (registry_after example_registry [3%positive])
      = Ok (concat records) ∧
    length records = 3%nat.
Proof.
  destruct (node_table_written (ld := example_linkdefs)
              (registry_after example_registry [3%positive]))
    as (l & records & Hl & Hall & Hw & _).
  - apply (reach_register example_registry 3%positive); [|by vm_compute].
    apply reach_init; [done|]. apply (bool_decide_unpack _). by vm_compute.
  - intros a n Hn _.
    refine (out_RegisterNode_payload (ld := example_linkdefs)
              example_registry 3%positive
              (registry_after example_registry [3%positive])
              _ example_nodes_payload a n Hn).
    by vm_compute.
  - exists records. split; [exact Hw|].
    rewrite <- (Forall2_length _ _ _ Hall).
    vm_compute in Hl. by injection Hl as <-.
Defined.

(** * Allocation on reference, and the records of the patches *)

(** ** Registration of a symbol succeeds *)

Lemma out_RegisterNode_succeeds (r : Registry) (a : positive) :
  reachable r → parents_closed (nodes r) → is_Some (nodes r !! a) →
  Z.of_nat (size (nodes r)) ≤ NO_ID →
  ∃ r', out_RegisterNode r a = Ok r' ∧ registered r' a.
Proof.
  intros Hreach Hcl Ha Hsize. destruct (reachable_inv r Hreach) as [l Hinv].
  destruct (out_RegisterNode_loop_progress (S (size (nodes r))) r l a)
    as (r' & Hrun & _); [done..| |].
  { unfold unregistered.
    pose proof (map_size_filter (λ kv : positive * FileStackNode,
                                   node_ID kv.2 = NO_ID) (nodes r)).
    lia. }
  exists r'. split; [done|].
  by apply (out_RegisterNode_loop_registered _ _ _ _ Hrun).
Qed.

Lemma registerSymbol_progress (st : State) (a : positive) (s : Symbol) :
  symbols st !! a = Some s →
  reachable (registry st) → parents_closed (nodes (registry st)) →
  is_Some (nodes (registry st) !! sym_src s) →
  Z.of_nat (size (nodes (registry st))) ≤ NO_ID → nbSymbols st ≠ NO_ID →
  ∃ st', registerSymbol st a = Ok st' ∧
         symbols st' !! a = Some (set_sym_ID s (nbSymbols st)) ∧
         objectSymbols st' = objectSymbols st ++ [a] ∧
         nbSymbols st' = u32 (nbSymbols st + 1) ∧
         registered (registry st') (sym_src s).
Proof.
  intros Hs Hreach Hcl Hsrc Hsize Hnb.
  destruct (out_RegisterNode_succeeds _ _ Hreach Hcl Hsrc Hsize)
    as (r & Hr & Hreg).
  eexists. split.
  - unfold registerSymbol. apply load_Ok in Hs as Hl. rewrite Hl. step_bind.
    cbn [registry set_objectSymbols]. rewrite Hr. step_bind.
    cbn [nbSymbols set_registry set_objectSymbols].
    destruct (Z.eqb_spec (nbSymbols st) NO_ID) as [|_]; [done|]. reflexivity.
  - cbn. rewrite lookup_insert_eq. done.
Qed.

Section allocation.
Context {ld : Linkdefs}.
Implicit Types (fe : FrontEnd) (st : State) (rpn name : list Z).

(** C4 (amended). At a push-named-symbol opcode the rewriter looks the name
    up.  For a symbol that is a known constant it emits the push-constant
    opcode and the four little-endian bytes of the value, and allocates
    nothing.  Otherwise it emits the push-symbol-by-ID opcode and the four
    little-endian bytes of the symbol's ID: the ID the symbol has, or, for
    a symbol without one that is not the PC symbol, the ID allocated for it
    by [registerSymbol]; for the PC symbol without an ID the four bytes are
    those of the all-ones value and nothing is allocated.  The allocation
    succeeds whenever the node of the symbol can be registered and the
    counter of symbols has not reached its limit: the bytes are then those
    of the counter, which is the ID the symbol has afterwards, and the
    symbol is at the end of the list of object symbols. *)
Theorem writerpn_sym fe st (rpnexpr pre : list Z) name (post : list Z)
    (a : positive) (s : Symbol) :
  rpn_opcodes_ok → is_name name →
  sym_FindSymbol fe name = Some a → symbols st !! a = Some s →
  let rpn := pre ++ RPN_SYM :: name ++ 0 :: post in
  let next := (length pre + length name + 2)%nat in
  (sym_IsConstant fe a = true →
   writerpn_body fe st rpnexpr rpn (length pre)
     = Ok (next,
           rpnexpr ++ RPN_CONST :: le32 (u32 (sym_GetConstantValue fe name)),
           st)) ∧
  (sym_IsConstant fe a = false → sym_ID s ≠ NO_ID →
   writerpn_body fe st rpnexpr rpn (length pre)
     = Ok (next, rpnexpr ++ RPN_SYM :: le32 (sym_ID s), st)) ∧
  (sym_IsConstant fe a = false → sym_ID s = NO_ID → sym_IsPC fe a = false →
   writerpn_body fe st rpnexpr rpn (length pre)
     = (st' ← registerSymbol st a;
        Ok (next, rpnexpr ++ RPN_SYM :: le32 (nbSymbols st), st')) ∧
   (∀ st', registerSymbol st a = Ok st' →
           symbols st' !! a = Some (set_sym_ID s (nbSymbols st)) ∧
           nbSymbols st ≠ NO_ID ∧
           objectSymbols st' = objectSymbols st ++ [a]) ∧
   (reachable (registry st) → parents_closed (nodes (registry st)) →
    is_Some (nodes (registry st) !! sym_src s) →
    Z.of_nat (size (nodes (registry st))) ≤ NO_ID → nbSymbols st ≠ NO_ID →
    ∃ st',
      writerpn_body fe st rpnexpr rpn (length pre)
        = Ok (next, rpnexpr ++ RPN_SYM :: le32 (nbSymbols st), st') ∧
      symbols st' !! a = Some (set_sym_ID s (nbSymbols st)) ∧
      objectSymbols st' = objectSymbols st ++ [a] ∧
      nbSymbols st' = u32 (nbSymbols st + 1))) ∧
  (sym_IsConstant fe a = false → sym_ID s = NO_ID → sym_IsPC fe a = true →
   writerpn_body fe st rpnexpr rpn (length pre)
     = Ok (next, rpnexpr ++ RPN_SYM :: le32 NO_ID, st)).
Proof.
  intros Hops Hname Hfind Hs rpn next.
  destruct (rpn_opcodes_bytes Hops) as (Hc & Hsym & _).
  destruct (rpn_opcodes_distinct Hops) as (Hne & _).
  assert (Hbody : writerpn_body fe st rpnexpr rpn (length pre) =
    '(rpnexpr', value, st') ←
        (if sym_IsConstant fe a then
           Ok (writebyte rpnexpr RPN_CONST,
               u32 (sym_GetConstantValue fe name), st)
         else
           '(value, st') ← getSymbolID fe st a;
           Ok (writebyte rpnexpr RPN_SYM, value, st'));
    Ok (next, rpnexpr' ++ le32 value, st')).
  { unfold writerpn_body, rpn. rewrite popbyte_middle. step_bind.
    rewrite Hsym. destruct (Z.eqb_spec RPN_SYM RPN_CONST) as [|_]; [done|].
    rewrite Z.eqb_refl, read_tzSym_operand by done. step_bind.
    rewrite Hfind.
    destruct (sym_IsConstant fe a).
    - do 2 step_bind. by rewrite writebyte_le32.
    - destruct (getSymbolID fe st a) as [[value st']|e]; [|done].
      do 3 step_bind. by rewrite writebyte_le32. }
  rewrite Hbody. unfold writebyte. rewrite Hc, Hsym.
  split_and!.
  - intros ->. simpl. by rewrite <- app_assoc.
  - intros -> Hid. rewrite (getSymbolID_known fe st a s) by done. simpl.
    by rewrite <- app_assoc.
  - intros -> Hid Hpc.
    rewrite (getSymbolID_fresh fe st a s) by done. split_and!.
    + destruct (registerSymbol st a) as [st'|e]; simpl; [|done].
      by rewrite <- app_assoc.
    + intros st' Hreg.
      apply registerSymbol_Ok in Hreg as (s' & r & Hs' & _ & Hnb & ->).
      rewrite Hs in Hs'. injection Hs' as <-. simpl.
      by rewrite lookup_insert_eq.
    + intros Hreach Hcl Hsrc Hsize Hnb.
      destruct (registerSymbol_progress st a s Hs Hreach Hcl Hsrc Hsize Hnb)
        as (st' & Hreg & Hs' & Ho' & Hn' & _).
      exists st'. rewrite Hreg. simpl. by rewrite <- app_assoc.
  - intros -> Hid Hpc. rewrite (getSymbolID_PC fe st a s) by done. simpl.
    rewrite Hid. by rewrite <- app_assoc.
Qed.

(** C6. At a push-named-symbol's-bank opcode the rewriter emits the
    push-symbol-bank-by-ID opcode and the four little-endian bytes of what
    [getSymbolID] returns for the symbol, whether or not the symbol is a
    known constant; the opcode emitted is never the push-constant one.  The
    ID is the one the symbol has, or the one allocated for it when it has
    none (the PC symbol is left without one).  The allocation succeeds
    whenever the node of the symbol can be registered and the counter of
    symbols has not reached its limit: the bytes are then those of the
    counter, which is the ID the symbol has afterwards. *)
Theorem writerpn_bank_sym fe st (rpnexpr pre : list Z) name (post : list Z)
    (a : positive) (s : Symbol) :
  rpn_opcodes_ok → is_name name →
  sym_FindSymbol fe name = Some a → symbols st !! a = Some s →
  let rpn := pre ++ RPN_BANK_SYM :: name ++ 0 :: post in
  let next := (length pre + length name + 2)%nat in
  writerpn_body fe st rpnexpr rpn (length pre)
    = ('(id, st') ← getSymbolID fe st a;
       Ok (next, rpnexpr ++ RPN_BANK_SYM :: le32 id, st')) ∧
  RPN_BANK_SYM ≠ RPN_CONST ∧
  (sym_ID s ≠ NO_ID → getSymbolID fe st a = Ok (sym_ID s, st)) ∧
  (sym_ID s = NO_ID → sym_IsPC fe a = false →
   getSymbolID fe st a
     = (st' ← registerSymbol st a; Ok (nbSymbols st, st')) ∧
   ∀ st', registerSymbol st a = Ok st' →
          symbols st' !! a = Some (set_sym_ID s (nbSymbols st)) ∧
          nbSymbols st ≠ NO_ID ∧
          objectSymbols st' = objectSymbols st ++ [a]) ∧
  (sym_ID s = NO_ID → sym_IsPC fe a = true →
   getSymbolID fe st a = Ok (NO_ID, st)) ∧
  (sym_ID s ≠ NO_ID →
   writerpn_body fe st rpnexpr rpn (length pre)
     = Ok (next, rpnexpr ++ RPN_BANK_SYM :: le32 (sym_ID s), st)) ∧
  (sym_ID s = NO_ID → sym_IsPC fe a = false →
   reachable (registry st) → parents_closed (nodes (registry st)) →
   is_Some (nodes (registry st) !! sym_src s) →
   Z.of_nat (size (nodes (registry st))) ≤ NO_ID → nbSymbols st ≠ NO_ID →
   ∃ st',
     writerpn_body fe st rpnexpr rpn (length pre)
       = Ok (next, rpnexpr ++ RPN_BANK_SYM :: le32 (nbSymbols st), st') ∧
     symbols st' !! a = Some (set_sym_ID s (nbSymbols st)) ∧
     objectSymbols st' = objectSymbols st ++ [a] ∧
     nbSymbols st' = u32 (nbSymbols st + 1)) ∧
  (sym_ID s = NO_ID → sym_IsPC fe a = true →
   writerpn_body fe st rpnexpr rpn (length pre)
     = Ok (next, rpnexpr ++ RPN_BANK_SYM :: le32 NO_ID, st)).
Proof.
  intros Hops Hname Hfind Hs rpn next.
  destruct (rpn_opcodes_bytes Hops) as (_ & _ & Hbank & _).
  destruct (rpn_opcodes_distinct Hops) as (_ & Hne1 & Hne2 & _).
  assert (Hbody : writerpn_body fe st rpnexpr rpn (length pre)
    = ('(id, st') ← getSymbolID fe st a;
       Ok (next, rpnexpr ++ RPN_BANK_SYM :: le32 id, st'))).
  { unfold writerpn_body, rpn. rewrite popbyte_middle. step_bind.
    rewrite Hbank.
    destruct (Z.eqb_spec RPN_BANK_SYM RPN_CONST) as [|_]; [done|].
    destruct (Z.eqb_spec RPN_BANK_SYM RPN_SYM) as [|_]; [done|].
    rewrite Z.eqb_refl, read_tzSym_operand by done. step_bind.
    rewrite Hfind.
    destruct (getSymbolID fe st a) as [[value st']|e]; [|done].
    do 2 step_bind.
    rewrite writebyte_le32. unfold writebyte. rewrite Hbank.
    by rewrite <- app_assoc. }
  split_and!.
  - exact Hbody.
  - done.
  - intros Hid. by apply (getSymbolID_known fe st a s).
  - intros Hid Hpc. split; [by apply (getSymbolID_fresh fe st a s)|].
    intros st' Hreg.
    apply registerSymbol_Ok in Hreg as (s' & r & Hs' & _ & Hnb & ->).
    rewrite Hs in Hs'. injection Hs' as <-. simpl.
    by rewrite lookup_insert_eq.
  - intros Hid Hpc. rewrite (getSymbolID_PC fe st a s) by done.
    by rewrite Hid.
  - intros Hid. rewrite Hbody.
    by rewrite (getSymbolID_known fe st a s) by done.
  - intros Hid Hpc Hreach Hcl Hsrc Hsize Hnb.
    destruct (registerSymbol_progress st a s Hs Hreach Hcl Hsrc Hsize Hnb)
      as (st' & Hreg & Hs' & Ho' & Hn' & _).
    exists st'. rewrite Hbody, (getSymbolID_fresh fe st a s) by done.
    rewrite Hreg. done.
  - intros Hid Hpc. rewrite Hbody.
    rewrite (getSymbolID_PC fe st a s) by done. by rewrite Hid.
Qed.

End allocation.

Lemma example_registry_init : reachable example_registry.
Proof.
  apply reach_init; [done|]. apply (bool_decide_unpack _). by vm_compute.
Qed.

Lemma writerpn_sym_witness :
  writerpn_body (H := example_linkdefs) example_frontend example_state []
                [129; 75; 0] 0
    = Ok (3%nat, [128; 42; 0; 0; 0], example_state) ∧
  writerpn_body (H := example_linkdefs) example_frontend example_state []
                [129; 76; 97; 98; 0] 0
    = (st' ← registerSymbol example_state 2%positive;
       Ok (5%nat, [129; 0; 0; 0; 0], st')) ∧
  ∃ st',
    writerpn_body (H := example_linkdefs) example_frontend example_state []
                  [129; 76; 97; 98; 0] 0
      = Ok (5%nat, [129; 0; 0; 0; 0], st') ∧
    symbols st' !! 2%positive
      = Some (mkSymbol [76; 97; 98] false 2%positive 3 8 0) ∧
    objectSymbols st' = [2%positive] ∧ nbSymbols st' = 1.
Proof.
  split_and!.
  - refine (proj1 (writerpn_sym (ld := example_linkdefs) example_frontend
                     example_state [] [] [75] [] 3%positive _
                     example_linkdefs_ok _ eq_refl eq_refl) eq_refl).
    solve_is_name.
  - refine (proj1 (proj1 (proj2 (proj2
              (writerpn_sym (ld := example_linkdefs) example_frontend
                     example_state [] [] [76; 97; 98] [] 2%positive _
                     example_linkdefs_ok _ eq_refl eq_refl)))
              eq_refl eq_refl eq_refl)).
    solve_is_name.
  - refine (proj2 (proj2 (proj1 (proj2 (proj2
              (writerpn_sym (ld := example_linkdefs) example_frontend
                     example_state [] [] [76; 97; 98] [] 2%positive _
                     example_linkdefs_ok _ eq_refl eq_refl)))
              eq_refl eq_refl eq_refl))
              example_registry_init example_nodes_closed _ _ _).
    + solve_is_name.
    + eexists. by vm_compute.
    + by vm_compute.
    + by vm_compute.
Defined.

Lemma writerpn_bank_sym_witness :
  sym_IsConstant example_frontend 3%positive = true ∧
  writerpn_body (H := example_linkdefs) example_frontend example_state []
                [80; 75; 0] 0
    = ('(id, st') ← getSymbolID example_frontend example_state 3%positive;
       Ok (3%nat, 80 :: le32 id, st')) ∧
  ∃ st',
    writerpn_body (H := example_linkdefs) example_frontend example_state []
                  [80; 75; 0] 0
      = Ok (3%nat, [80; 0; 0; 0; 0], st') ∧
    symbols st' !! 3%positive = Some (mkSymbol [75] false 1%positive 2 42 0) ∧
    objectSymbols st' = [3%positive] ∧ nbSymbols st' = 1.
Proof.
  destruct (writerpn_bank_sym (ld := example_linkdefs) example_frontend
              example_state [] [] [75] [] 3%positive
              (mkSymbol [75] false 1%positive 2 42 NO_ID)
              example_linkdefs_ok)
    as (Hbody & _ & _ & _ & _ & _ & Hfresh & _);
    [solve_is_name|reflexivity|reflexivity|].
  split_and!; [reflexivity|exact Hbody|].
  apply Hfresh; [reflexivity|reflexivity|exact example_registry_init
                |exact example_nodes_closed| | |].
  - eexists. by vm_compute.
  - by vm_compute.
  - by vm_compute.
Defined.

(** ** The records of the patches of a section *)






Section patch_records.
Context {ld : Linkdefs}.
Implicit Types (fe : FrontEnd) (st : State) (expr : Expression).





End patch_records.

